(** * finetune/base.py: a shallow embedding of [BaseModel] and its properties

    The development follows [src/finetune/base.py].  Python objects become
    records, methods become functions that take and return the object,
    exceptions become the [Raise]/[Raises] outcomes, and the collaborators
    that live outside the file (the text encoder, numpy's random generator,
    the TensorFlow session, the label encoder supplied by the subclass,
    [os.path.abspath]) are the variables of the section.

    Floating point numbers come in two forms.  For the averages and the
    counts of the training loop a finite float is an exact rational, with
    the two special values that the loop can meet ([float("inf")] and
    [nan]) kept apart in [fval].  The validation checks, where the result
    of a comparison decides whether the model is saved, are over any
    floats with the order of IEEE 754 ([PyFloat]), of which the exact ones
    are an instance: there [np.mean] may round.

    Arrays of weights carry the length of their second axis, so that
    [np.concatenate] fails as numpy does; token arrays are int32.  The
    file system is a finite map from absolute paths to nodes. *)

From Stdlib Require Import QArith ZArith Lia Lqa.
From stdpp Require Import base option list strings gmap.

Open Scope Z_scope.

(** ** Exceptions and results *)

Inductive exn :=
| ValueError
| IndexError
| TypeError
| ZeroDivisionError
| FileNotFoundError
| IsADirectoryError
| NotADirectoryError
| UnpicklingError.

Inductive result (A : Type) :=
| Ok (a : A)
| Raise (e : exn).
Arguments Ok {A} a.
Arguments Raise {A} e.

#[global] Instance result_ret : MRet result := fun A a => Ok a.
#[global] Instance result_bind : MBind result := fun A B f m =>
  match m with
  | Ok a => f a
  | Raise e => Raise e
  end.

(** ** Exact floats

    The rationals with +infinity and nan: sums and means are exact. *)

Inductive fval :=
| Fin (q : Q)
| PInf
| NaN.

Definition fadd (x y : fval) : fval :=
  match x, y with
  | NaN, _ | _, NaN => NaN
  | PInf, _ | _, PInf => PInf
  | Fin a, Fin b => Fin (a + b)
  end.

(* [x / n] for a positive count [n] *)
Definition fdiv_count (x : fval) (n : nat) : fval :=
  match x with
  | Fin a => Fin (a / inject_Z (Z.of_nat n))
  | PInf => PInf
  | NaN => NaN
  end.

(* [x <= y] on floats: every comparison with nan is False *)
Definition fle (x y : fval) : bool :=
  match x, y with
  | Fin a, Fin b => Qle_bool a b
  | Fin _, PInf => true
  | PInf, PInf => true
  | _, _ => false
  end.

Definition fis_nan (x : fval) : bool :=
  match x with
  | NaN => true
  | _ => false
  end.

(* [np.mean(l)]: the sum divided by the length, nan for the empty list *)
Definition np_mean (l : list fval) : fval :=
  match l with
  | [] => NaN
  | _ => fdiv_count (foldr fadd (Fin 0) l) (length l)
  end.

Definition Qlt_bool (a b : Q) : bool := negb (Qle_bool b a).

(** ** Floats as Python and numpy compare them

    The validation window holds Python and numpy floats; [np.mean] rounds.
    What the loop relies on is the order of the values with [float("inf")]
    on top, and that every comparison with nan is False. *)

Class PyFloat (F : Type) := {
  (* [float("inf")] *)
  f_inf : F;
  f_is_nan : F -> bool;
  (* [x <= y] *)
  f_le : F -> F -> bool;
  (* [np.mean(l)], as it rounds *)
  f_mean : list F -> F;
  f_le_nan_l : forall x y, f_is_nan x = true -> f_le x y = false;
  f_le_nan_r : forall x y, f_is_nan y = true -> f_le x y = false;
  f_le_trans :
    forall x y z, f_le x y = true -> f_le y z = true -> f_le x z = true;
  f_le_total :
    forall x y, f_is_nan x = false -> f_is_nan y = false ->
                f_le x y = true \/ f_le y x = true;
  f_inf_not_nan : f_is_nan f_inf = false;
  f_le_inf : forall x, f_is_nan x = false -> f_le x f_inf = true;
  (* the mean of values with +inf among them is +inf or nan *)
  f_mean_inf :
    forall l, f_inf ∈ l -> f_is_nan (f_mean l) = false -> f_mean l = f_inf;
  (* the mean of no value is nan *)
  f_mean_nil : f_is_nan (f_mean []) = true;
}.

(* The locals of the validation part of [_training_loop] over any floats,
   with two counters: the number of validation checks made and the checks
   (counted from 1) at which [self.save(self.config.autosave_path)] was
   called and returned. *)
Record CheckState (F : Type) := {
  cs_best_val_loss : F;
  cs_val_window : list F;
  cs_n_checks : nat;
  cs_save_calls : list nat;
}.
Arguments cs_best_val_loss {F} _.
Arguments cs_val_window {F} _.
Arguments cs_n_checks {F} _.
Arguments cs_save_calls {F} _.

(** ** Python and numpy on lists *)

(* [a or b] on an optional integer: None and 0 are falsy *)
Definition py_or (a : option Z) (b : Z) : Z :=
  match a with
  | Some v => if v =? 0 then b else v
  | None => b
  end.

(* [range(a, b)] *)
Definition py_range (a b : Z) : list Z :=
  map (fun k => a + Z.of_nat k) (seq 0 (Z.to_nat (b - a))).

(* [l[:k]], a negative [k] counts from the end *)
Definition py_slice_to {A} (l : list A) (k : Z) : list A :=
  if k <? 0 then take (Z.to_nat (Z.of_nat (length l) + k)) l
  else take (Z.to_nat k) l.

(* [row[:stop] = vals] on a numpy row: the slice is clipped to the row, the
   value has to have the length of the slice or length one (broadcast) *)
Definition np_assign_prefix {A} (row : list A) (stop : nat) (vals : list A)
  : result (list A) :=
  let s := Nat.min stop (length row) in
  if decide (length vals = s) then Ok (vals ++ drop s row)
  else match vals with
       | [v] => Ok (replicate s v ++ drop s row)
       | _ => Raise ValueError
       end.

(* [row[start:stop] = v] for a scalar [v] *)
Definition np_fill_range {A} (row : list A) (start stop : nat) (v : A) : list A :=
  imap (fun j x => if (start <=? j)%nat && (j <? stop)%nat then v else x) row.

(* [np.arange(a, a + n)] *)
Definition np_arange (a : Z) (n : nat) : list Z :=
  map (fun k => a + Z.of_nat k) (seq 0 n).

(* a value stored into an int32 array: the low 32 bits (token ids are
   indices of the vocabulary, far within the range of a C long) *)
Definition np_int32 (z : Z) : Z := (z + 2 ^ 31) mod 2 ^ 32 - 2 ^ 31.

(* a tensor by its rows along axis 0 *)
Abbreviation matrix := (list (list Q)).

(* a two-dimensional array: its rows along axis 0 and the length of
   axis 1, which an array without rows has too *)
Record ndarray := {
  nd_rows : matrix;
  nd_cols : nat;
}.

Definition np_ones_like (a : ndarray) : ndarray :=
  {| nd_rows := (fun row : list Q => (fun _ => 1%Q) <$> row) <$> nd_rows a;
     nd_cols := nd_cols a |}.
Definition np_zeros_like (a : ndarray) : ndarray :=
  {| nd_rows := (fun row : list Q => (fun _ => 0%Q) <$> row) <$> nd_rows a;
     nd_cols := nd_cols a |}.

(* [a[:k]] along axis 0 *)
Definition nd_slice_to (a : ndarray) (k : Z) : ndarray :=
  {| nd_rows := py_slice_to (nd_rows a) k; nd_cols := nd_cols a |}.

(* [np.concatenate(arrays, 0)]: the rows of the arrays one after another;
   ValueError when the arrays differ along axis 1, or when there is none *)
Definition np_concatenate (arrays : list ndarray) : result ndarray :=
  match arrays with
  | [] => Raise ValueError
  | a :: rest =>
      if forallb (fun b => Nat.eqb (nd_cols b) (nd_cols a)) rest
      then Ok {| nd_rows := concat (nd_rows <$> arrays);
                 nd_cols := nd_cols a |}
      else Raise ValueError
  end.

(** ** Configuration, encoder output *)

Module Config.
Record t := {
  max_length : Z;
  batch_size : Z;
  visible_gpus : list Z;
  val_size : Q;
  val_interval : Z;
  val_window_size : Z;
  rolling_avg_decay : Q;
  save_best_model : bool;
  autosave_path : option string;
  lm_loss_coef : Q;
  interpolate_pos_embed : bool;
  n_embed : nat;
  weight_stddev : Q;
  n_epochs : Z;
}.
End Config.

Module EncodedOutput.
Record t := {
  token_ids : list (list Z);
  tokens : list (list string);
  labels : option (list (list string));
  char_locs : list (list Z);
}.
End EncodedOutput.

Module ArrayEncodedOutput.
Record t := {
  token_ids : list (list (Z * Z));
  tokens : list (list string);
  labels : option (list (list string));
  char_locs : list (list Z);
  mask : list (list Q);
}.
End ArrayEncodedOutput.

(* what base.py uses of [finetune.encoding.TextEncoder] *)
Module TextEncoder.
Record t := {
  vocab_size : Z;
  special_tokens : list string;
  start_token : Z;     (* encoder['_start_'] *)
  classify_token : Z;  (* encoder['_classify_'] *)
  _encode : list string -> EncodedOutput.t;
  encode_multi_input :
    list (list (list string)) -> option (list string) -> Z -> EncodedOutput.t;
  decode : list Z -> string;
}.
End TextEncoder.

(** ** [_array_format] *)

(* [finetune.config.PAD_TOKEN] *)
Definition PAD_TOKEN : string := "<PAD>".

(* the body of the loop of [_array_format] for example [i]: channel 0 of
   [x], the mask row and the label row.  [x] is an int32 array: what is
   assigned to it is kept modulo 2^32. *)
Definition array_format_row (M : nat) (labels : option (list (list string)))
    (i : nat) (toks : list Z)
  : result (list Z * list Q * option (list string)) :=
  let seq_length := length toks in
  x0 ← np_assign_prefix (replicate M 0) seq_length (np_int32 <$> toks);
  let m := np_fill_range (replicate M 0%Q) 1 seq_length 1%Q in
  lab ← match labels with
        | None => Ok None
        | Some [] => Ok (Some (replicate M PAD_TOKEN))
        | Some ls =>
            match ls !! i with
            | None => Raise IndexError
            | Some li =>
                r ← np_assign_prefix (replicate M PAD_TOKEN) seq_length li;
                Ok (Some r)
            end
        end;
  Ok (x0, m, lab).

Fixpoint array_format_rows (M : nat) (labels : option (list (list string)))
    (i : nat) (token_ids : list (list Z))
  : result (list (list Z * list Q * option (list string))) :=
  match token_ids with
  | [] => Ok []
  | toks :: rest =>
      r ← array_format_row M labels i toks;
      rs ← array_format_rows M labels (S i) rest;
      Ok (r :: rs)
  end.

Definition _array_format (config : Config.t) (encoder : TextEncoder.t)
    (encoded_output : EncodedOutput.t) : result ArrayEncodedOutput.t :=
  if Config.max_length config <? 0 then Raise ValueError
  else
    let M := Z.to_nat (Config.max_length config) in
    rows ← array_format_rows M (EncodedOutput.labels encoded_output) 0%nat
             (EncodedOutput.token_ids encoded_output);
    let positions :=
      np_int32 <$> np_arange (TextEncoder.vocab_size encoder) M in
    Ok {| ArrayEncodedOutput.token_ids :=
            map (fun r => zip (fst (fst r)) positions) rows;
          ArrayEncodedOutput.tokens := EncodedOutput.tokens encoded_output;
          ArrayEncodedOutput.labels :=
            match EncodedOutput.labels encoded_output with
            | None => None
            | Some _ => Some (omap (fun r => snd r) rows)
            end;
          ArrayEncodedOutput.char_locs := EncodedOutput.char_locs encoded_output;
          ArrayEncodedOutput.mask := map (fun r => snd (fst r)) rows |}.

(** ** The model object *)

(* The target encoder that a subclass returns from [_target_encoder]. *)
Class TargetEncoder (E : Type) := {
  _target_encoder : E;
  fit_transform : E -> list string -> E * list (list Q);
  transform : E -> list string -> list (list Q);
  encoder_target_dim : E -> Z;
}.

(* What [_construct_graph] compiled: one entry per call. *)
Record Graph := {
  g_train : bool;
  g_target_dim : option Z;
  g_lm_loss_coef : Q;
  g_compile_lm : bool;      (* the language-model head is in the graph *)
  g_target_head : bool;     (* the task head is in the graph *)
  g_n_splits : nat;
  g_n_updates_total : Z;
}.

(* Where the session's weights were taken from. *)
Inductive WeightEvent :=
| InitFromPretrained
| Restored (path : string) (with_target : bool).

(* The first four fields are the ones [__getstate__] keeps; [False] in
   [_load_from_file] is [None].  [graphs] and [weights] are logs (newest
   first) of what was compiled and assigned; the Python object holds the
   corresponding TensorFlow handles. *)
Module BaseModel.
Record t {E : Type} := {
  config : Config.t;
  label_encoder : option E;
  target_dim : option Z;
  _load_from_file : option string;
  lm_predict_op : bool;     (* False: the attribute is None *)
  sess : bool;              (* False: the attribute is None *)
  is_built : bool;
  is_trained : bool;
  require_lm : bool;
  train : option bool;
  graphs : list Graph;
  weights : list WeightEvent;
}.
Arguments t E : clear implicits.
End BaseModel.
Import BaseModel.

Inductive outcome (E A : Type) :=
| Returns (self : BaseModel.t E) (a : A)
| Raises (self : BaseModel.t E) (e : exn).
Arguments Returns {E A} self a.
Arguments Raises {E A} self e.

Definition state_after {E A} (o : outcome E A) : BaseModel.t E :=
  match o with
  | Returns self _ => self
  | Raises self _ => self
  end.

(* the pretrained parameters and the regularisation mask that goes with them *)
Inductive MaskEntry :=
| MaskArray (m : ndarray)
| MaskScalar (q : Q).

Record PretrainedWeights := {
  init_params : list ndarray;
  reg_masks : list MaskEntry;
}.

(** ** Ghost records of a training run and of a decoding run *)

(* The locals of the validation part of [_training_loop], with two
   counters: the number of validation checks made and the checks (counted
   from 1) at which [self.save(self.config.autosave_path)] was called. *)
Record LoopState := {
  avg_val_loss : option Q;
  best_val_loss : fval;
  val_window : list fval;
  n_checks : nat;
  save_calls : list nat;
}.

(* the costs that the session returns at one global step: those of the
   validation batches, which the loop asks for at a validation step only,
   and that of the training batch *)
Record StepCosts := {
  val_costs : list Q;
  train_cost : Q;
}.

Record TrainState := {
  global_step : Z;
  avg_train_loss : option Q;
  validation : LoopState;
}.

Record TrainingRun := {
  train_Y : list (list Q);
  val_Y : list (list Q);
  run_target_dim : option Z;
  run_n_updates_total : Z;
  run_loop : TrainState;
}.

(* One run of the decoding loop of [generate_text]: the iterations
   started, the arrays fed to the session (oldest first) and the token
   sequence at the end of the loop. *)
Record DecodeRun := {
  iterations : nat;
  fed : list ArrayEncodedOutput.t;
  decoded_tokens : result (list Z);
}.

(** ** Files *)

(* [SerializedState] is the dictionary that [__getstate__] returns.  The
   fifth key it asks for, [target_type], is not an attribute that base.py
   sets. *)
Record SerializedState {E : Type} := {
  s_label_encoder : option E;
  s_target_dim : option Z;
  s_load_from_file : option string;
  s_config : Config.t;
}.
Arguments SerializedState E : clear implicits.

Inductive FileNode {E : Type} :=
| Directory
| CheckpointFiles
| PickleFile (state : SerializedState E)
| OtherFile.
Arguments FileNode E : clear implicits.

Definition SAVE_PREFIX : string := "model".

(* [os.path.join(a, b)] for a directory [a] without a trailing separator *)
Definition path_join (a b : string) : string := a +:+ "/" +:+ b.

(* the directories above an absolute, normalised path (what
   [os.path.abspath] returns), the root first: [pre] is what has been read *)
Fixpoint path_prefixes (pre p : string) : list string :=
  match p with
  | EmptyString => []
  | String c rest =>
      if String.eqb (String c EmptyString) "/"
      then (if String.eqb pre "" then "/" else pre)
             :: path_prefixes (pre +:+ "/") rest
      else path_prefixes (pre +:+ String c EmptyString) rest
  end.

Definition path_parents (p : string) : list string :=
  filter (fun d => d <> p) (path_prefixes "" p).

(* [Path(path).mkdir(parents=True)] where nothing exists at [path]: a file
   above the path is NotADirectoryError, the directories that miss above
   it are made, then the directory itself *)
Definition mkdir_parents {E} (path : string) (fs : gmap string (FileNode E))
  : result (gmap string (FileNode E)) :=
  let blocks (d : string) :=
    match fs !! d with
    | Some Directory | None => false
    | Some _ => true
    end in
  if existsb blocks (path_parents path) then Raise NotADirectoryError
  else
    let make (fs : gmap string (FileNode E)) (d : string) :=
      match fs !! d with
      | None => <[d := Directory]> fs
      | Some _ => fs
      end in
    Ok (<[path := Directory]> (foldl make fs (path_parents path))).

(** ** The formatted probabilities *)

(* [dict(items)]: a later pair replaces an earlier one with the same key *)
Definition py_dict {V} (items : list (string * V)) : gmap string V :=
  foldl (fun d kv => <[fst kv := snd kv]> d) ∅ items.

(* lines 310-317: the loop of [predict_proba] over the rows that
   [_predict_proba] returned, with [classes = self.label_encoder.classes_] *)
Definition predict_proba_format (classes : list string)
    (raw_probas : list (list Q)) : list (gmap string Q) :=
  (fun probas => py_dict (zip classes probas)) <$> raw_probas.

(** ** Grid search *)

(* A configuration item: a plain value, or a [finetune.config.Ranged]
   item, the only kind with [get_itterator]; [values] is what the
   iterator yields. *)
Inductive ConfigItem (V : Type) :=
| Plain (v : V)
| Ranged (values : list V).
Arguments Plain {V} v.
Arguments Ranged {V} values.

(* [config.items()], in the order of the dictionary *)
Definition GridConfig (V : Type) := list (string * ConfigItem V).

(* [d[k] = v] and [d.get(k)] on a dictionary kept in insertion order *)
Fixpoint dict_set {V} (d : list (string * V)) (k : string) (v : V)
  : list (string * V) :=
  match d with
  | [] => [(k, v)]
  | (k', v') :: rest =>
      if decide (k' = k) then (k, v) :: rest else (k', v') :: dict_set rest k v
  end.

Fixpoint dict_get {V} (d : list (string * V)) (k : string) : option V :=
  match d with
  | [] => None
  | (k', v) :: rest => if decide (k' = k) then Some v else dict_get rest k
  end.

(* [d.update(items)] *)
Definition dict_update {V} (d : list (string * V)) (items : list (string * V))
  : list (string * V) :=
  foldl (fun d kv => dict_set d (fst kv) (snd kv)) d items.

(* [itertools.product] of the iterables: the last one runs fastest *)
Fixpoint itertools_product {A} (iterables : list (list A)) : list (list A) :=
  match iterables with
  | [] => [[]]
  | it :: rest => x ← it; (fun p => x :: p) <$> itertools_product rest
  end.

(* [max(l, key=key)]: the first of the largest elements, ValueError for an
   empty sequence *)
Definition py_max_by {A} (key : A -> Q) (l : list A) : result A :=
  match l with
  | [] => Raise ValueError
  | x :: rest =>
      Ok (foldl (fun best y => if Qlt_bool (key best) (key y) then y else best)
            x rest)
  end.

(* lines 731-736: the keys and the iterators of the ranged items *)
Definition ranged_items {V} (config : GridConfig V) : list (string * list V) :=
  omap (fun kv : string * ConfigItem V =>
          match snd kv with
          | Ranged values => Some (fst kv, values)
          | Plain _ => None
          end) config.

(* lines 737-743: the configuration [config_] of every grid item *)
Definition grid_configs {V} (config : GridConfig V) : list (GridConfig V) :=
  let ranged_keys := fst <$> ranged_items config in
  let ranged_itterators := snd <$> ranged_items config in
  (fun grid_item => dict_update config (zip ranged_keys (Plain <$> grid_item)))
    <$> itertools_product ranged_itterators.

(* lines 726-754.  [score config_] stands for
   [eval_fn(res, testY)], the evaluation of the instance that was created
   from [config_], fine-tuned on the training split and asked for its
   predictions on the test split; these are calls into the subclass.
   With return_all the result is the list, otherwise a configuration. *)
Definition finetune_grid_search {V} (config : GridConfig V)
    (score : GridConfig V -> Q) (return_all : bool)
  : result (list (GridConfig V * Q) + GridConfig V) :=
  let results :=
    (fun config_ => (config, score config_)) <$> grid_configs config in
  if return_all then Ok (inl results)
  else
    best ← py_max_by (fun x : GridConfig V * Q => snd x) results;
    Ok (inr (fst best)).

(** ** A small instance of the collaborators

    Used by the closed examples at the end: a byte-level encoder with the
    three special tokens after the 256 byte values, a positional table of
    512 rows of width one, a two-row token table and one further tensor. *)

Fixpoint demo_tokens (text : string) : list Z :=
  match text with
  | EmptyString => []
  | String c rest => Z.of_N (Ascii.N_of_ascii c) :: demo_tokens rest
  end.

Definition demo_encode (texts : list string) : EncodedOutput.t :=
  {| EncodedOutput.token_ids := demo_tokens <$> texts;
     EncodedOutput.tokens := [];
     EncodedOutput.labels := None;
     EncodedOutput.char_locs := [] |}.

Definition demo_token_text (tok : Z) : string :=
  if tok =? 256 then "_start_"
  else if tok =? 257 then "_delimiter_"
  else if tok =? 258 then "_classify_"
  else String (Ascii.ascii_of_N (Z.to_N tok)) "".

Fixpoint demo_decode (ids : list Z) : string :=
  match ids with
  | [] => ""
  | tok :: rest => demo_token_text tok +:+ demo_decode rest
  end.

Definition demo_encode_multi_input (Xs : list (list (list string)))
    (Y : option (list string)) (max_length : Z) : EncodedOutput.t :=
  {| EncodedOutput.token_ids :=
       match Xs with
       | [] => []
       | X :: _ =>
           (fun doc : list string =>
              take (Z.to_nat max_length)
                (256 :: concat (demo_tokens <$> doc) ++ [258])) <$> X
       end;
     EncodedOutput.tokens := [];
     EncodedOutput.labels := None;
     EncodedOutput.char_locs := [] |}.

Definition demo_encoder : TextEncoder.t :=
  {| TextEncoder.vocab_size := 256;
     TextEncoder.special_tokens := ["_start_"; "_delimiter_"; "_classify_"];
     TextEncoder.start_token := 256;
     TextEncoder.classify_token := 258;
     TextEncoder._encode := demo_encode;
     TextEncoder.encode_multi_input := demo_encode_multi_input;
     TextEncoder.decode := demo_decode |}.

#[local] Instance demo_target_encoder : TargetEncoder (list string) :=
  {| _target_encoder := [];
     fit_transform := fun _ ys => (ys, (fun _ => [1%Q]) <$> ys);
     transform := fun _ ys => (fun _ => [1%Q]) <$> ys;
     encoder_target_dim := fun classes => Z.of_nat (length classes) |}.

Definition demo_stored_params : list ndarray :=
  [ {| nd_rows := replicate 512 [(1 # 2)%Q]; nd_cols := 1 |};
    {| nd_rows := [[1%Q]; [2%Q]]; nd_cols := 1 |};
    {| nd_rows := [[7%Q]]; nd_cols := 1 |} ].

Definition demo_randn (rows cols : nat) : matrix :=
  replicate rows (replicate cols 1%Q).

Definition demo_interpolate (a : ndarray) (n : Z) : ndarray :=
  {| nd_rows := replicate (Z.to_nat n) [0%Q]; nd_cols := nd_cols a |}.

Definition demo_split (idxs : list nat) (test_size : Q) : list nat * list nat :=
  (take (length idxs - 1) idxs, drop (length idxs - 1) idxs).

(* the k-th forward pass samples token 97 + k at every position *)
Definition demo_lm_predict (k : nat) (X : list (list (Z * Z)))
    (M : list (list Q)) : list Z :=
  replicate 8 (97 + Z.of_nat k).

Definition demo_abspath (path : string) : string := "/work/" +:+ path.

Definition demo_config (max_length : Z) : Config.t :=
  {| Config.max_length := max_length;
     Config.batch_size := 2;
     Config.visible_gpus := [];
     Config.val_size := (1 # 2)%Q;
     Config.val_interval := 2;
     Config.val_window_size := 2;
     Config.rolling_avg_decay := (9 # 10)%Q;
     Config.save_best_model := true;
     Config.autosave_path := None;
     Config.lm_loss_coef := (1 # 2)%Q;
     Config.interpolate_pos_embed := false;
     Config.n_embed := 1;
     Config.weight_stddev := (1 # 50)%Q;
     Config.n_epochs := 1 |}.

(* six global steps; with val_interval 2 the steps 2, 4 and 6 are
   validation steps, with total validation losses 3, 2 and 2 *)
Definition demo_steps : list StepCosts :=
  [ {| val_costs := [9%Q]; train_cost := 5%Q |};
    {| val_costs := [3%Q]; train_cost := 4%Q |};
    {| val_costs := [9%Q]; train_cost := 4%Q |};
    {| val_costs := [1%Q; 1%Q]; train_cost := 3%Q |};
    {| val_costs := [9%Q]; train_cost := 3%Q |};
    {| val_costs := [2%Q]; train_cost := 2%Q |} ].

(* the small configuration with another validation interval and batch size *)
Definition demo_config_with (val_interval batch_size : Z) : Config.t :=
  {| Config.max_length := 6;
     Config.batch_size := batch_size;
     Config.visible_gpus := [];
     Config.val_size := (1 # 2)%Q;
     Config.val_interval := val_interval;
     Config.val_window_size := 2;
     Config.rolling_avg_decay := (9 # 10)%Q;
     Config.save_best_model := true;
     Config.autosave_path := None;
     Config.lm_loss_coef := (1 # 2)%Q;
     Config.interpolate_pos_embed := false;
     Config.n_embed := 1;
     Config.weight_stddev := (1 # 50)%Q;
     Config.n_epochs := 1 |}.

(* two tokens with their labels, one token with its label *)
Definition demo_labelled : EncodedOutput.t :=
  {| EncodedOutput.token_ids := [[1; 2]; [3]];
     EncodedOutput.tokens := [];
     EncodedOutput.labels := Some [["a"; "b"]; ["c"]];
     EncodedOutput.char_locs := [] |}.

(* four steps, a validation check with the same loss at the second and
   at the fourth *)
Definition demo_equal_steps : list StepCosts :=
  [ {| val_costs := [9%Q]; train_cost := 5%Q |};
    {| val_costs := [1%Q]; train_cost := 4%Q |};
    {| val_costs := [9%Q]; train_cost := 4%Q |};
    {| val_costs := [1%Q]; train_cost := 3%Q |} ].

Section Finetune.

Context {E : Type} `{TargetEncoder E}.

(* [self.encoder], the [TextEncoder()] that [_initialize] creates *)
Variable encoder : TextEncoder.t.
(* the tensors of model/params_*.npy, cut and reshaped along
   model/params_shapes.json (lines 616-621); the first two, the positional
   and the token table, have two axes *)
Variable stored_params : list ndarray.
(* [np.random.randn(rows, cols)] *)
Variable np_random_randn : nat -> nat -> matrix.
(* [finetune.utils.interpolate_pos_embed] *)
Variable interpolate_pos_embed : ndarray -> Z -> ndarray.
(* [sklearn.model_selection.train_test_split] on the example indices *)
Variable train_test_split : list nat -> Q -> list nat * list nat.
(* [self.sess.run(self.lm_predict_op, {X: .., M: ..})], by the number of
   forward passes made before it: sampling is random, so the same input
   need not give the same tokens twice *)
Variable lm_predict : nat -> list (list (Z * Z)) -> list (list Q) -> list Z.
(* [os.path.abspath] *)
Variable abspath : string -> string.

Definition set_label_encoder (v : option E) (self : BaseModel.t E) : BaseModel.t E :=
  {| config := config self; label_encoder := v; target_dim := target_dim self;
     _load_from_file := _load_from_file self; lm_predict_op := lm_predict_op self;
     sess := sess self; is_built := is_built self; is_trained := is_trained self;
     require_lm := require_lm self; train := train self; graphs := graphs self;
     weights := weights self |}.

Definition set_target_dim (v : option Z) (self : BaseModel.t E) : BaseModel.t E :=
  {| config := config self; label_encoder := label_encoder self; target_dim := v;
     _load_from_file := _load_from_file self; lm_predict_op := lm_predict_op self;
     sess := sess self; is_built := is_built self; is_trained := is_trained self;
     require_lm := require_lm self; train := train self; graphs := graphs self;
     weights := weights self |}.

Definition set_load_from_file (v : option string) (self : BaseModel.t E) : BaseModel.t E :=
  {| config := config self; label_encoder := label_encoder self;
     target_dim := target_dim self; _load_from_file := v;
     lm_predict_op := lm_predict_op self; sess := sess self;
     is_built := is_built self; is_trained := is_trained self;
     require_lm := require_lm self; train := train self; graphs := graphs self;
     weights := weights self |}.

Definition set_sess (v : bool) (self : BaseModel.t E) : BaseModel.t E :=
  {| config := config self; label_encoder := label_encoder self;
     target_dim := target_dim self; _load_from_file := _load_from_file self;
     lm_predict_op := lm_predict_op self; sess := v;
     is_built := is_built self; is_trained := is_trained self;
     require_lm := require_lm self; train := train self; graphs := graphs self;
     weights := weights self |}.

Definition set_is_built (v : bool) (self : BaseModel.t E) : BaseModel.t E :=
  {| config := config self; label_encoder := label_encoder self;
     target_dim := target_dim self; _load_from_file := _load_from_file self;
     lm_predict_op := lm_predict_op self; sess := sess self;
     is_built := v; is_trained := is_trained self;
     require_lm := require_lm self; train := train self; graphs := graphs self;
     weights := weights self |}.

Definition set_is_trained (v : bool) (self : BaseModel.t E) : BaseModel.t E :=
  {| config := config self; label_encoder := label_encoder self;
     target_dim := target_dim self; _load_from_file := _load_from_file self;
     lm_predict_op := lm_predict_op self; sess := sess self;
     is_built := is_built self; is_trained := v;
     require_lm := require_lm self; train := train self; graphs := graphs self;
     weights := weights self |}.

Definition set_require_lm (v : bool) (self : BaseModel.t E) : BaseModel.t E :=
  {| config := config self; label_encoder := label_encoder self;
     target_dim := target_dim self; _load_from_file := _load_from_file self;
     lm_predict_op := lm_predict_op self; sess := sess self;
     is_built := is_built self; is_trained := is_trained self;
     require_lm := v; train := train self; graphs := graphs self;
     weights := weights self |}.

Definition add_weights (ev : WeightEvent) (self : BaseModel.t E) : BaseModel.t E :=
  {| config := config self; label_encoder := label_encoder self;
     target_dim := target_dim self; _load_from_file := _load_from_file self;
     lm_predict_op := lm_predict_op self; sess := sess self;
     is_built := is_built self; is_trained := is_trained self;
     require_lm := require_lm self; train := train self; graphs := graphs self;
     weights := ev :: weights self |}.

(* lines 63-90: the fields that are not serialised *)
Definition _initialize (self : BaseModel.t E) : BaseModel.t E :=
  {| config := config self; label_encoder := label_encoder self;
     target_dim := target_dim self; _load_from_file := _load_from_file self;
     lm_predict_op := false; sess := false;
     is_built := false; is_trained := false;
     require_lm := false; train := None; graphs := graphs self;
     weights := weights self |}.

(* lines 48-61, [BaseModel(config)] *)
Definition __init__ (cfg : Config.t) : BaseModel.t E :=
  set_load_from_file None (set_target_dim None (_initialize
    {| config := cfg; label_encoder := None; target_dim := None;
       _load_from_file := None; lm_predict_op := false; sess := false;
       is_built := false; is_trained := false; require_lm := false;
       train := None; graphs := []; weights := [] |})).

(** ** Loading the pretrained weights and building the graph *)

(* lines 630-631: [randn(len(special_tokens), n_embed) * weight_stddev] *)
Definition special_embed (cfg : Config.t) : ndarray :=
  {| nd_rows :=
       map (map (fun x => (x * Config.weight_stddev cfg)%Q))
         (np_random_randn (length (TextEncoder.special_tokens encoder))
            (Config.n_embed cfg));
     nd_cols := Config.n_embed cfg |}.

(* lines 612-641.  The two [np.concatenate] (lines 632-635) raise
   ValueError when the token table, the special-token embeddings and the
   positional table do not have the same number of columns. *)
Definition _load_base_model (cfg : Config.t) : result PretrainedWeights :=
  let init_params0 := stored_params in
  init_params1 ←
    (if Config.interpolate_pos_embed cfg then
       match init_params0 with
       | [] => Raise IndexError
       | p0 :: rest => Ok (interpolate_pos_embed p0 (Config.max_length cfg) :: rest)
       end
     else if 512 <? Config.max_length cfg then Raise ValueError
     else
       match init_params0 with
       | [] => Raise IndexError
       | p0 :: rest => Ok (nd_slice_to p0 (Config.max_length cfg) :: rest)
       end);
  let special_embed := special_embed cfg in
  match init_params1 with
  | p0 :: p1 :: rest =>
      reg_mask ←
        np_concatenate
          [np_ones_like p1; np_zeros_like special_embed; np_ones_like p0];
      first ← np_concatenate [p1; special_embed; p0];
      let init_params2 := first :: rest in
      Ok {| init_params := init_params2;
            reg_masks :=
              MaskArray reg_mask
              :: replicate (length init_params2 - 1) (MaskScalar 1) |}
  | _ => Raise IndexError
  end.

(* lines 410-527: what the graph is compiled with *)
Definition compiled_graph (self : BaseModel.t E) (n_updates_total : Z)
    (target_dim : option Z) (train : bool) : Graph :=
  let gpus := Config.visible_gpus (config self) in
  let n_splits := Nat.max (length gpus) 1 in
  let lm_loss_coef :=
    match target_dim with
    | None => 1%Q
    | Some _ => Config.lm_loss_coef (config self)
    end in
  let compile_lm := (train && Qlt_bool 0 lm_loss_coef) || require_lm self in
  {| g_train := train; g_target_dim := target_dim;
     g_lm_loss_coef := lm_loss_coef; g_compile_lm := compile_lm;
     g_target_head := bool_decide (target_dim <> None);
     g_n_splits := n_splits; g_n_updates_total := n_updates_total |}.

(* [self.lm_predict_op] is assigned only when the head is compiled *)
Definition _construct_graph (self : BaseModel.t E) (n_updates_total : Z)
    (target_dim : option Z) (train : bool) : BaseModel.t E :=
  let g := compiled_graph self n_updates_total target_dim train in
  {| config := config self; label_encoder := label_encoder self;
     target_dim := BaseModel.target_dim self;
     _load_from_file := _load_from_file self;
     lm_predict_op := if g_compile_lm g then true else lm_predict_op self;
     sess := sess self; is_built := is_built self;
     is_trained := is_trained self; require_lm := require_lm self;
     train := Some train; graphs := g :: graphs self;
     weights := weights self |}.

(* lines 562-568 *)
Definition _initialize_session (self : BaseModel.t E) : BaseModel.t E :=
  if sess self then self else set_sess true self.

(* lines 717-724: the task-head variables are restored only when the stored
   target dimension is not None.  [saver.restore] is taken to succeed: the
   checkpoint at the path is the one that [save] wrote. *)
Definition _load_finetuned_model (self : BaseModel.t E) : BaseModel.t E :=
  match _load_from_file self with
  | Some path =>
      set_is_trained true
        (set_load_from_file None
           (add_weights
              (Restored path (bool_decide (BaseModel.target_dim self <> None)))
              self))
  | None => self
  end.

(* lines 643-655 *)
Definition _init_from_pretrained (self : BaseModel.t E) : BaseModel.t E :=
  add_weights InitFromPretrained self.

(* line 535: the graph is constructed again *)
Definition needs_graph (self : BaseModel.t E) (target_dim : option Z)
    (train : bool) : bool :=
  negb (is_trained self)
  || bool_decide (Some train <> BaseModel.train self)
  || bool_decide (BaseModel.target_dim self <> target_dim).

(* lines 529-560.  A path in [_load_from_file] comes from [os.path.abspath]
   and is not the empty string, so the marker is true whenever it is a
   path.  The calls into TensorFlow are taken to succeed, so that the only
   error is the one of [_load_base_model], raised before the object is
   touched.  config.tensorboard_folder is taken to be None: lines 554-559
   do nothing then. *)
Definition _build_model (self : BaseModel.t E) (n_updates_total : Z)
    (target_dim : option Z) (train : bool) : outcome E unit :=
  match _load_base_model (config self) with
  | Raise e => Raises self e
  | Ok pre_trained_weights =>
      let self1 :=
        if needs_graph self target_dim train
        then _construct_graph self n_updates_total target_dim train
        else self in
      let self2 := _initialize_session self1 in
      let self3 :=
        match _load_from_file self2 with
        | Some _ => _load_finetuned_model self2
        | None =>
            if negb (is_trained self2) then _init_from_pretrained self2
            else self2
        end in
      Returns (set_is_built true (set_target_dim target_dim self3)) ()
  end.

(** ** Encoding the inputs *)

(* lines 92-102 *)
Definition _format_for_encoding (Xs : list (list string))
  : list (list (list string)) :=
  map (map (fun x => [x])) Xs.

(* lines 104-109 *)
Definition _text_to_ids (self : BaseModel.t E) (Xs : list (list string))
    (Y : option (list string)) (max_length : option Z)
  : result ArrayEncodedOutput.t :=
  let max_length := py_or max_length (Config.max_length (config self)) in
  let Xs := _format_for_encoding Xs in
  let encoder_out := TextEncoder.encode_multi_input encoder Xs Y max_length in
  _array_format (config self) encoder encoder_out.

(** ** The training loop *)

(* lines 212-228: the total validation loss of one check, from the costs
   of its validation batches *)
Definition sum_val_loss (costs : list Q) : Q :=
  foldl (fun acc val_cost => (acc + val_cost)%Q) 0%Q costs.

(* lines 230-236 and 251-255: a moving average takes one more value *)
Definition rolling_avg (decay : Q) (avg : option Q) (cost : Q) : option Q :=
  match avg with
  | None => Some cost
  | Some a => Some (a * decay + cost * (1 - decay))%Q
  end.

(* lines 230-236: the validation average, updated in the same pass *)
Definition update_avg (decay : Q) (avg : option Q) (costs : list Q) : option Q :=
  foldl (rolling_avg decay) avg costs.

(* lines 187-188 *)
Definition loop_start (cfg : Config.t) : LoopState :=
  {| avg_val_loss := None;
     best_val_loss := PInf;
     val_window := replicate (Z.to_nat (Config.val_window_size cfg)) PInf;
     n_checks := 0;
     save_calls := [] |}.

(* lines 212-243: one validation check, over exact values.  The call
   [self.save(self.config.autosave_path)] is entered in [save_calls]; what
   a call does to the object and to the files is [save] below, and the
   checks over floats that round, with the saves made, are
   [validation_loop]. *)
Definition val_check (cfg : Config.t) (st : LoopState) (costs : list Q)
  : LoopState :=
  let window := drop 1 (val_window st ++ [Fin (sum_val_loss costs)]) in
  let avg := update_avg (Config.rolling_avg_decay cfg) (avg_val_loss st) costs in
  let k := S (n_checks st) in
  if fle (np_mean window) (best_val_loss st) then
    {| avg_val_loss := avg;
       best_val_loss := np_mean window;
       val_window := window;
       n_checks := k;
       save_calls :=
         if Config.save_best_model cfg then save_calls st ++ [k]
         else save_calls st |}
  else
    {| avg_val_loss := avg;
       best_val_loss := best_val_loss st;
       val_window := window;
       n_checks := k;
       save_calls := save_calls st |}.

(* lines 184-188 *)
Definition training_start (cfg : Config.t) : TrainState :=
  {| global_step := 0; avg_train_loss := None; validation := loop_start cfg |}.

(* lines 197-255: one global step *)
Definition training_step (cfg : Config.t) (st : TrainState) (costs : StepCosts)
  : result TrainState :=
  let global_step := global_step st + 1 in
  if Config.val_interval cfg =? 0 then Raise ZeroDivisionError
  else
    let validation :=
      if global_step mod Config.val_interval cfg =? 0
      then val_check cfg (validation st) (val_costs costs)
      else validation st in
    Ok {| global_step := global_step;
          avg_train_loss :=
            rolling_avg (Config.rolling_avg_decay cfg) (avg_train_loss st)
              (train_cost costs);
          validation := validation |}.

(* lines 190-255: the global steps of all epochs, one after the other *)
Fixpoint training_steps (cfg : Config.t) (st : TrainState)
    (steps : list StepCosts) : result TrainState :=
  match steps with
  | [] => Ok st
  | costs :: rest =>
      st ← training_step cfg st costs;
      training_steps cfg st rest
  end.

(* the validation costs of the checks among the steps after step [g] *)
Fixpoint checks_from (val_interval g : Z) (steps : list StepCosts)
  : list (list Q) :=
  match steps with
  | [] => []
  | costs :: rest =>
      let g := g + 1 in
      if g mod val_interval =? 0
      then val_costs costs :: checks_from val_interval g rest
      else checks_from val_interval g rest
  end.

(* the validation costs of the checks of a run from the start; with
   val_interval 0 the first step raises and no check is made *)
Definition checks_of (cfg : Config.t) (steps : list StepCosts)
  : list (list Q) :=
  if Config.val_interval cfg =? 0 then []
  else checks_from (Config.val_interval cfg) 0 steps.

(* the validation part of the loop on the checks alone *)
Definition validation_checks (cfg : Config.t) (checks : list (list Q))
  : LoopState :=
  foldl (val_check cfg) (loop_start cfg) checks.

(* [Y[idxs]] *)
Definition np_take {A} (Y : list A) (idxs : list nat) : result (list A) :=
  mapM (fun i => match Y !! i with
                 | Some y => Ok y
                 | None => Raise IndexError
                 end) idxs.

(* lines 173-257: the loop once the targets are known.  [steps] are the
   costs that the session returns at the global steps of the run, in
   order: n_epochs passes over the batches of the training set.
   [iter_data] is taken to yield these batches (what it raises for a batch
   size that is negative is outside), and the saves of the loop are the
   entries of [save_calls]: what they write, and the end of the run when
   one raises, is in [validation_loop]. *)
Definition train_on (self : BaseModel.t E) (train_idxs : list nat)
    (train_Y val_Y : list (list Q)) (target_dim : option Z)
    (batch_size : option Z) (steps : list StepCosts) : outcome E TrainingRun :=
  let batch_size := py_or batch_size (Config.batch_size (config self)) in
  let n_batch_train :=
    batch_size
    * Z.of_nat (Nat.max (length (Config.visible_gpus (config self))) 1) in
  let n_examples := Z.of_nat (length train_idxs) in
  if n_batch_train =? 0 then Raises self ZeroDivisionError
  else
    let n_updates_total :=
      (n_examples / n_batch_train) * Config.n_epochs (config self) in
    match _build_model self n_updates_total target_dim true with
    | Raises self e => Raises self e
    | Returns self _ =>
        let self := set_is_trained true self in
        match training_steps (config self) (training_start (config self))
                steps with
        | Raise e => Raises self e
        | Ok st =>
            Returns self
              {| train_Y := train_Y; val_Y := val_Y;
                 run_target_dim := target_dim;
                 run_n_updates_total := n_updates_total;
                 run_loop := st |}
        end
    end.

(* lines 156-257.  [train_test_split] is taken to return the two lists of
   indices (sklearn raises ValueError when a side would be empty). *)
Definition _training_loop (self : BaseModel.t E) (arr_encoded : ArrayEncodedOutput.t)
    (Y : option (list string)) (batch_size : option Z)
    (steps : list StepCosts) : outcome E TrainingRun :=
  let self := set_label_encoder (Some _target_encoder) self in
  let idxs := seq 0 (length (ArrayEncodedOutput.token_ids arr_encoded)) in
  let '(train_idxs, val_idxs) :=
    train_test_split idxs (Config.val_size (config self)) in
  match Y with
  | None =>
      (* only the language model is trained: an empty target per example *)
      let train_Y := map (fun _ => []) train_idxs in
      let val_Y := map (fun _ => []) val_idxs in
      train_on self train_idxs train_Y val_Y None batch_size steps
  | Some Y =>
      match np_take Y train_idxs with
      | Raise e => Raises self e
      | Ok y_train =>
          let '(enc, train_Y) := fit_transform _target_encoder y_train in
          let self := set_label_encoder (Some enc) self in
          match np_take Y val_idxs with
          | Raise e => Raises self e
          | Ok y_val =>
              train_on self train_idxs train_Y (transform enc y_val)
                (Some (encoder_target_dim enc)) batch_size steps
          end
      end
  end.

(* lines 146-154 *)
Definition finetune (self : BaseModel.t E) (Xs : list (list string))
    (Y : option (list string)) (batch_size : option Z)
    (steps : list StepCosts) : outcome E TrainingRun :=
  let fit_language_model_only := bool_decide (Y = None) in
  match _text_to_ids self Xs None None with
  | Raise e => Raises self e
  | Ok arr_encoded =>
      let labels := if fit_language_model_only then None else Y in
      _training_loop self arr_encoded labels batch_size steps
  end.

(** ** Inference *)

(* lines 347-353, up to the batches: [predict], [predict_proba] and
   [featurize] all start with it, and it is their only effect on the
   object *)
Definition _infer_prep (self : BaseModel.t E) (Xs : list (list string))
    (max_length : option Z) : outcome E ArrayEncodedOutput.t :=
  let max_length := py_or max_length (Config.max_length (config self)) in
  match _text_to_ids self Xs None (Some max_length) with
  | Raise e => Raises self e
  | Ok arr_encoded =>
      match _build_model self 0 (BaseModel.target_dim self) false with
      | Raises self e => Raises self e
      | Returns self _ => Returns self arr_encoded
      end
  end.

(** ** Text generation *)

(* lines 604-609: the loop over [idxs]; [n] counts the forward passes made
   so far.  Every index is at least [len(encoded.token_ids)], so
   [class_idx[i]] never counts from the end. *)
Fixpoint decode_loop (self : BaseModel.t E) (encoded : EncodedOutput.t) (EOS : Z)
    (idxs : list Z) (n : nat) (fed : list ArrayEncodedOutput.t)
    (string : list Z) : DecodeRun :=
  match idxs with
  | [] => {| iterations := n; fed := fed; decoded_tokens := Ok string |}
  | i :: rest =>
      match _array_format (config self) encoder encoded with
      | Raise e =>
          {| iterations := S n; fed := fed; decoded_tokens := Raise e |}
      | Ok arr_encoded =>
          if negb (lm_predict_op self) then
            {| iterations := S n; fed := fed; decoded_tokens := Raise TypeError |}
          else
            let class_idx :=
              lm_predict n (ArrayEncodedOutput.token_ids arr_encoded)
                (ArrayEncodedOutput.mask arr_encoded) in
            let fed := fed ++ [arr_encoded] in
            match class_idx !! Z.to_nat i with
            | None =>
                {| iterations := S n; fed := fed;
                   decoded_tokens := Raise IndexError |}
            | Some tok =>
                let string := string ++ [tok] in
                if tok =? EOS then
                  {| iterations := S n; fed := fed; decoded_tokens := Ok string |}
                else decode_loop self encoded EOS rest (S n) fed string
            end
      end
  end.

Definition no_run (e : exn) : DecodeRun :=
  {| iterations := 0; fed := []; decoded_tokens := Raise e |}.

(* lines 588-610; the second component is the run of the loop *)
Definition generate_text (self : BaseModel.t E) (seed_text : string)
    (max_length : option Z) : outcome E string * DecodeRun :=
  let self := set_require_lm true self in
  let encoded := TextEncoder._encode encoder [seed_text] in
  match _build_model self 0 (BaseModel.target_dim self) false with
  | Raises self e => (Raises self e, no_run e)
  | Returns self _ =>
      match EncodedOutput.token_ids encoded with
      | [] => (Raises self IndexError, no_run IndexError)
      | seed_ids :: _ =>
          let string := TextEncoder.start_token encoder :: seed_ids in
          let EOS := TextEncoder.classify_token encoder in
          let idxs :=
            py_range (Z.of_nat (length (EncodedOutput.token_ids encoded)))
              (py_or max_length (Config.max_length (config self)) - 1) in
          let run := decode_loop self encoded EOS idxs 0 [] string in
          match decoded_tokens run with
          | Raise e => (Raises self e, run)
          | Ok string => (Returns self (TextEncoder.decode encoder string), run)
          end
      end
  end.

(** ** Saving and loading *)

(* lines 657-668 *)
Definition __getstate__ (self : BaseModel.t E) : SerializedState E :=
  {| s_label_encoder := label_encoder self;
     s_target_dim := BaseModel.target_dim self;
     s_load_from_file := _load_from_file self;
     s_config := config self |}.

(* lines 670-702.  The files that [tf.train.Saver.save] writes are one
   node.  [tf.train.Saver(tf.trainable_variables())] (line 690) raises
   ValueError, No variables to save, when the default graph has no
   variable: the default graph is taken to be the one of this object, which
   has variables once a graph has been constructed for it and none before
   or after [load].  The marker is set before (line 689) and stays where
   the call raises. *)
Definition save (self : BaseModel.t E) (path : option string)
    (fs : gmap string (FileNode E)) : outcome E unit * gmap string (FileNode E) :=
  match path with
  | None => (Returns self (), fs)
  | Some path =>
      let path := abspath path in
      let self := set_load_from_file (Some path) self in
      let write (fs : gmap string (FileNode E)) :=
        let fs := <[path_join path SAVE_PREFIX := CheckpointFiles]> fs in
        let fs :=
          <[path_join path (SAVE_PREFIX +:+ ".pkl") :=
              PickleFile (__getstate__ self)]> fs in
        (Returns (set_load_from_file None self) (), fs) in
      match graphs self with
      | [] => (Raises self ValueError, fs)
      | _ :: _ =>
          match fs !! path with
          | Some Directory => write fs
          | Some _ => (Raises self ValueError, fs)
          | None =>
              match mkdir_parents path fs with
              | Ok fs => write fs
              | Raise e => (Raises self e, fs)
              end
          end
      end
  end.

(* lines 704-715: the unpickled object has the four stored attributes,
   [_initialize] adds the others, and the default graph is reset *)
Definition load (path : string) (fs : gmap string (FileNode E))
  : result (BaseModel.t E) :=
  match fs !! path_join path (SAVE_PREFIX +:+ ".pkl") with
  | Some (PickleFile state) =>
      Ok (_initialize
            {| config := s_config state;
               label_encoder := s_label_encoder state;
               target_dim := s_target_dim state;
               _load_from_file := s_load_from_file state;
               lm_predict_op := false; sess := false; is_built := false;
               is_trained := false; require_lm := false; train := None;
               graphs := []; weights := [] |})
  | Some Directory => Raise IsADirectoryError
  | Some _ => Raise UnpicklingError
  | None => Raise FileNotFoundError
  end.

(** ** The public operations, one after another *)

Inductive Operation :=
| OpFinetune (Xs : list (list string)) (Y : option (list string))
    (batch_size : option Z) (steps : list StepCosts)
| OpInfer (Xs : list (list string)) (max_length : option Z)
| OpGenerateText (seed_text : string) (max_length : option Z)
| OpSave (path : option string).

(* the object and the files after one operation, whether it returned or
   raised *)
Definition run_operation (st : BaseModel.t E * gmap string (FileNode E))
    (op : Operation) : BaseModel.t E * gmap string (FileNode E) :=
  let '(self, fs) := st in
  match op with
  | OpFinetune Xs Y batch_size steps =>
      (state_after (finetune self Xs Y batch_size steps), fs)
  | OpInfer Xs max_length => (state_after (_infer_prep self Xs max_length), fs)
  | OpGenerateText seed_text max_length =>
      (state_after (fst (generate_text self seed_text max_length)), fs)
  | OpSave path =>
      let '(o, fs) := save self path fs in (state_after o, fs)
  end.

Definition run_operations (st : BaseModel.t E * gmap string (FileNode E))
    (ops : list Operation) : BaseModel.t E * gmap string (FileNode E) :=
  foldl run_operation st ops.

(** ** The first parameter, as the specification words it *)

(* the positional table that goes into the first parameter *)
Definition adjusted_pos_embed (cfg : Config.t) (pos : ndarray) : ndarray :=
  if Config.interpolate_pos_embed cfg
  then interpolate_pos_embed pos (Config.max_length cfg)
  else nd_slice_to pos (Config.max_length cfg).

(** ** The rolling window, as the specification words it *)

(* the window after check [k] (counted from 1): the last W entries of W
   infinities followed by v1..vk *)
Definition window_after (W : nat) (vs : list Q) (k : nat) : list fval :=
  drop k (replicate W PInf ++ (Fin <$> take k vs)).

Definition mean_after (W : nat) (vs : list Q) (k : nat) : fval :=
  np_mean (window_after W vs k).

(* the W-length contiguous windows of v1..vn, and their means *)
Definition windows (W : nat) (vs : list Q) : list (list Q) :=
  (fun i => take W (drop i vs)) <$> seq 0 (length vs + 1 - W).

Definition window_means (W : nat) (vs : list Q) : list fval :=
  (fun w : list Q => np_mean (Fin <$> w)) <$> windows W vs.

Definition is_minimum (x : fval) (l : list fval) : Prop :=
  x ∈ l /\ forall y, y ∈ l -> fle x y = true.

(* check [i] is no worse than every check before it *)
Definition no_worse_than_before (W : nat) (vs : list Q) (i : nat) : Prop :=
  forall j, (1 <= j < i)%nat ->
            fle (mean_after W vs i) (mean_after W vs j) = true.

(** ** What every compiled graph and every reachable object satisfy *)

Definition well_built (g : Graph) : Prop :=
  g_target_head g = bool_decide (g_target_dim g <> None)
  /\ (g_target_dim g = None -> g_lm_loss_coef g = 1%Q)
  /\ (g_train g = true -> Qlt_bool 0 (g_lm_loss_coef g) = true ->
      g_compile_lm g = true).

(* a trained object holds the graph of its [train] and [target_dim] *)
Definition graph_consistent {E} (self : BaseModel.t E) : Prop :=
  Forall well_built (graphs self)
  /\ (is_trained self = true ->
      exists g rest,
        graphs self = g :: rest
        /\ BaseModel.train self = Some (g_train g)
        /\ g_target_dim g = BaseModel.target_dim self).

(* The ways in which the public operations change the object: they assign
   the label encoder, the load marker and [require_lm = True], they call
   [_build_model], and [_training_loop] sets [is_trained] after a
   [_build_model] that returned. *)
Inductive evolves : BaseModel.t E -> BaseModel.t E -> Prop :=
| evolves_refl self : evolves self self
| evolves_label_encoder self self' v :
    evolves self self' -> evolves self (set_label_encoder v self')
| evolves_load_marker self self' v :
    evolves self self' -> evolves self (set_load_from_file v self')
| evolves_require_lm self self' :
    evolves self self' -> evolves self (set_require_lm true self')
| evolves_build self self' n td tr :
    evolves self self' ->
    evolves self (state_after (_build_model self' n td tr))
| evolves_trained self self' self'' n td tr :
    evolves self self' ->
    _build_model self' n td tr = Returns self'' () ->
    evolves self (set_is_trained true self'').

(* a graph compiled while require_lm is off has the language-model head
   only as far as the training loss needs it *)
Definition lm_head_as_trained (g : Graph) : Prop :=
  g_compile_lm g = g_train g && Qlt_bool 0 (g_lm_loss_coef g).

(* the language-model head is kept from [self] to [self'] *)
Definition lm_kept (self self' : BaseModel.t E) : Prop :=
  require_lm self' = true
  /\ exists new, graphs self' = new ++ graphs self
                 /\ Forall (fun g => g_compile_lm g = true) new.

(** ** The validation checks with the saves that they make *)

Section ValidationLoop.

Context {F : Type} {PF : PyFloat F}.

(* lines 187-188 *)
Definition checks_start (cfg : Config.t) : CheckState F :=
  {| cs_best_val_loss := f_inf;
     cs_val_window := replicate (Z.to_nat (Config.val_window_size cfg)) f_inf;
     cs_n_checks := 0;
     cs_save_calls := [] |}.

(* lines 237-243 at the validation checks of a run, one after the other:
   [totals] are the values of [sum_val_loss] at the checks.  The call
   [self.save(self.config.autosave_path)] changes the object and the
   files; when it raises, the loop, and with it [_training_loop], ends
   with that error. *)
Fixpoint validation_loop (cfg : Config.t) (self : BaseModel.t E)
    (fs : gmap string (FileNode E)) (st : CheckState F) (totals : list F)
  : outcome E (CheckState F) * gmap string (FileNode E) :=
  match totals with
  | [] => (Returns self st, fs)
  | sum_val_loss :: rest =>
      let val_window := drop 1 (cs_val_window st ++ [sum_val_loss]) in
      let k := S (cs_n_checks st) in
      if f_le (f_mean val_window) (cs_best_val_loss st) then
        let best_val_loss := f_mean val_window in
        if Config.save_best_model cfg then
          match save self (Config.autosave_path cfg) fs with
          | (Returns self _, fs) =>
              validation_loop cfg self fs
                {| cs_best_val_loss := best_val_loss;
                   cs_val_window := val_window;
                   cs_n_checks := k;
                   cs_save_calls := cs_save_calls st ++ [k] |} rest
          | (Raises self e, fs) => (Raises self e, fs)
          end
        else
          validation_loop cfg self fs
            {| cs_best_val_loss := best_val_loss;
               cs_val_window := val_window;
               cs_n_checks := k;
               cs_save_calls := cs_save_calls st |} rest
      else
        validation_loop cfg self fs
          {| cs_best_val_loss := cs_best_val_loss st;
             cs_val_window := val_window;
             cs_n_checks := k;
             cs_save_calls := cs_save_calls st |} rest
  end.

(* the locals after one more check, the save apart *)
Definition check_locals (save_best_model : bool) (st : CheckState F)
    (sum_val_loss : F) : CheckState F :=
  let val_window := drop 1 (cs_val_window st ++ [sum_val_loss]) in
  let k := S (cs_n_checks st) in
  if f_le (f_mean val_window) (cs_best_val_loss st) then
    {| cs_best_val_loss := f_mean val_window;
       cs_val_window := val_window;
       cs_n_checks := k;
       cs_save_calls :=
         if save_best_model then cs_save_calls st ++ [k]
         else cs_save_calls st |}
  else
    {| cs_best_val_loss := cs_best_val_loss st;
       cs_val_window := val_window;
       cs_n_checks := k;
       cs_save_calls := cs_save_calls st |}.

(** ** The rolling window over any floats *)

(* the window after check [k] (counted from 1): the last W entries of W
   infinities followed by v1..vk *)
Definition window_at (W : nat) (vs : list F) (k : nat) : list F :=
  drop k (replicate W f_inf ++ take k vs).

Definition mean_at (W : nat) (vs : list F) (k : nat) : F :=
  f_mean (window_at W vs k).

(* the W-length contiguous windows of v1..vn, and their means *)
Definition contiguous_windows (W : nat) (vs : list F) : list (list F) :=
  (fun i => take W (drop i vs)) <$> seq 0 (length vs + 1 - W).

Definition contiguous_means (W : nat) (vs : list F) : list F :=
  f_mean <$> contiguous_windows W vs.

Definition least_in (x : F) (l : list F) : Prop :=
  x ∈ l /\ forall y, y ∈ l -> f_le x y = true.

(* the mean at check [k] is less than or equal to the mean at every
   earlier check *)
Definition not_above_earlier (W : nat) (vs : list F) (k : nat) : Prop :=
  forall j, (1 <= j < k)%nat ->
            f_le (mean_at W vs k) (mean_at W vs j) = true.

End ValidationLoop.

(* what a [save] of [self] to [path] that returned leaves on disk *)
Definition checkpoint_at (path : string) (self : BaseModel.t E)
    (fs : gmap string (FileNode E)) : Prop :=
  fs !! abspath path = Some Directory
  /\ fs !! path_join (abspath path) SAVE_PREFIX = Some CheckpointFiles
  /\ fs !! path_join (abspath path) (SAVE_PREFIX +:+ ".pkl")
     = Some (PickleFile
               {| s_label_encoder := label_encoder self;
                  s_target_dim := BaseModel.target_dim self;
                  s_load_from_file := Some (abspath path);
                  s_config := config self |}).

(** * Properties *)

(** ** [_array_format] *)

Lemma np_fill_range_lookup {A} (row : list A) (start stop j : nat) (v : A) :
  np_fill_range row start stop v !! j
  = (fun x => if (start <=? j)%nat && (j <? stop)%nat then v else x) <$> row !! j.
Proof. unfold np_fill_range. apply list_lookup_imap. Qed.

Lemma np_fill_range_length {A} (row : list A) (start stop : nat) (v : A) :
  length (np_fill_range row start stop v) = length row.
Proof. unfold np_fill_range. apply length_imap. Qed.

Lemma array_format_row_mask M labels i toks x0 m lab :
  array_format_row M labels i toks = Ok (x0, m, lab) ->
  m = np_fill_range (replicate M 0%Q) 1 (length toks) 1%Q.
Proof.
  unfold array_format_row. intros Hrow.
  destruct (np_assign_prefix (replicate M 0) (length toks) (np_int32 <$> toks))
    as [a|e]; simpl in Hrow; [|discriminate].
  match type of Hrow with
  | mbind _ ?c = _ => destruct c as [l|e]; simpl in Hrow; [|discriminate]
  end.
  congruence.
Qed.

Lemma array_format_rows_lookup M labels token_ids :
  forall i0 rows i toks,
    array_format_rows M labels i0 token_ids = Ok rows ->
    token_ids !! i = Some toks ->
    exists r, rows !! i = Some r
              /\ array_format_row M labels (i0 + i) toks = Ok r.
Proof.
  induction token_ids as [|t rest IH]; intros i0 rows i toks Hrows Hi.
  - destruct i; discriminate.
  - simpl in Hrows.
    destruct (array_format_row M labels i0 t) as [r|e] eqn:Hr;
      simpl in Hrows; [|discriminate].
    destruct (array_format_rows M labels (S i0) rest) as [rs|e] eqn:Hrs;
      simpl in Hrows; [|discriminate].
    injection Hrows as <-.
    destruct i as [|i].
    + injection Hi as <-. exists r. split; [reflexivity|].
      rewrite Nat.add_0_r. exact Hr.
    + destruct (IH (S i0) rs i toks Hrs Hi) as (r' & Hl & Hrow).
      exists r'. split; [exact Hl|].
      replace (i0 + S i)%nat with (S i0 + i)%nat by lia. exact Hrow.
Qed.

(** C6.  In the array that [_array_format] returns, the mask row of an
    example of length L with 1 <= L <= max_length has max_length entries:
    0 at index 0, 1 at every index from 1 to L - 1, and 0 from L on. *)
Theorem array_format_mask (cfg : Config.t) (enc : TextEncoder.t)
    (encoded_output : EncodedOutput.t) (arr : ArrayEncodedOutput.t)
    (i : nat) (toks : list Z) :
  _array_format cfg enc encoded_output = Ok arr ->
  EncodedOutput.token_ids encoded_output !! i = Some toks ->
  (1 <= length toks <= Z.to_nat (Config.max_length cfg))%nat ->
  exists row : list Q,
    ArrayEncodedOutput.mask arr !! i = Some row
    /\ length row = Z.to_nat (Config.max_length cfg)
    /\ row !! 0%nat = Some 0%Q
    /\ (forall j, (1 <= j < length toks)%nat -> row !! j = Some 1%Q)
    /\ (forall j, (length toks <= j < Z.to_nat (Config.max_length cfg))%nat ->
                  row !! j = Some 0%Q).
Proof.
  intros Hfmt Hi HL. unfold _array_format in Hfmt.
  destruct (Config.max_length cfg <? 0); [discriminate|].
  set (M := Z.to_nat (Config.max_length cfg)) in *.
  destruct (array_format_rows M (EncodedOutput.labels encoded_output) 0
              (EncodedOutput.token_ids encoded_output)) as [rows|e] eqn:Hrows;
    simpl in Hfmt; [|discriminate].
  injection Hfmt as <-. simpl.
  destruct (array_format_rows_lookup _ _ _ _ _ _ _ Hrows Hi) as ([[x0 m] lab] & Hl & Hrow).
  apply array_format_row_mask in Hrow. subst m.
  exists (np_fill_range (replicate M 0%Q) 1 (length toks) 1%Q).
  split; [rewrite list_lookup_fmap, Hl; reflexivity|].
  split; [rewrite np_fill_range_length; apply length_replicate|].
  split; [|split].
  - rewrite np_fill_range_lookup, lookup_replicate_2 by lia. reflexivity.
  - intros j Hj. rewrite np_fill_range_lookup, lookup_replicate_2 by lia.
    rewrite (proj2 (Nat.leb_le 1 j)), (proj2 (Nat.ltb_lt j (length toks))) by lia.
    reflexivity.
  - intros j Hj. rewrite np_fill_range_lookup, lookup_replicate_2 by lia.
    rewrite (proj2 (Nat.ltb_ge j (length toks))), andb_false_r by lia.
    reflexivity.
Qed.

(* [_array_format] does return when the lengths fit and there are no labels *)
Lemma array_format_rows_returns M token_ids :
  Forall (fun toks : list Z => (length toks <= M)%nat) token_ids ->
  forall i0, exists rows, array_format_rows M None i0 token_ids = Ok rows.
Proof.
  induction 1 as [|toks rest Hlen _ IH]; intros i0; [eexists; reflexivity|].
  destruct (IH (S i0)) as [rs Hrs]. simpl. rewrite Hrs.
  unfold array_format_row, np_assign_prefix.
  rewrite length_replicate, Nat.min_l by exact Hlen.
  rewrite decide_True by apply length_fmap. simpl. eexists; reflexivity.
Qed.

Lemma array_format_returns (cfg : Config.t) (enc : TextEncoder.t)
    (encoded_output : EncodedOutput.t) :
  0 <= Config.max_length cfg ->
  EncodedOutput.labels encoded_output = None ->
  Forall (fun toks : list Z =>
            (length toks <= Z.to_nat (Config.max_length cfg))%nat)
    (EncodedOutput.token_ids encoded_output) ->
  exists arr, _array_format cfg enc encoded_output = Ok arr.
Proof.
  intros Hml Hlab Hlen. unfold _array_format.
  destruct (Z.ltb_spec (Config.max_length cfg) 0); [lia|].
  rewrite Hlab.
  destruct (array_format_rows_returns _ _ Hlen 0%nat) as [rows ->].
  simpl. eexists; reflexivity.
Qed.

(** ** [_load_base_model] *)

Lemma np_ones_like_lookup (a : ndarray) i row :
  nd_rows (np_ones_like a) !! i = Some row ->
  exists r, nd_rows a !! i = Some r /\ length row = length r
            /\ Forall (fun x => x = 1%Q) row.
Proof.
  unfold np_ones_like. simpl. rewrite list_lookup_fmap.
  destruct (nd_rows a !! i) as [r|]; [|discriminate]. intros [= <-].
  exists r. split; [reflexivity|]. split; [apply length_fmap|].
  apply Forall_forall. intros x Hx. apply list_elem_of_fmap in Hx.
  destruct Hx as (? & -> & _). reflexivity.
Qed.

Lemma np_zeros_like_lookup (a : ndarray) i row :
  nd_rows (np_zeros_like a) !! i = Some row ->
  exists r, nd_rows a !! i = Some r /\ length row = length r
            /\ Forall (fun x => x = 0%Q) row.
Proof.
  unfold np_zeros_like. simpl. rewrite list_lookup_fmap.
  destruct (nd_rows a !! i) as [r|]; [|discriminate]. intros [= <-].
  exists r. split; [reflexivity|]. split; [apply length_fmap|].
  apply Forall_forall. intros x Hx. apply list_elem_of_fmap in Hx.
  destruct Hx as (? & -> & _). reflexivity.
Qed.

Lemma np_ones_like_length (a : ndarray) :
  length (nd_rows (np_ones_like a)) = length (nd_rows a).
Proof. apply length_fmap. Qed.

Lemma np_zeros_like_length (a : ndarray) :
  length (nd_rows (np_zeros_like a)) = length (nd_rows a).
Proof. apply length_fmap. Qed.

(* three arrays of the same width concatenate *)
Lemma np_concatenate_three (a b c : ndarray) :
  nd_cols b = nd_cols a -> nd_cols c = nd_cols a ->
  np_concatenate [a; b; c]
  = Ok {| nd_rows := nd_rows a ++ nd_rows b ++ nd_rows c;
          nd_cols := nd_cols a |}.
Proof.
  intros Hb Hc. unfold np_concatenate. simpl.
  rewrite Hb, Hc, Nat.eqb_refl. simpl. rewrite app_nil_r. reflexivity.
Qed.

(* arrays of different widths do not *)
Lemma np_concatenate_mismatch (a b c : ndarray) :
  nd_cols b <> nd_cols a \/ nd_cols c <> nd_cols a ->
  np_concatenate [a; b; c] = Raise ValueError.
Proof.
  intros Hne. unfold np_concatenate. simpl.
  destruct (Nat.eqb_spec (nd_cols b) (nd_cols a)) as [Hb|Hb];
    [|reflexivity].
  destruct (Nat.eqb_spec (nd_cols c) (nd_cols a)) as [Hc|Hc];
    [|reflexivity].
  destruct Hne; contradiction.
Qed.

(* what [_load_base_model] does once the length check is passed *)
Lemma load_base_model_checked (cfg : Config.t) (pos tok : ndarray)
    (rest : list ndarray) :
  stored_params = pos :: tok :: rest ->
  Config.interpolate_pos_embed cfg = true \/ Config.max_length cfg <= 512 ->
  _load_base_model cfg
  = (reg_mask ←
       np_concatenate
         [np_ones_like tok; np_zeros_like (special_embed cfg);
          np_ones_like (adjusted_pos_embed cfg pos)];
     first ← np_concatenate [tok; special_embed cfg; adjusted_pos_embed cfg pos];
     Ok {| init_params := first :: rest;
           reg_masks :=
             MaskArray reg_mask :: replicate (length rest) (MaskScalar 1) |}).
Proof.
  intros Hstored Hcfg. unfold _load_base_model, adjusted_pos_embed.
  rewrite Hstored.
  destruct (Config.interpolate_pos_embed cfg) eqn:Hint.
  - simpl. rewrite Nat.sub_0_r. reflexivity.
  - destruct Hcfg as [?|Hml]; [discriminate|].
    destruct (Z.ltb_spec 512 (Config.max_length cfg)); [lia|].
    simpl. rewrite Nat.sub_0_r. reflexivity.
Qed.

Lemma load_base_model_returns (cfg : Config.t) (pos tok : ndarray)
    (rest : list ndarray) :
  stored_params = pos :: tok :: rest ->
  Config.interpolate_pos_embed cfg = true \/ Config.max_length cfg <= 512 ->
  nd_cols tok = Config.n_embed cfg ->
  nd_cols (adjusted_pos_embed cfg pos) = Config.n_embed cfg ->
  _load_base_model cfg
  = Ok {| init_params :=
            {| nd_rows := nd_rows tok ++ nd_rows (special_embed cfg)
                          ++ nd_rows (adjusted_pos_embed cfg pos);
               nd_cols := nd_cols tok |} :: rest;
          reg_masks :=
            MaskArray
              {| nd_rows :=
                   nd_rows (np_ones_like tok)
                   ++ nd_rows (np_zeros_like (special_embed cfg))
                   ++ nd_rows (np_ones_like (adjusted_pos_embed cfg pos));
                 nd_cols := nd_cols tok |}
            :: replicate (length rest) (MaskScalar 1) |}.
Proof.
  intros Hstored Hcfg Htok Hpos.
  rewrite (load_base_model_checked cfg pos tok rest Hstored Hcfg).
  rewrite !np_concatenate_three by (simpl; congruence). reflexivity.
Qed.

(* the tables must be as wide as the special-token embeddings *)
Lemma load_base_model_width (cfg : Config.t) (pos tok : ndarray)
    (rest : list ndarray) :
  stored_params = pos :: tok :: rest ->
  Config.interpolate_pos_embed cfg = true \/ Config.max_length cfg <= 512 ->
  nd_cols tok <> Config.n_embed cfg
  \/ nd_cols (adjusted_pos_embed cfg pos) <> Config.n_embed cfg ->
  _load_base_model cfg = Raise ValueError.
Proof.
  intros Hstored Hcfg Hne.
  rewrite (load_base_model_checked cfg pos tok rest Hstored Hcfg).
  rewrite (np_concatenate_mismatch (np_ones_like tok)); [reflexivity|].
  simpl.
  destruct (decide (nd_cols tok = Config.n_embed cfg)) as [Htok|Htok].
  - right. destruct Hne as [Hne|Hne]; [contradiction|]. congruence.
  - left. congruence.
Qed.

Lemma py_slice_to_negative {A} (l : list A) (k : Z) :
  k < 0 -> py_slice_to l k = take (length l - Z.to_nat (- k)) l.
Proof.
  intros Hk. unfold py_slice_to.
  destruct (Z.ltb_spec k 0); [|lia]. f_equal. lia.
Qed.

(** C2.  When the stored parameters start with the positional table and
    the token table, the configuration passes the length check
    (interpolation is on, or max_length <= 512), and the token table and
    the positional table that goes in (interpolated, or cut by the slice
    [:max_length]) have n_embed columns, as the special-token embeddings
    have, [_load_base_model] returns: the first parameter is the token
    table, then the special-token embeddings, then that positional table;
    the first mask has as many rows as that parameter, row by row of the
    same width, all 0 on the special-token rows and all 1 on the token and
    positional rows; every other mask entry is 1.0.  Without interpolation
    the positional table that goes in is the first max_length rows of the
    stored one when 0 <= max_length, and the stored one without its last
    -max_length rows when max_length is negative. *)
Theorem load_base_model_first_parameter (cfg : Config.t) (pos tok : ndarray)
    (rest : list ndarray) :
  stored_params = pos :: tok :: rest ->
  Config.interpolate_pos_embed cfg = true \/ Config.max_length cfg <= 512 ->
  nd_cols tok = Config.n_embed cfg ->
  nd_cols (adjusted_pos_embed cfg pos) = Config.n_embed cfg ->
  exists (w : PretrainedWeights) (first : ndarray) (reg_mask : ndarray),
    _load_base_model cfg = Ok w
    /\ init_params w = first :: rest
    /\ nd_rows first
       = nd_rows tok ++ nd_rows (special_embed cfg)
         ++ nd_rows (adjusted_pos_embed cfg pos)
    /\ reg_masks w = MaskArray reg_mask :: replicate (length rest) (MaskScalar 1)
    /\ length (nd_rows reg_mask) = length (nd_rows first)
    /\ (forall i mask_row,
         nd_rows reg_mask !! i = Some mask_row ->
         exists row,
           nd_rows first !! i = Some row
           /\ length mask_row = length row
           /\ if bool_decide
                   (length (nd_rows tok) <= i
                    < length (nd_rows tok)
                      + length (nd_rows (special_embed cfg)))%nat
              then Forall (fun x => x = 0%Q) mask_row
              else Forall (fun x => x = 1%Q) mask_row)
    /\ (Config.interpolate_pos_embed cfg = false ->
        (0 <= Config.max_length cfg ->
         nd_rows (adjusted_pos_embed cfg pos)
         = take (Z.to_nat (Config.max_length cfg)) (nd_rows pos))
        /\ (Config.max_length cfg < 0 ->
            nd_rows (adjusted_pos_embed cfg pos)
            = take (length (nd_rows pos) - Z.to_nat (- Config.max_length cfg))
                (nd_rows pos))).
Proof.
  intros Hstored Hcfg Htok Hpos.
  eexists _, _, _.
  split; [apply (load_base_model_returns cfg pos tok rest Hstored Hcfg Htok Hpos)|].
  cbn [init_params reg_masks nd_rows].
  split; [reflexivity|]. split; [reflexivity|]. split; [reflexivity|].
  split; [|split]; cbn [nd_rows].
  - rewrite !length_app, !np_ones_like_length, np_zeros_like_length. reflexivity.
  - intros i mask_row Hi.
    apply lookup_app_Some in Hi as [Hi|[Hge Hi]].
    + apply np_ones_like_lookup in Hi as (r & Hr & Hlen & Hones).
      exists r. split; [apply lookup_app_l_Some; exact Hr|]. split; [exact Hlen|].
      apply lookup_lt_Some in Hr. rewrite bool_decide_false by lia. exact Hones.
    + rewrite np_ones_like_length in Hge, Hi.
      apply lookup_app_Some in Hi as [Hi|[Hge' Hi]].
      * apply np_zeros_like_lookup in Hi as (r & Hr & Hlen & Hzeros).
        exists r. split.
        { rewrite lookup_app_r by exact Hge. apply lookup_app_l_Some. exact Hr. }
        split; [exact Hlen|].
        apply lookup_lt_Some in Hr. rewrite bool_decide_true by lia. exact Hzeros.
      * rewrite np_zeros_like_length in Hge', Hi.
        apply np_ones_like_lookup in Hi as (r & Hr & Hlen & Hones).
        exists r. split.
        { rewrite lookup_app_r by exact Hge. rewrite lookup_app_r by exact Hge'.
          exact Hr. }
        split; [exact Hlen|].
        rewrite bool_decide_false by lia. exact Hones.
  - intros Hint. unfold adjusted_pos_embed. rewrite Hint. simpl.
    split; intros Hml.
    + unfold py_slice_to.
      destruct (Z.ltb_spec (Config.max_length cfg) 0); [lia|]. reflexivity.
    + apply py_slice_to_negative. exact Hml.
Qed.

Lemma py_slice_to_take {A} (l : list A) (k : Z) :
  0 <= k -> py_slice_to l k = take (Z.to_nat k) l.
Proof.
  intros Hk. unfold py_slice_to.
  destruct (Z.ltb_spec k 0); [lia|reflexivity].
Qed.


(** ** The validation window *)

Lemma fle_trans x y z : fle x y = true -> fle y z = true -> fle x z = true.
Proof.
  destruct x as [a| |], y as [b| |], z as [c| |]; simpl; try congruence.
  rewrite !Qle_bool_iff. apply Qle_trans.
Qed.

Lemma fle_total x y : x <> NaN -> y <> NaN -> fle x y = false -> fle y x = true.
Proof.
  destruct x as [a| |], y as [b| |]; simpl; try congruence.
  intros _ _ Hab. apply Qle_bool_iff.
  destruct (Qle_bool a b) eqn:Hle; [discriminate|].
  apply Qlt_le_weak, Qnot_le_lt. intros Hc.
  apply Qle_bool_iff in Hc. congruence.
Qed.

Lemma fle_PInf x : x <> NaN -> fle x PInf = true.
Proof. destruct x; simpl; congruence. Qed.

Lemma fle_PInf_inv x : fle PInf x = true -> x = PInf.
Proof. destruct x; simpl; congruence. Qed.

Lemma sum_not_NaN (l : list fval) :
  Forall (fun x => x <> NaN) l -> foldr fadd (Fin 0) l <> NaN.
Proof.
  induction 1 as [|x l Hx _ IH]; simpl; [discriminate|].
  destruct x, (foldr fadd (Fin 0) l); simpl; congruence.
Qed.

Lemma sum_PInf (l : list fval) :
  Forall (fun x => x <> NaN) l -> PInf ∈ l -> foldr fadd (Fin 0) l = PInf.
Proof.
  induction 1 as [|x l Hx Hl IH]; intros Hin.
  - apply elem_of_nil in Hin. contradiction.
  - simpl. apply elem_of_cons in Hin as [<-|Hin].
    + pose proof (sum_not_NaN l Hl).
      destruct (foldr fadd (Fin 0) l); simpl; congruence.
    + rewrite (IH Hin). destruct x; simpl; congruence.
Qed.

Lemma sum_Fin (l : list Q) :
  exists q, foldr fadd (Fin 0) (Fin <$> l) = Fin q.
Proof.
  induction l as [|a l [q IH]]; [exists 0%Q; reflexivity|].
  exists (a + q)%Q. rewrite fmap_cons. cbn [foldr]. rewrite IH. reflexivity.
Qed.

Lemma np_mean_not_NaN (l : list fval) :
  l <> [] -> Forall (fun x => x <> NaN) l -> np_mean l <> NaN.
Proof.
  intros Hne Hl. destruct l as [|x l]; [congruence|].
  unfold np_mean. pose proof (sum_not_NaN _ Hl).
  destruct (foldr fadd (Fin 0) (x :: l)); simpl; congruence.
Qed.

Lemma np_mean_PInf (l : list fval) :
  Forall (fun x => x <> NaN) l -> PInf ∈ l -> np_mean l = PInf.
Proof.
  intros Hl Hin. destruct l as [|x l].
  - apply elem_of_nil in Hin. contradiction.
  - unfold np_mean. rewrite (sum_PInf _ Hl Hin). reflexivity.
Qed.

Lemma np_mean_Fin (l : list Q) :
  l <> [] -> exists q, np_mean (Fin <$> l) = Fin q.
Proof.
  intros Hne. destruct l as [|a l]; [congruence|].
  destruct (sum_Fin (a :: l)) as [q Hq].
  unfold np_mean. rewrite fmap_cons in *. rewrite Hq. eexists; reflexivity.
Qed.

Lemma window_after_not_NaN W vs k :
  Forall (fun x => x <> NaN) (window_after W vs k).
Proof.
  unfold window_after. apply Forall_drop, Forall_app. split.
  - apply Forall_replicate. discriminate.
  - apply Forall_fmap, Forall_forall. intros; discriminate.
Qed.

Lemma window_after_length W vs k :
  (k <= length vs)%nat -> length (window_after W vs k) = W.
Proof.
  intros Hk. unfold window_after.
  rewrite length_drop, length_app, length_replicate, length_fmap, length_take.
  lia.
Qed.

Lemma mean_after_not_NaN W vs k :
  (1 <= W)%nat -> (k <= length vs)%nat -> mean_after W vs k <> NaN.
Proof.
  intros HW Hk. apply np_mean_not_NaN; [|apply window_after_not_NaN].
  intros Hnil. pose proof (window_after_length W vs k Hk) as Hlen.
  rewrite Hnil in Hlen. simpl in Hlen. lia.
Qed.

(* before the window is full it holds an infinity *)
Lemma mean_after_early W vs k :
  (k < W)%nat -> mean_after W vs k = PInf.
Proof.
  intros Hk. apply np_mean_PInf; [apply window_after_not_NaN|].
  unfold window_after. rewrite drop_app_le by (rewrite length_replicate; lia).
  rewrite drop_replicate. apply elem_of_app. left.
  apply elem_of_replicate. split; [reflexivity|lia].
Qed.

(* from check W on it is a window of the sequence *)
Lemma window_after_full W vs k :
  (W <= k <= length vs)%nat ->
  window_after W vs k = Fin <$> take W (drop (k - W) vs).
Proof.
  intros Hk. unfold window_after.
  rewrite drop_app_ge by (rewrite length_replicate; lia).
  rewrite length_replicate, <- fmap_drop. f_equal.
  rewrite take_drop_commute. f_equal. f_equal. lia.
Qed.

Lemma val_check_window cfg st c :
  val_window (val_check cfg st c)
  = drop 1 (val_window st ++ [Fin (sum_val_loss c)]).
Proof. unfold val_check. destruct (fle _ _); reflexivity. Qed.

Lemma val_check_n_checks cfg st c :
  n_checks (val_check cfg st c) = S (n_checks st).
Proof. unfold val_check. destruct (fle _ _); reflexivity. Qed.

Lemma val_check_best cfg st c :
  best_val_loss (val_check cfg st c)
  = if fle (np_mean (val_window (val_check cfg st c))) (best_val_loss st)
    then np_mean (val_window (val_check cfg st c))
    else best_val_loss st.
Proof.
  rewrite val_check_window. unfold val_check.
  destruct (fle _ _); reflexivity.
Qed.

Lemma val_check_save_calls cfg st c :
  save_calls (val_check cfg st c)
  = if fle (np_mean (val_window (val_check cfg st c))) (best_val_loss st)
       && Config.save_best_model cfg
    then save_calls st ++ [S (n_checks st)]
    else save_calls st.
Proof.
  rewrite val_check_window. unfold val_check.
  destruct (fle _ _), (Config.save_best_model cfg); reflexivity.
Qed.

Lemma validation_checks_step cfg (checks : list (list Q)) k :
  (k < length checks)%nat ->
  exists c,
    checks !! k = Some c
    /\ validation_checks cfg (take (S k) checks)
       = val_check cfg (validation_checks cfg (take k checks)) c.
Proof.
  intros Hk. destruct (lookup_lt_is_Some_2 checks k Hk) as [c Hc].
  exists c. split; [exact Hc|].
  unfold validation_checks. rewrite (take_S_r _ _ _ Hc). apply foldl_snoc.
Qed.

(* the window and the counter after the first [k] checks *)
Lemma validation_checks_window cfg (checks : list (list Q)) k :
  (k <= length checks)%nat ->
  val_window (validation_checks cfg (take k checks))
  = window_after (Z.to_nat (Config.val_window_size cfg))
      (sum_val_loss <$> checks) k
  /\ n_checks (validation_checks cfg (take k checks)) = k.
Proof.
  set (W := Z.to_nat (Config.val_window_size cfg)).
  induction k as [|k IH]; intros Hk.
  - unfold window_after. simpl. rewrite app_nil_r. split; reflexivity.
  - destruct IH as [IHw IHn]; [lia|].
    destruct (validation_checks_step cfg checks k) as (c & Hc & ->); [lia|].
    rewrite val_check_window, val_check_n_checks, IHw, IHn.
    split; [|reflexivity].
    unfold window_after.
    rewrite (take_S_r (sum_val_loss <$> checks) k (sum_val_loss c))
      by (rewrite list_lookup_fmap, Hc; reflexivity).
    rewrite fmap_app, app_assoc.
    rewrite <- (drop_app_le _ [Fin (sum_val_loss c)] k)
      by (rewrite length_app, length_replicate, length_fmap, length_take,
            length_fmap; lia).
    rewrite drop_drop, Nat.add_1_r. reflexivity.
Qed.

(* the best value and the save calls after the first [k] checks *)
Lemma validation_checks_best cfg (checks : list (list Q)) k :
  (1 <= Z.to_nat (Config.val_window_size cfg))%nat ->
  (k <= length checks)%nat ->
  let W := Z.to_nat (Config.val_window_size cfg) in
  let vs := sum_val_loss <$> checks in
  let st := validation_checks cfg (take k checks) in
  best_val_loss st <> NaN
  /\ (forall j, (1 <= j <= k)%nat ->
                fle (best_val_loss st) (mean_after W vs j) = true)
  /\ ((k = 0%nat /\ best_val_loss st = PInf)
      \/ exists j, (1 <= j <= k)%nat /\ best_val_loss st = mean_after W vs j)
  /\ (forall i, i ∈ save_calls st
                <-> Config.save_best_model cfg = true
                    /\ (1 <= i <= k)%nat /\ no_worse_than_before W vs i).
Proof.
  intros HW. cbv zeta.
  set (W := Z.to_nat (Config.val_window_size cfg)) in *.
  set (vs := sum_val_loss <$> checks).
  assert (Hlen : length vs = length checks) by apply length_fmap.
  induction k as [|k IH]; intros Hk.
  - simpl. split; [discriminate|]. split; [intros; lia|].
    split; [left; split; reflexivity|].
    intros i. split.
    + intros Hin. apply elem_of_nil in Hin. contradiction.
    + intros (_ & ? & _). lia.
  - destruct IH as (IHnan & IHlow & IHmem & IHsave); [lia|].
    destruct (validation_checks_window cfg checks k) as [_ Hn]; [lia|].
    destruct (validation_checks_window cfg checks (S k)) as [Hw' _]; [lia|].
    destruct (validation_checks_step cfg checks k) as (c & Hc & Hstep); [lia|].
    rewrite Hstep in Hw' |- *.
    set (st := validation_checks cfg (take k checks)) in *.
    rewrite val_check_best, val_check_save_calls, Hw', Hn.
    fold W vs (mean_after W vs (S k)).
    assert (Hm : mean_after W vs (S k) <> NaN)
      by (apply mean_after_not_NaN; lia).
    (* the check is accepted exactly when it is no worse than all before *)
    assert (Hacc : fle (mean_after W vs (S k)) (best_val_loss st) = true
                   <-> no_worse_than_before W vs (S k)).
    { split.
      - intros Hle j Hj. apply (fle_trans _ _ _ Hle). apply IHlow. lia.
      - intros Hall. destruct IHmem as [[_ Hb]|(j & Hj & Hb)]; rewrite Hb.
        + apply fle_PInf, Hm.
        + apply Hall. lia. }
    destruct (fle (mean_after W vs (S k)) (best_val_loss st)) eqn:Hle.
    + split; [exact Hm|]. split; [|split].
      * intros j Hj. destruct (decide (j = S k)) as [->|Hne].
        { destruct (mean_after W vs (S k)) as [q| |]; simpl;
            [apply Qle_bool_iff, Qle_refl|reflexivity|congruence]. }
        { apply (fle_trans _ _ _ Hle). apply IHlow. lia. }
      * right. exists (S k). split; [lia|reflexivity].
      * intros i. simpl. destruct (Config.save_best_model cfg) eqn:Hflag.
        { rewrite elem_of_app, list_elem_of_singleton, IHsave. split.
          - intros [(_ & Hi & Hno)| -> ].
            + split; [reflexivity|]. split; [lia|exact Hno].
            + split; [reflexivity|]. split; [lia|]. apply Hacc. reflexivity.
          - intros (_ & Hi & Hno).
            destruct (decide (i = S k)) as [->|Hne]; [right; reflexivity|].
            left. split; [reflexivity|]. split; [lia|exact Hno]. }
        { rewrite IHsave. split; intros (Hf & _); discriminate. }
    + split; [exact IHnan|]. split; [|split].
      * intros j Hj. destruct (decide (j = S k)) as [->|Hne].
        { apply fle_total; [exact Hm|exact IHnan|exact Hle]. }
        { apply IHlow. lia. }
      * destruct IHmem as [[_ Hb]|(j & Hj & Hb)].
        { exfalso. rewrite Hb, fle_PInf in Hle by exact Hm. discriminate. }
        { right. exists j. split; [lia|exact Hb]. }
      * intros i. simpl. rewrite IHsave. split.
        { intros (Hf & Hi & Hno). split; [exact Hf|]. split; [lia|exact Hno]. }
        { intros (Hf & Hi & Hno). split; [exact Hf|].
          destruct (decide (i = S k)) as [->|Hne].
          - exfalso. apply Hacc in Hno. discriminate.
          - split; [lia|exact Hno]. }
Qed.

(* the best value and the save calls at the end of the checks *)
Lemma validation_checks_minimum (cfg : Config.t) (checks : list (list Q)) :
  let W := Z.to_nat (Config.val_window_size cfg) in
  let vs := sum_val_loss <$> checks in
  let st := validation_checks cfg checks in
  (1 <= W)%nat ->
  (W <= length vs)%nat ->
  is_minimum (best_val_loss st) (window_means W vs)
  /\ forall k, k ∈ save_calls st
               <-> Config.save_best_model cfg = true
                   /\ (1 <= k <= length vs)%nat
                   /\ no_worse_than_before W vs k.
Proof.
  cbv zeta. intros HW Hn.
  set (W := Z.to_nat (Config.val_window_size cfg)) in *.
  set (vs := sum_val_loss <$> checks) in *.
  assert (Hlen : length vs = length checks) by apply length_fmap.
  destruct (validation_checks_best cfg checks (length checks) HW)
    as (_ & Hlow & Hmem & Hsave); [lia|].
  rewrite take_ge in Hlow, Hmem, Hsave by lia.
  fold W vs in Hlow, Hmem, Hsave.
  set (st := validation_checks cfg checks) in *.
  assert (Hfull : forall i, (i < length vs + 1 - W)%nat ->
            np_mean (Fin <$> take W (drop i vs)) = mean_after W vs (i + W)).
  { intros i Hi. unfold mean_after. rewrite window_after_full by lia.
    do 4 f_equal. lia. }
  split; [split|].
  - destruct Hmem as [[Hz _]|(j & Hj & Hb)]; [lia|].
    destruct (decide (j < W)%nat) as [Hearly|Hfulln].
    + exfalso. rewrite (mean_after_early W vs j Hearly) in Hb.
      specialize (Hlow (length vs)). rewrite Hb in Hlow.
      apply fle_PInf_inv in Hlow; [|lia].
      unfold mean_after in Hlow. rewrite window_after_full in Hlow by lia.
      destruct (np_mean_Fin (take W (drop (length vs - W) vs))) as [q Hq].
      { intros Hnil. apply (f_equal length) in Hnil.
        rewrite length_take, length_drop in Hnil. simpl in Hnil. lia. }
      congruence.
    + rewrite Hb. unfold window_means, windows.
      rewrite <- list_fmap_compose.
      apply list_elem_of_fmap. exists (j - W)%nat. split.
      * simpl. rewrite Hfull by lia. f_equal. lia.
      * apply elem_of_seq. lia.
  - intros y Hy. unfold window_means, windows in Hy.
    rewrite <- list_fmap_compose in Hy.
    apply list_elem_of_fmap in Hy as (i & -> & Hi).
    apply elem_of_seq in Hi. simpl. rewrite Hfull by lia.
    apply Hlow. lia.
  - intros k. rewrite Hsave, Hlen. reflexivity.
Qed.

(* the first checks *)
Lemma validation_checks_first (cfg : Config.t)
    (checks : list (list Q)) :
  let W := Z.to_nat (Config.val_window_size cfg) in
  (1 <= W)%nat ->
  val_window (loop_start cfg) = replicate W PInf
  /\ best_val_loss (loop_start cfg) = PInf
  /\ (forall k, (1 <= k <= W - 1)%nat -> (k <= length checks)%nat ->
        np_mean (val_window (validation_checks cfg (take k checks))) = PInf)
  /\ forall c rest, checks = c :: rest ->
       let st1 := validation_checks cfg [c] in
       fle (np_mean (val_window st1)) (best_val_loss (loop_start cfg)) = true
       /\ best_val_loss st1 = np_mean (val_window st1)
       /\ ((2 <= W)%nat -> np_mean (val_window st1) = PInf)
       /\ (Config.save_best_model cfg = true -> save_calls st1 = [1%nat]).
Proof.
  cbv zeta. intros HW.
  set (W := Z.to_nat (Config.val_window_size cfg)) in *.
  split; [reflexivity|]. split; [reflexivity|]. split.
  - intros k Hk Hlen.
    destruct (validation_checks_window cfg checks k Hlen) as [-> _].
    apply mean_after_early. fold W. lia.
  - intros c rest _.
    destruct (validation_checks_window cfg [c] 1) as [Hw _]; [simpl; lia|].
    change (take 1 [c]) with [c] in Hw. fold W in Hw.
    assert (Hm : np_mean (val_window (validation_checks cfg [c])) <> NaN).
    { rewrite Hw. apply mean_after_not_NaN; simpl; lia. }
    assert (Hacc : fle (np_mean (val_window (validation_checks cfg [c])))
                     (best_val_loss (loop_start cfg)) = true)
      by (apply fle_PInf, Hm).
    split; [exact Hacc|].
    change (validation_checks cfg [c]) with (val_check cfg (loop_start cfg) c)
      in *.
    split; [|split].
    + rewrite val_check_best, Hacc. reflexivity.
    + intros HW2. rewrite Hw. apply mean_after_early. lia.
    + intros Hflag. rewrite val_check_save_calls, Hacc, Hflag. reflexivity.
Qed.

(* the loop over the global steps makes the validation checks of the steps
   whose number is a multiple of val_interval, and only a zero val_interval
   stops it *)
Lemma training_steps_checks (cfg : Config.t) (steps : list StepCosts) :
  Config.val_interval cfg <> 0 ->
  forall st, exists st',
    training_steps cfg st steps = Ok st'
    /\ validation st'
       = foldl (val_check cfg) (validation st)
           (checks_from (Config.val_interval cfg) (global_step st) steps)
    /\ global_step st' = global_step st + Z.of_nat (length steps).
Proof.
  intros Hvi. induction steps as [|costs rest IH]; intros st.
  - exists st. split; [reflexivity|]. split; [reflexivity|]. simpl. lia.
  - cbn [training_steps checks_from]. unfold training_step.
    destruct (Z.eqb_spec (Config.val_interval cfg) 0) as [|_]; [contradiction|].
    cbn [mbind result_bind].
    match goal with
    | |- context [training_steps cfg ?st1 rest] =>
        destruct (IH st1) as (st' & Hrun & Hval & Hstep)
    end.
    exists st'. split; [exact Hrun|]. cbn [global_step validation] in Hval, Hstep.
    split; [|rewrite Hstep; cbn [length]; lia].
    rewrite Hval.
    destruct ((global_step st + 1) mod Config.val_interval cfg =? 0);
      reflexivity.
Qed.

Lemma training_steps_from_start (cfg : Config.t) (steps : list StepCosts) :
  Config.val_interval cfg <> 0 ->
  exists st,
    training_steps cfg (training_start cfg) steps = Ok st
    /\ validation st = validation_checks cfg (checks_of cfg steps).
Proof.
  intros Hvi.
  destruct (training_steps_checks cfg steps Hvi (training_start cfg))
    as (st & Hrun & Hval & _).
  exists st. split; [exact Hrun|]. unfold checks_of.
  destruct (Z.eqb_spec (Config.val_interval cfg) 0); [contradiction|].
  exact Hval.
Qed.

Lemma checks_of_nonempty (cfg : Config.t) (steps : list StepCosts) :
  (1 <= length (checks_of cfg steps))%nat -> Config.val_interval cfg <> 0.
Proof.
  unfold checks_of. intros Hlen Hvi. rewrite Hvi in Hlen. simpl in Hlen. lia.
Qed.

(* a window of size 0 stays empty, its mean is nan, and no check is ever
   accepted *)
Lemma empty_window_never_accepts (cfg : Config.t) (checks : list (list Q)) :
  Z.to_nat (Config.val_window_size cfg) = 0%nat ->
  val_window (validation_checks cfg checks) = []
  /\ best_val_loss (validation_checks cfg checks) = PInf
  /\ save_calls (validation_checks cfg checks) = [].
Proof.
  intros HW. unfold validation_checks.
  induction checks as [|c checks IH] using rev_ind.
  - unfold loop_start. rewrite HW. repeat split; reflexivity.
  - rewrite foldl_snoc. destruct IH as (Hw & Hb & Hs).
    rewrite val_check_best, val_check_save_calls, val_check_window, Hw, Hb, Hs.
    repeat split; reflexivity.
Qed.

(** ** [_build_model] *)

Lemma compiled_graph_well_built (self : BaseModel.t E) n td tr :
  well_built (compiled_graph self n td tr).
Proof.
  unfold well_built, compiled_graph. simpl. split; [reflexivity|]. split.
  - intros ->. reflexivity.
  - intros -> ->. reflexivity.
Qed.

Lemma build_model_raises (self : BaseModel.t E) n td tr e :
  _load_base_model (config self) = Raise e ->
  _build_model self n td tr = Raises self e.
Proof. intros Hload. unfold _build_model. rewrite Hload. reflexivity. Qed.

(* the object that a successful [_build_model] leaves *)
Lemma build_model_returns (self : BaseModel.t E) n td tr w :
  _load_base_model (config self) = Ok w ->
  exists self',
    _build_model self n td tr = Returns self' ()
    /\ config self' = config self
    /\ label_encoder self' = label_encoder self
    /\ require_lm self' = require_lm self
    /\ BaseModel.target_dim self' = td
    /\ _load_from_file self' = None
    /\ is_trained self'
       = (is_trained self || bool_decide (_load_from_file self <> None))
    /\ (if needs_graph self td tr
        then graphs self' = compiled_graph self n td tr :: graphs self
             /\ BaseModel.train self' = Some tr
             /\ (g_compile_lm (compiled_graph self n td tr) = true ->
                 lm_predict_op self' = true)
        else graphs self' = graphs self
             /\ BaseModel.train self' = BaseModel.train self
             /\ lm_predict_op self' = lm_predict_op self)
    /\ weights self'
       = match _load_from_file self with
         | Some path =>
             Restored path (bool_decide (BaseModel.target_dim self <> None))
             :: weights self
         | None =>
             if is_trained self then weights self
             else InitFromPretrained :: weights self
         end.
Proof.
  intros Hload. unfold _build_model. rewrite Hload.
  eexists. split; [reflexivity|].
  remember (needs_graph self td tr) as rebuild eqn:Hrebuild.
  remember (compiled_graph self n td tr) as g eqn:Hg.
  unfold _initialize_session, _load_finetuned_model, _init_from_pretrained,
    _construct_graph. rewrite <- Hg. clear Hrebuild Hg Hload.
  destruct self as [cfg le tdim [path|] lpo [|] ib [|] rl trn gs ws];
    destruct rebuild; simpl; repeat split; try reflexivity;
    try (intros ->; reflexivity).
Qed.

Lemma build_model_frame (self : BaseModel.t E) n td tr :
  let self' := state_after (_build_model self n td tr) in
  config self' = config self
  /\ require_lm self' = require_lm self
  /\ exists new, graphs self' = new ++ graphs self
                 /\ Forall (fun g => g = compiled_graph self n td tr) new.
Proof.
  cbv zeta. destruct (_load_base_model (config self)) as [w|e] eqn:Hload.
  - destruct (build_model_returns self n td tr w Hload)
      as (self' & -> & Hc & _ & Hr & _ & _ & _ & Hg & _).
    simpl. split; [exact Hc|]. split; [exact Hr|].
    destruct (needs_graph self td tr).
    + destruct Hg as (-> & _). eexists [_]. split; [reflexivity|].
      constructor; [reflexivity|constructor].
    + destruct Hg as (-> & _). exists []. split; [reflexivity|constructor].
  - rewrite (build_model_raises self n td tr e Hload). simpl.
    split; [reflexivity|]. split; [reflexivity|].
    exists []. split; [reflexivity|constructor].
Qed.

Lemma build_model_consistent (self : BaseModel.t E) n td tr :
  graph_consistent self ->
  graph_consistent (state_after (_build_model self n td tr)).
Proof.
  intros [Hwb Htr].
  destruct (_load_base_model (config self)) as [w|e] eqn:Hload.
  - destruct (build_model_returns self n td tr w Hload)
      as (self' & -> & _ & _ & _ & Htd & _ & Hit & Hg & _).
    simpl. unfold graph_consistent.
    destruct (needs_graph self td tr) eqn:Hneed.
    + destruct Hg as (-> & -> & _). split.
      * constructor; [apply compiled_graph_well_built|exact Hwb].
      * intros _. eexists _, _. split; [reflexivity|].
        rewrite Htd. split; reflexivity.
    + destruct Hg as (-> & -> & _). split; [exact Hwb|].
      intros _. unfold needs_graph in Hneed.
      apply orb_false_elim in Hneed as [Hneed Htd'].
      apply orb_false_elim in Hneed as [Hit' Htr'].
      apply negb_false_iff in Hit'.
      apply bool_decide_eq_false in Htd'. apply dec_stable in Htd'.
      destruct (Htr Hit') as (g & rest & Hgs & Ht & Hgtd).
      exists g, rest. split; [exact Hgs|]. split; [exact Ht|].
      congruence.
  - rewrite (build_model_raises self n td tr e Hload). simpl.
    split; assumption.
Qed.

(* after a [_build_model] that returned, the newest graph is the one for
   the arguments of the call *)
Lemma build_model_current_graph (self self' : BaseModel.t E) n td tr :
  graph_consistent self ->
  _build_model self n td tr = Returns self' () ->
  Forall well_built (graphs self')
  /\ BaseModel.target_dim self' = td
  /\ exists g rest,
       graphs self' = g :: rest
       /\ BaseModel.train self' = Some (g_train g)
       /\ g_train g = tr
       /\ g_target_dim g = td.
Proof.
  intros [Hwb Htr] Hbuild.
  destruct (_load_base_model (config self)) as [w|e] eqn:Hload;
    [|rewrite (build_model_raises self n td tr e Hload) in Hbuild;
      discriminate].
  destruct (build_model_returns self n td tr w Hload)
    as (self1 & Hb & _ & _ & _ & Htd & _ & _ & Hg & _).
  rewrite Hb in Hbuild. injection Hbuild as ->.
  destruct (needs_graph self td tr) eqn:Hneed.
  - destruct Hg as (Hgs & Ht & _). rewrite Hgs, Ht. split.
    { constructor; [apply compiled_graph_well_built|exact Hwb]. }
    split; [exact Htd|]. eexists _, _. repeat split; reflexivity.
  - destruct Hg as (Hgs & Ht & _). rewrite Hgs, Ht.
    split; [exact Hwb|]. split; [exact Htd|].
    unfold needs_graph in Hneed.
    apply orb_false_elim in Hneed as [Hneed Htd'].
    apply orb_false_elim in Hneed as [Hit' Htr'].
    apply negb_false_iff in Hit'.
    apply bool_decide_eq_false in Htd'. apply dec_stable in Htd'.
    apply bool_decide_eq_false in Htr'. apply dec_stable in Htr'.
    destruct (Htr Hit') as (g & rest & Hgs' & Ht' & Hgtd).
    exists g, rest. split; [exact Hgs'|]. split; [exact Ht'|].
    split; congruence.
Qed.

(* induction on the way an object was reached: the case of no change,
   the three assignments, a [_build_model], and a [_build_model] that
   returned followed by [is_trained = True] *)
Ltac evolves_cases Hev :=
  induction Hev as [self|self self' v _ IH|self self' v _ IH|self self' _ IH
                   |self self' n td tr _ IH|self self' self'' n td tr _ IH Hb].

Lemma evolves_consistent (self self' : BaseModel.t E) :
  evolves self self' -> graph_consistent self -> graph_consistent self'.
Proof.
  intros Hev. evolves_cases Hev; intros Hc; try specialize (IH Hc).
  - exact Hc.
  - exact IH.
  - exact IH.
  - exact IH.
  - apply build_model_consistent, IH.
  - destruct (build_model_current_graph _ _ _ _ _ IH Hb)
      as (Hwb & Htd & g & rest & Hgs & Ht & _ & Hgtd).
    split; [exact Hwb|]. intros _. exists g, rest.
    split; [exact Hgs|]. split; [exact Ht|]. simpl. congruence.
Qed.

Lemma lm_kept_refl (self : BaseModel.t E) :
  require_lm self = true -> lm_kept self self.
Proof. intros Hr. split; [exact Hr|]. exists []. split; [reflexivity|constructor]. Qed.

Lemma build_model_lm_kept (self self' : BaseModel.t E) n td tr :
  lm_kept self self' ->
  lm_kept self (state_after (_build_model self' n td tr)).
Proof.
  intros (Hr & new & Hgs & Hnew).
  destruct (build_model_frame self' n td tr) as (_ & Hr' & new' & Hgs' & Hnew').
  split; [congruence|]. exists (new' ++ new). split.
  - rewrite Hgs', Hgs. apply app_assoc.
  - apply Forall_app. split; [|exact Hnew].
    eapply Forall_impl; [exact Hnew'|]. intros g ->.
    unfold compiled_graph. simpl. rewrite Hr. apply orb_true_r.
Qed.

Lemma evolves_lm_kept (self self' : BaseModel.t E) :
  evolves self self' -> require_lm self = true -> lm_kept self self'.
Proof.
  intros Hev. evolves_cases Hev; intros Hr; try specialize (IH Hr).
  - apply lm_kept_refl, Hr.
  - exact IH.
  - exact IH.
  - destruct IH as (_ & Hnew). split; [reflexivity|exact Hnew].
  - apply build_model_lm_kept, IH.
  - pose proof (build_model_lm_kept self self' n td tr IH) as Hk.
    rewrite Hb in Hk. exact Hk.
Qed.

(* every public operation changes the object in these ways only *)
Lemma train_on_evolves (self0 self : BaseModel.t E) train_idxs train_Y val_Y td
    batch_size checks :
  evolves self0 self ->
  evolves self0
    (state_after (train_on self train_idxs train_Y val_Y td batch_size checks)).
Proof.
  intros Hev. unfold train_on.
  destruct (_ =? 0); [exact Hev|].
  match goal with
  | |- context [_build_model self ?n td true] =>
      destruct (_build_model self n td true) as [self' []|self' e] eqn:Hb
  end; simpl.
  - destruct (training_steps _ _ _); simpl;
      (eapply evolves_trained; [exact Hev|exact Hb]).
  - match type of Hb with
    | _build_model _ ?n _ _ = _ =>
        pose proof (evolves_build self0 self n td true Hev) as Hev'
    end.
    rewrite Hb in Hev'. exact Hev'.
Qed.

Lemma finetune_evolves (self : BaseModel.t E) Xs Y batch_size checks :
  evolves self (state_after (finetune self Xs Y batch_size checks)).
Proof.
  unfold finetune.
  destruct (_text_to_ids self Xs None None) as [arr|e]; [|apply evolves_refl].
  unfold _training_loop.
  destruct (train_test_split _ _) as [train_idxs val_idxs].
  assert (Hle : forall v, evolves self (set_label_encoder v self))
    by (intros v; apply evolves_label_encoder, evolves_refl).
  destruct (bool_decide (Y = None)); [apply train_on_evolves, Hle|].
  destruct Y as [Y|]; [|apply train_on_evolves, Hle].
  destruct (np_take Y train_idxs) as [y_train|e]; [|apply Hle].
  destruct (fit_transform _target_encoder y_train) as [enc train_Y].
  destruct (np_take Y val_idxs) as [y_val|e].
  - apply train_on_evolves, evolves_label_encoder, Hle.
  - apply evolves_label_encoder, Hle.
Qed.

Lemma infer_prep_evolves (self : BaseModel.t E) Xs max_length :
  evolves self (state_after (_infer_prep self Xs max_length)).
Proof.
  unfold _infer_prep.
  destruct (_text_to_ids _ _ _ _) as [arr|e]; [|apply evolves_refl].
  pose proof (evolves_build self self 0 (BaseModel.target_dim self) false
                (evolves_refl self)) as Hev.
  destruct (_build_model self 0 (BaseModel.target_dim self) false); exact Hev.
Qed.

Lemma generate_text_evolves (self : BaseModel.t E) seed_text max_length :
  evolves self (state_after (fst (generate_text self seed_text max_length))).
Proof.
  unfold generate_text.
  pose proof (evolves_build self _ 0
                (BaseModel.target_dim (set_require_lm true self)) false
                (evolves_require_lm self self (evolves_refl self))) as Hev.
  destruct (_build_model (set_require_lm true self) 0 _ false)
    as [self' []|self' e]; [|exact Hev].
  destruct (EncodedOutput.token_ids _); [exact Hev|].
  destruct (decoded_tokens _); exact Hev.
Qed.

(* whatever [save] does, of the object it touches the load marker only *)
Lemma save_object (self : BaseModel.t E) path fs :
  exists m, state_after (fst (save self path fs)) = set_load_from_file m self.
Proof.
  unfold save. destruct path as [path|].
  - destruct self as [cfg le tdim lf lpo ss ib it rl trn gs ws]; simpl.
    destruct gs; [eexists; reflexivity|].
    destruct (fs !! abspath path) as [[]|];
      [| | | |destruct (mkdir_parents _ _)]; eexists; reflexivity.
  - exists (_load_from_file self). destruct self; reflexivity.
Qed.

Lemma save_evolves (self : BaseModel.t E) path fs :
  evolves self (state_after (fst (save self path fs))).
Proof.
  destruct (save_object self path fs) as [m ->].
  apply evolves_load_marker, evolves_refl.
Qed.

Lemma evolves_trans (a b c : BaseModel.t E) :
  evolves a b -> evolves b c -> evolves a c.
Proof.
  intros Hab Hbc. induction Hbc; eauto using evolves.
Qed.

Lemma run_operations_evolves (ops : list Operation) :
  forall st, evolves (fst st) (fst (run_operations st ops)).
Proof.
  induction ops as [|op ops IH]; intros [self fs]; [apply evolves_refl|].
  unfold run_operations. simpl foldl.
  eapply evolves_trans; [|apply IH]. simpl.
  destruct op; simpl.
  - apply finetune_evolves.
  - apply infer_prep_evolves.
  - apply generate_text_evolves.
  - pose proof (save_evolves self path fs) as Hev.
    destruct (save self path fs). exact Hev.
Qed.

(* every object reached from a consistent one is consistent *)
Lemma run_operations_consistent (ops : list Operation)
    (self : BaseModel.t E) (fs : gmap string (FileNode E)) :
  graph_consistent self ->
  graph_consistent (fst (run_operations (self, fs) ops)).
Proof.
  apply evolves_consistent. apply (run_operations_evolves ops (self, fs)).
Qed.

Lemma load_consistent (path : string) (fs : gmap string (FileNode E))
    (loaded : BaseModel.t E) :
  load path fs = Ok loaded -> graph_consistent loaded.
Proof.
  unfold load. destruct (fs !! _) as [[]|]; try discriminate.
  intros [= <-]. split; [constructor|discriminate].
Qed.

(** ** The length check of [_load_base_model] *)

(* a configuration that fails the length check never gets a graph *)
Lemma evolves_no_graph (self self' : BaseModel.t E) :
  evolves self self' ->
  forall e, _load_base_model (config self) = Raise e ->
  graphs self' = graphs self.
Proof.
  intros Hev e Hload.
  assert (Hboth : graphs self' = graphs self /\ config self' = config self).
  { evolves_cases Hev; try specialize (IH Hload); try exact IH.
    - split; reflexivity.
    - destruct IH as [IHg IHc]. rewrite <- IHc in Hload.
      rewrite (build_model_raises self' n td tr e Hload). simpl.
      split; assumption.
    - destruct IH as [IHg IHc]. rewrite <- IHc in Hload.
      rewrite (build_model_raises self' n td tr e Hload) in Hb.
      discriminate. }
  apply Hboth.
Qed.

(** C3.  With interpolate_pos_embed off: when max_length > 512,
    [_load_base_model] raises ValueError, and so does [_build_model], with
    the object as it was before the call (no graph has been constructed),
    so that no sequence of public operations constructs a graph; when
    max_length <= 512 and the stored token and positional tables have
    n_embed columns, [_load_base_model] returns, and the positional block
    of the first parameter is the slice [:max_length] of the table, which
    for 0 <= max_length is its first max_length rows (all its rows when it
    has fewer) and for a negative max_length the table without its last
    -max_length rows. *)
Theorem no_interpolation_length_check (self : BaseModel.t E)
    (n_updates_total : Z) (target_dim : option Z) (train : bool) :
  Config.interpolate_pos_embed (config self) = false ->
  (512 < Config.max_length (config self) ->
     _load_base_model (config self) = Raise ValueError
     /\ _build_model self n_updates_total target_dim train
        = Raises self ValueError
     /\ forall fs ops,
          graphs (fst (run_operations (self, fs) ops)) = graphs self)
  /\ (Config.max_length (config self) <= 512 ->
      forall (pos tok : ndarray) (rest : list ndarray),
        stored_params = pos :: tok :: rest ->
        nd_cols tok = Config.n_embed (config self) ->
        nd_cols pos = Config.n_embed (config self) ->
        exists w first,
          _load_base_model (config self) = Ok w
          /\ init_params w = first :: rest
          /\ nd_rows first
             = nd_rows tok ++ nd_rows (special_embed (config self))
               ++ py_slice_to (nd_rows pos) (Config.max_length (config self))
          /\ (0 <= Config.max_length (config self) ->
              py_slice_to (nd_rows pos) (Config.max_length (config self))
              = take (Z.to_nat (Config.max_length (config self))) (nd_rows pos)
              /\ length (py_slice_to (nd_rows pos)
                           (Config.max_length (config self)))
                 = Nat.min (Z.to_nat (Config.max_length (config self)))
                     (length (nd_rows pos)))
          /\ (Config.max_length (config self) < 0 ->
              py_slice_to (nd_rows pos) (Config.max_length (config self))
              = take (length (nd_rows pos)
                      - Z.to_nat (- Config.max_length (config self)))
                  (nd_rows pos))).
Proof.
  intros Hint. split.
  - intros Hml.
    assert (Hload : _load_base_model (config self) = Raise ValueError).
    { unfold _load_base_model. rewrite Hint.
      destruct (Z.ltb_spec 512 (Config.max_length (config self))); [|lia].
      reflexivity. }
    split; [exact Hload|]. split.
    + unfold _build_model. rewrite Hload. reflexivity.
    + intros fs ops.
      apply (evolves_no_graph self _ (run_operations_evolves ops (self, fs))
               ValueError Hload).
  - intros Hml pos tok rest Hstored Htok Hpos.
    eexists _, _. split.
    { apply (load_base_model_returns _ pos tok rest Hstored);
        [right; exact Hml|exact Htok|].
      unfold adjusted_pos_embed. rewrite Hint. exact Hpos. }
    cbn [init_params nd_rows]. split; [reflexivity|].
    unfold adjusted_pos_embed. rewrite Hint. cbn [nd_slice_to nd_rows].
    split; [reflexivity|]. split.
    + intros H0. rewrite py_slice_to_take by exact H0.
      split; [reflexivity|apply length_take].
    + apply py_slice_to_negative.
Qed.

(** ** [require_lm] *)

Lemma generate_text_state (self : BaseModel.t E) seed_text max_length :
  state_after (fst (generate_text self seed_text max_length))
  = state_after (_build_model (set_require_lm true self) 0
                   (BaseModel.target_dim self) false).
Proof.
  unfold generate_text. simpl BaseModel.target_dim.
  destruct (_build_model (set_require_lm true self) 0 _ false)
    as [self' []|self' e]; [|reflexivity].
  destruct (EncodedOutput.token_ids _); [reflexivity|].
  destruct (decoded_tokens _); reflexivity.
Qed.

(** C9.  [generate_text] leaves require_lm True, whether it returns or
    raises, and so does every sequence of finetune, predict /
    predict_proba / featurize, generate_text and save calls after it: every
    graph compiled from the call of [generate_text] on has the
    language-model head, and a graph that would be compiled next in eval
    mode, with any target dimension, has it too.  [_initialize] sets the
    flag to False, and with it the constructor and [load]. *)
Theorem require_lm_stays_set (self : BaseModel.t E)
    (fs : gmap string (FileNode E)) (seed_text : string)
    (max_length : option Z) (ops : list Operation) :
  let self1 := state_after (fst (generate_text self seed_text max_length)) in
  let self2 := fst (run_operations (self1, fs) ops) in
  require_lm self1 = true
  /\ require_lm self2 = true
  /\ (exists new, graphs self2 = new ++ graphs self
                  /\ Forall (fun g => g_compile_lm g = true) new)
  /\ (forall n td, g_compile_lm (compiled_graph self2 n td false) = true)
  /\ require_lm (_initialize self2) = false
  /\ (forall cfg, require_lm (__init__ cfg) = false)
  /\ (forall path files loaded,
        load path files = Ok loaded -> require_lm loaded = false).
Proof.
  cbv zeta. rewrite generate_text_state.
  set (self1 := state_after (_build_model (set_require_lm true self) 0
                               (BaseModel.target_dim self) false)).
  assert (H1 : lm_kept (set_require_lm true self) self1)
    by (apply build_model_lm_kept, lm_kept_refl; reflexivity).
  destruct H1 as (Hr1 & new1 & Hg1 & Hnew1).
  pose proof (evolves_lm_kept _ _ (run_operations_evolves ops (self1, fs)) Hr1)
    as (Hr2 & new2 & Hg2 & Hnew2).
  simpl fst in Hg2. split; [exact Hr1|]. split; [exact Hr2|]. split; [|split].
  - exists (new2 ++ new1). split.
    + rewrite Hg2, Hg1. apply app_assoc.
    + apply Forall_app. split; assumption.
  - intros n td. unfold compiled_graph. simpl. rewrite Hr2. reflexivity.
  - split; [reflexivity|]. split; [reflexivity|].
    intros path files loaded. unfold load.
    destruct (files !! _) as [[]|]; try discriminate.
    intros [= <-]. reflexivity.
Qed.

(** ** [finetune] without labels *)

(* [finetune] that returned leaves a trained object in training mode *)
Lemma train_on_returns (self self1 : BaseModel.t E) train_idxs tY vY
    td batch_size steps run :
  train_on self train_idxs tY vY td batch_size steps = Returns self1 run ->
  exists selfb n,
    _build_model self n td true = Returns selfb ()
    /\ self1 = set_is_trained true selfb
    /\ training_steps (config selfb) (training_start (config selfb)) steps
       = Ok (run_loop run)
    /\ train_Y run = tY /\ val_Y run = vY
    /\ run_target_dim run = td.
Proof.
  unfold train_on. intros Hrun.
  destruct (_ =? 0); [discriminate|].
  match type of Hrun with
  | context [_build_model self ?n td true] =>
      destruct (_build_model self n td true) as [selfb []|selfb e] eqn:Hb;
      [|discriminate]; exists selfb, n
  end.
  split; [exact Hb|].
  change (config (set_is_trained true selfb)) with (config selfb) in Hrun.
  destruct (training_steps (config selfb) (training_start (config selfb)) steps)
    as [st|e]; [|discriminate].
  injection Hrun as <- <-. simpl. auto.
Qed.


(** ** [save] and [load] *)

(* without a path nothing happens: the object and the files stay *)
Lemma save_without_path (self : BaseModel.t E) (fs : gmap string (FileNode E)) :
  save self None fs = (Returns self (), fs).
Proof. reflexivity. Qed.

(* where the directory is a file, the marker stays at the path *)
Lemma save_on_a_file (self : BaseModel.t E) (path : string)
    (fs : gmap string (FileNode E)) (node : FileNode E) :
  fs !! abspath path = Some node ->
  node <> Directory ->
  save self (Some path) fs
  = (Raises (set_load_from_file (Some (abspath path)) self) ValueError, fs).
Proof.
  intros Hnode Hdir. unfold save. rewrite Hnode.
  destruct (graphs _); [reflexivity|].
  destruct node; [contradiction|reflexivity..].
Qed.

(** C10.  When [save] is given a path and returns: the object is the one
    before the call with [_load_from_file] False, so label_encoder,
    target_dim and config are untouched; the pickle written under the
    absolute path holds label_encoder, target_dim and config of the object
    and the absolute path as [_load_from_file]; an object loaded from
    there carries that path and, when its next [_build_model] returns,
    has restored its weights from it and has the marker back at False. *)
Theorem save_records_path (self self' : BaseModel.t E) (path : string)
    (fs fs' : gmap string (FileNode E)) :
  save self (Some path) fs = (Returns self' (), fs') ->
  _load_from_file self' = None
  /\ self' = set_load_from_file None self
  /\ label_encoder self' = label_encoder self
  /\ BaseModel.target_dim self' = BaseModel.target_dim self
  /\ config self' = config self
  /\ fs' !! path_join (abspath path) (SAVE_PREFIX +:+ ".pkl")
     = Some (PickleFile
               {| s_label_encoder := label_encoder self;
                  s_target_dim := BaseModel.target_dim self;
                  s_load_from_file := Some (abspath path);
                  s_config := config self |})
  /\ exists loaded,
       load (abspath path) fs' = Ok loaded
       /\ _load_from_file loaded = Some (abspath path)
       /\ weights loaded = []
       /\ forall n td tr built,
            _build_model loaded n td tr = Returns built () ->
            weights built
            = [Restored (abspath path)
                 (bool_decide (BaseModel.target_dim self <> None))]
            /\ _load_from_file built = None.
Proof.
  unfold save. intros Hsave.
  set (pkl := PickleFile (__getstate__ (set_load_from_file (Some (abspath path)) self))).
  assert (Hres : self' = set_load_from_file None self
                 /\ fs' !! path_join (abspath path) (SAVE_PREFIX +:+ ".pkl")
                    = Some pkl).
  { destruct (graphs _); [discriminate|].
    destruct (fs !! abspath path) as [[]|];
      [| | | |destruct (mkdir_parents _ _)]; try discriminate;
      injection Hsave as <- <-;
      (split; [destruct self; reflexivity|apply lookup_insert_eq]). }
  destruct Hres as [-> Hpkl].
  split; [reflexivity|]. split; [reflexivity|]. split; [reflexivity|].
  split; [reflexivity|]. split; [reflexivity|]. split; [exact Hpkl|].
  unfold load. rewrite Hpkl. eexists. split; [reflexivity|].
  split; [reflexivity|]. split; [reflexivity|].
  intros n td tr built Hbuild.
  match type of Hbuild with
  | _build_model ?m _ _ _ = _ => set (loaded := m) in *
  end.
  destruct (_load_base_model (config loaded)) as [w|e] eqn:Hload;
    [|rewrite (build_model_raises loaded n td tr e Hload) in Hbuild;
      discriminate].
  destruct (build_model_returns loaded n td tr w Hload)
    as (built' & Hb & _ & _ & _ & _ & Hmark & _ & _ & Hweights).
  rewrite Hb in Hbuild. injection Hbuild as ->.
  split; [exact Hweights|exact Hmark].
Qed.

(** ** [generate_text] *)

Lemma decode_loop_fed (self : BaseModel.t E) encoded EOS idxs :
  forall n fed0 string,
    Forall (fun a => _array_format (config self) encoder encoded = Ok a) fed0 ->
    Forall (fun a => _array_format (config self) encoder encoded = Ok a)
      (fed (decode_loop self encoded EOS idxs n fed0 string)).
Proof.
  induction idxs as [|i rest IH]; intros n fed0 string Hfed; [exact Hfed|].
  simpl.
  destruct (_array_format (config self) encoder encoded) as [arr|e] eqn:Hfmt;
    [|exact Hfed].
  destruct (lm_predict_op self); [|exact Hfed]. simpl.
  assert (Hfed' : Forall (fun a => Ok arr = Ok a) (fed0 ++ [arr])).
  { apply Forall_app. split; [exact Hfed|].
    constructor; [reflexivity|constructor]. }
  destruct (_ !! Z.to_nat i) as [tok|]; [|exact Hfed'].
  destruct (tok =? EOS); [exact Hfed'|].
  apply IH. exact Hfed'.
Qed.

(* Every array that [generate_text] feeds to the session is the array of
   the encoded seed text: neither the start token nor a sampled token is
   in the input of a forward pass. *)
Lemma generate_text_feeds_seed (self : BaseModel.t E) seed_text max_length :
  Forall (fun a =>
            _array_format (config self) encoder
              (TextEncoder._encode encoder [seed_text]) = Ok a)
    (fed (snd (generate_text self seed_text max_length))).
Proof.
  unfold generate_text.
  destruct (build_model_frame (set_require_lm true self) 0
              (BaseModel.target_dim (set_require_lm true self)) false)
    as (Hcfg & _).
  destruct (_build_model (set_require_lm true self) 0 _ false)
    as [self' []|self' e]; [|constructor].
  simpl in Hcfg.
  destruct (EncodedOutput.token_ids _) as [|seed_ids others] eqn:Hids;
    [constructor|].
  match goal with
  | |- context [decode_loop self' ?enc ?EOS ?idxs 0 [] ?str] =>
      pose proof (decode_loop_fed self' enc EOS idxs 0 [] str
                    ltac:(constructor)) as Hfed;
      destruct (decoded_tokens (decode_loop self' enc EOS idxs 0 [] str))
  end; simpl; rewrite <- Hcfg; exact Hfed.
Qed.

Lemma decode_loop_iterations (self : BaseModel.t E) encoded EOS idxs :
  forall n fed0 string,
    (iterations (decode_loop self encoded EOS idxs n fed0 string)
     <= n + length idxs)%nat.
Proof.
  induction idxs as [|i rest IH]; intros n fed0 string; simpl; [lia|].
  destruct (_array_format _ _ _); simpl; [|lia].
  destruct (lm_predict_op self); simpl; [|lia].
  destruct (_ !! Z.to_nat i) as [tok|]; simpl; [|lia].
  destruct (tok =? EOS); simpl; [lia|].
  etransitivity; [apply IH|]. lia.
Qed.

Lemma decode_loop_tokens (self : BaseModel.t E) encoded EOS idxs :
  forall n fed0 string out,
    decoded_tokens (decode_loop self encoded EOS idxs n fed0 string) = Ok out ->
    exists sampled, out = string ++ sampled.
Proof.
  induction idxs as [|i rest IH]; intros n fed0 string out; simpl.
  - intros [= <-]. exists []. symmetry. apply app_nil_r.
  - destruct (_array_format _ _ _); simpl; [|discriminate].
    destruct (lm_predict_op self); simpl; [|discriminate].
    destruct (_ !! Z.to_nat i) as [tok|]; simpl; [|discriminate].
    destruct (tok =? EOS); simpl.
    + intros [= <-]. exists [tok]. reflexivity.
    + intros Hout. destruct (IH _ _ _ _ Hout) as [sampled ->].
      exists (tok :: sampled). rewrite <- app_assoc. reflexivity.
Qed.

Lemma decode_loop_returns (self : BaseModel.t E) encoded EOS idxs arr :
  _array_format (config self) encoder encoded = Ok arr ->
  lm_predict_op self = true ->
  Forall (fun i => forall n X M,
            (Z.to_nat i < length (lm_predict n X M))%nat) idxs ->
  forall n fed0 string, exists out,
    decoded_tokens (decode_loop self encoded EOS idxs n fed0 string) = Ok out.
Proof.
  intros Hfmt Hop. induction 1 as [|i rest Hi _ IH]; intros n fed0 string.
  - eexists; reflexivity.
  - simpl. rewrite Hfmt, Hop. simpl.
    destruct (lookup_lt_is_Some_2 _ _ (Hi n (ArrayEncodedOutput.token_ids arr)
                                        (ArrayEncodedOutput.mask arr)))
      as [tok ->].
    destruct (tok =? EOS); [eexists; reflexivity|apply IH].
Qed.

(* [generate_text] returns when the pretrained weights load, the graph has
   or gets the language-model head, the seed is one sequence that fits
   config.max_length, and every forward pass gives at least L - 1 tokens *)
Lemma generate_text_returns (self : BaseModel.t E) (seed_text : string)
    (max_length : option Z) (w : PretrainedWeights) (seed_ids : list Z) :
  _load_base_model (config self) = Ok w ->
  needs_graph (set_require_lm true self) (BaseModel.target_dim self) false = true
  \/ lm_predict_op self = true ->
  0 <= Config.max_length (config self) ->
  EncodedOutput.token_ids (TextEncoder._encode encoder [seed_text]) = [seed_ids] ->
  EncodedOutput.labels (TextEncoder._encode encoder [seed_text]) = None ->
  (length seed_ids <= Z.to_nat (Config.max_length (config self)))%nat ->
  (forall n X M,
     py_or max_length (Config.max_length (config self)) - 1
     <= Z.of_nat (length (lm_predict n X M))) ->
  exists self' text,
    fst (generate_text self seed_text max_length) = Returns self' text.
Proof.
  intros Hload Hop Hml Hids Hlab Hlen Hsampled. unfold generate_text.
  destruct (build_model_returns (set_require_lm true self) 0
              (BaseModel.target_dim (set_require_lm true self)) false w Hload)
    as (self1 & -> & Hcfg & _ & _ & _ & _ & _ & Hg & _).
  simpl in Hcfg. rewrite Hids, Hcfg.
  destruct (array_format_returns (config self) encoder
              (TextEncoder._encode encoder [seed_text]) Hml Hlab)
    as [arr Hfmt].
  { rewrite Hids. constructor; [exact Hlen|constructor]. }
  assert (Hop1 : lm_predict_op self1 = true).
  { simpl BaseModel.target_dim in Hg.
    destruct (needs_graph (set_require_lm true self)
                (BaseModel.target_dim self) false).
    - destruct Hg as (_ & _ & Hlm). apply Hlm. reflexivity.
    - destruct Hg as (_ & _ & ->). destruct Hop as [?|Hop];
        [discriminate|exact Hop]. }
  rewrite <- Hcfg in Hfmt.
  match goal with
  | |- context [decode_loop self1 ?enc ?EOS ?idxs 0 [] ?str] =>
      destruct (decode_loop_returns self1 enc EOS idxs arr Hfmt Hop1)
        with (n := 0%nat) (fed0 := @nil ArrayEncodedOutput.t) (string := str)
        as [out ->]
  end.
  - unfold py_range. apply Forall_forall. intros i Hi n X M.
    apply list_elem_of_In, in_map_iff in Hi as (k & <- & Hk).
    apply in_seq in Hk. specialize (Hsampled n X M). simpl length in *. lia.
  - eexists _, _. reflexivity.
Qed.

(** C5.  Whatever the session samples, the loop of [generate_text] runs at
    most max(0, L - 1) times, hence at most L times for 0 <= L, where L is
    max_length when it is given and not 0, and config.max_length
    otherwise; so it runs at most max_length times when max_length is given
    and positive.  When [generate_text] returns, the tokens it decodes are
    the start token, the tokens of the seed text and then the sampled
    tokens; so, for a decoder under which the text of a token sequence
    begins with the text of each of its prefixes, the string returned
    begins with the text of the start token followed by the seed tokens. *)
Theorem generate_text_bounded (self : BaseModel.t E) (seed_text : string)
    (max_length : option Z) :
  let L := py_or max_length (Config.max_length (config self)) in
  let out := generate_text self seed_text max_length in
  Z.of_nat (iterations (snd out)) <= Z.max 0 (L - 1)
  /\ (0 <= L -> Z.of_nat (iterations (snd out)) <= L)
  /\ (forall m, max_length = Some m -> 0 < m ->
        Z.of_nat (iterations (snd out)) <= m)
  /\ forall self' s,
       fst out = Returns self' s ->
       exists seed_ids others sampled,
         EncodedOutput.token_ids (TextEncoder._encode encoder [seed_text])
         = seed_ids :: others
         /\ s = TextEncoder.decode encoder
                  (TextEncoder.start_token encoder :: seed_ids ++ sampled)
         /\ ((forall a b, exists t,
                TextEncoder.decode encoder (a ++ b)
                = TextEncoder.decode encoder a +:+ t) ->
             exists t,
               s = TextEncoder.decode encoder
                     (TextEncoder.start_token encoder :: seed_ids) +:+ t).
Proof.
  cbv zeta.
  assert (Hiter : Z.of_nat (iterations (snd (generate_text self seed_text max_length)))
                  <= Z.max 0 (py_or max_length (Config.max_length (config self)) - 1)).
  { unfold generate_text.
    destruct (build_model_frame (set_require_lm true self) 0
                (BaseModel.target_dim (set_require_lm true self)) false)
      as (Hcfg & _).
    destruct (_build_model (set_require_lm true self) 0 _ false)
      as [self' []|self' e]; [|simpl; lia].
    simpl in Hcfg. rewrite Hcfg.
    destruct (EncodedOutput.token_ids _) as [|seed_ids others]; [simpl; lia|].
    match goal with
    | |- context [decode_loop self' ?enc ?EOS ?idxs 0 [] ?str] =>
        pose proof (decode_loop_iterations self' enc EOS idxs 0 [] str) as Hle;
        destruct (decoded_tokens (decode_loop self' enc EOS idxs 0 [] str))
    end; simpl snd; unfold py_range in *;
      rewrite length_map, length_seq in Hle; cbn [length] in *; lia. }
  split; [exact Hiter|]. split; [lia|]. split.
  { intros m -> Hm. unfold py_or in Hiter.
    destruct (Z.eqb_spec m 0) as [H0|_]; lia. }
  intros self' s. unfold generate_text.
  destruct (_build_model (set_require_lm true self) 0 _ false)
    as [self1 []|self1 e]; [|discriminate].
  destruct (EncodedOutput.token_ids _) as [|seed_ids others]; [discriminate|].
  match goal with
  | |- context [decode_loop self1 ?enc ?EOS ?idxs 0 [] ?str] =>
      pose proof (decode_loop_tokens self1 enc EOS idxs 0 [] str) as Htok;
      destruct (decoded_tokens (decode_loop self1 enc EOS idxs 0 [] str))
        as [string|e]
  end; [|discriminate].
  simpl. intros [= _ <-].
  destruct (Htok string eq_refl) as [sampled ->].
  exists seed_ids, others, sampled. split; [reflexivity|].
  split; [reflexivity|]. intros Hdecode.
  apply (Hdecode (TextEncoder.start_token encoder :: seed_ids) sampled).
Qed.

(** * Further properties

    What the code shows beyond the statements above, function by
    function. *)

(** ** [_array_format]: tokens, positions, labels and errors *)

Lemma np_assign_prefix_length {A} (row : list A) (stop : nat) (vals r : list A) :
  np_assign_prefix row stop vals = Ok r -> length r = length row.
Proof.
  unfold np_assign_prefix. intros Hr.
  destruct (decide (length vals = Nat.min stop (length row))) as [Hl|Hl].
  - injection Hr as <-. rewrite length_app, length_drop. lia.
  - destruct vals as [|v [|? ?]]; try discriminate. injection Hr as <-.
    rewrite length_app, length_replicate, length_drop. lia.
Qed.

Lemma np_assign_prefix_fits {A} (row vals : list A) :
  (length vals <= length row)%nat ->
  np_assign_prefix row (length vals) vals = Ok (vals ++ drop (length vals) row).
Proof.
  intros Hl. unfold np_assign_prefix.
  rewrite Nat.min_l by lia. rewrite decide_True by reflexivity. reflexivity.
Qed.

Lemma np_assign_prefix_too_long {A} (row vals : list A) :
  (length row < length vals)%nat -> (2 <= length vals)%nat ->
  np_assign_prefix row (length vals) vals = Raise ValueError.
Proof.
  intros Hl H2. unfold np_assign_prefix.
  rewrite Nat.min_r by lia. rewrite decide_False by lia.
  destruct vals as [|v [|? ?]]; simpl in H2; try lia. reflexivity.
Qed.

Lemma np_arange_lookup (a : Z) (n j : nat) :
  (j < n)%nat -> np_arange a n !! j = Some (a + Z.of_nat j).
Proof.
  intros Hj. unfold np_arange.
  change (map ?f ?l) with (f <$> l).
  rewrite list_lookup_fmap, lookup_seq_lt by lia. reflexivity.
Qed.

Lemma np_arange_length (a : Z) (n : nat) : length (np_arange a n) = n.
Proof. unfold np_arange. rewrite length_map. apply length_seq. Qed.

Lemma array_format_row_tokens M labels i toks x0 m lab :
  array_format_row M labels i toks = Ok (x0, m, lab) ->
  length x0 = M
  /\ length m = M
  /\ ((length toks <= M)%nat ->
      x0 = (np_int32 <$> toks) ++ replicate (M - length toks) 0).
Proof.
  unfold array_format_row. intros Hrow.
  destruct (np_assign_prefix (replicate M 0) (length toks) (np_int32 <$> toks))
    as [a|e] eqn:Ha; simpl in Hrow; [|discriminate].
  match type of Hrow with
  | mbind _ ?c = _ => destruct c as [l|e]; simpl in Hrow; [|discriminate]
  end.
  injection Hrow as <- <- <-.
  split; [|split].
  - apply np_assign_prefix_length in Ha. rewrite Ha. apply length_replicate.
  - rewrite np_fill_range_length. apply length_replicate.
  - intros HL. rewrite <- (length_fmap np_int32 toks) in Ha.
    rewrite np_assign_prefix_fits in Ha
      by (rewrite length_replicate, length_fmap; exact HL).
    injection Ha as <-. rewrite drop_replicate, length_fmap. reflexivity.
Qed.

Lemma array_format_rows_length M labels token_ids :
  forall i0 rows,
    array_format_rows M labels i0 token_ids = Ok rows ->
    length rows = length token_ids.
Proof.
  induction token_ids as [|t rest IH]; intros i0 rows Hrows; simpl in Hrows.
  - injection Hrows as <-. reflexivity.
  - destruct (array_format_row M labels i0 t) as [r|e];
      simpl in Hrows; [|discriminate].
    destruct (array_format_rows M labels (S i0) rest) as [rs|e] eqn:Hrs;
      simpl in Hrows; [|discriminate].
    injection Hrows as <-. simpl. f_equal. exact (IH _ _ Hrs).
Qed.

Lemma array_format_rows_widths M labels token_ids :
  forall i0 rows,
    array_format_rows M labels i0 token_ids = Ok rows ->
    Forall (fun r : list Z * list Q * option (list string) =>
              length (fst (fst r)) = M /\ length (snd (fst r)) = M) rows.
Proof.
  induction token_ids as [|t rest IH]; intros i0 rows Hrows; simpl in Hrows.
  - injection Hrows as <-. constructor.
  - destruct (array_format_row M labels i0 t) as [[[x0 m] lab]|e] eqn:Hr;
      simpl in Hrows; [|discriminate].
    destruct (array_format_rows M labels (S i0) rest) as [rs|e] eqn:Hrs;
      simpl in Hrows; [|discriminate].
    injection Hrows as <-. constructor; [|exact (IH _ _ Hrs)].
    destruct (array_format_row_tokens _ _ _ _ _ _ _ Hr) as (Hx & Hm & _).
    simpl. split; assumption.
Qed.

(* without labels the only error of a row is the shape mismatch *)
Lemma array_format_rows_error M token_ids :
  forall i0 e,
    array_format_rows M None i0 token_ids = Raise e -> e = ValueError.
Proof.
  induction token_ids as [|t rest IH]; intros i0 e Hrows; simpl in Hrows.
  - discriminate.
  - destruct (array_format_row M None i0 t) as [r|e'] eqn:Hr; simpl in Hrows.
    + destruct (array_format_rows M None (S i0) rest) as [rs|e''] eqn:Hrs;
        simpl in Hrows; [discriminate|].
      injection Hrows as <-. exact (IH _ _ Hrs).
    + injection Hrows as <-. unfold array_format_row in Hr.
      unfold np_assign_prefix in Hr.
      destruct (decide _); simpl in Hr; [discriminate|].
      destruct t as [|v [|? ?]]; simpl in Hr; try discriminate; congruence.
Qed.

(* a value of the int32 range is stored as it is *)
Lemma np_int32_id (z : Z) : - 2 ^ 31 <= z < 2 ^ 31 -> np_int32 z = z.
Proof.
  intros Hz. unfold np_int32. rewrite Z.mod_small by lia. lia.
Qed.

(* what is stored is in the int32 range *)
Lemma np_int32_range (z : Z) : - 2 ^ 31 <= np_int32 z < 2 ^ 31.
Proof.
  unfold np_int32.
  pose proof (Z.mod_pos_bound (z + 2 ^ 31) (2 ^ 32) ltac:(lia)). lia.
Qed.

(** X1.  In the array that [_array_format] returns, the row of an example
    of L <= max_length tokens has max_length entries; when the tokens of
    the example and the positions vocab_size .. vocab_size + max_length - 1
    fit the int32 array, entry j holds token j of the example (0 from L
    on) in channel 0 and vocab_size + j in channel 1, whatever the
    example. *)
Theorem array_format_tokens (cfg : Config.t) (enc : TextEncoder.t)
    (encoded_output : EncodedOutput.t) (arr : ArrayEncodedOutput.t)
    (i : nat) (toks : list Z) :
  _array_format cfg enc encoded_output = Ok arr ->
  EncodedOutput.token_ids encoded_output !! i = Some toks ->
  (length toks <= Z.to_nat (Config.max_length cfg))%nat ->
  Forall (fun tok => - 2 ^ 31 <= tok < 2 ^ 31) toks ->
  - 2 ^ 31 <= TextEncoder.vocab_size enc ->
  TextEncoder.vocab_size enc + Config.max_length cfg <= 2 ^ 31 ->
  exists row : list (Z * Z),
    ArrayEncodedOutput.token_ids arr !! i = Some row
    /\ length row = Z.to_nat (Config.max_length cfg)
    /\ (forall j tok, toks !! j = Some tok ->
          row !! j = Some (tok, TextEncoder.vocab_size enc + Z.of_nat j))
    /\ (forall j, (length toks <= j < Z.to_nat (Config.max_length cfg))%nat ->
          row !! j = Some (0, TextEncoder.vocab_size enc + Z.of_nat j)).
Proof.
  intros Hfmt Hi HL Htok Hv0 Hv1. unfold _array_format in Hfmt.
  destruct (Config.max_length cfg <? 0) eqn:Hneg; [discriminate|].
  apply Z.ltb_ge in Hneg.
  set (M := Z.to_nat (Config.max_length cfg)) in *.
  destruct (array_format_rows M (EncodedOutput.labels encoded_output) 0
              (EncodedOutput.token_ids encoded_output)) as [rows|e] eqn:Hrows;
    simpl in Hfmt; [|discriminate].
  injection Hfmt as <-. simpl.
  destruct (array_format_rows_lookup _ _ _ _ _ _ _ Hrows Hi)
    as ([[x0 m] lab] & Hl & Hrow).
  destruct (array_format_row_tokens _ _ _ _ _ _ _ Hrow) as (Hx & _ & Htoks).
  specialize (Htoks HL).
  assert (Hpos : forall j, (j < M)%nat ->
            (np_int32 <$> np_arange (TextEncoder.vocab_size enc) M) !! j
            = Some (TextEncoder.vocab_size enc + Z.of_nat j)).
  { intros j Hj. rewrite list_lookup_fmap, np_arange_lookup by exact Hj.
    simpl. f_equal. apply np_int32_id. unfold M in Hj. lia. }
  exists (zip x0 (np_int32 <$> np_arange (TextEncoder.vocab_size enc) M)).
  split; [rewrite list_lookup_fmap, Hl; reflexivity|].
  split; [rewrite length_zip_with, Hx, length_fmap, np_arange_length; lia|].
  split.
  - intros j tok Hj.
    assert (j < length toks)%nat by (eapply lookup_lt_Some; exact Hj).
    rewrite lookup_zip_with, Hpos by lia.
    rewrite Htoks, lookup_app_l by (rewrite length_fmap; lia).
    rewrite list_lookup_fmap, Hj. simpl.
    rewrite np_int32_id; [reflexivity|].
    exact (proj1 (Forall_lookup _ _) Htok j tok Hj).
  - intros j Hj.
    rewrite lookup_zip_with, Hpos by lia.
    rewrite Htoks, lookup_app_r by (rewrite length_fmap; lia).
    rewrite length_fmap, lookup_replicate_2 by lia. reflexivity.
Qed.

(** X2.  An example of two or more tokens that is longer than max_length
    makes [_array_format] raise (numpy cannot assign its tokens to the
    shorter row), and so does a negative max_length; without labels the
    error is ValueError. *)
Theorem array_format_too_long (cfg : Config.t) (enc : TextEncoder.t)
    (encoded_output : EncodedOutput.t) (i : nat) (toks : list Z) :
  EncodedOutput.token_ids encoded_output !! i = Some toks ->
  (Z.to_nat (Config.max_length cfg) < length toks)%nat ->
  (2 <= length toks)%nat ->
  (exists e, _array_format cfg enc encoded_output = Raise e)
  /\ (EncodedOutput.labels encoded_output = None ->
      _array_format cfg enc encoded_output = Raise ValueError).
Proof.
  intros Hi HL H2.
  assert (Hno : forall arr, _array_format cfg enc encoded_output <> Ok arr).
  { intros arr Hfmt. unfold _array_format in Hfmt.
    destruct (Config.max_length cfg <? 0); [discriminate|].
    set (M := Z.to_nat (Config.max_length cfg)) in *.
    destruct (array_format_rows M (EncodedOutput.labels encoded_output) 0
                (EncodedOutput.token_ids encoded_output)) as [rows|e] eqn:Hrows;
      simpl in Hfmt; [|discriminate].
    destruct (array_format_rows_lookup _ _ _ _ _ _ _ Hrows Hi)
      as (r & _ & Hrow).
    unfold array_format_row in Hrow.
    rewrite <- (length_fmap np_int32 toks) in Hrow.
    rewrite np_assign_prefix_too_long in Hrow
      by (rewrite ?length_replicate, ?length_fmap; lia).
    discriminate. }
  split.
  - destruct (_array_format cfg enc encoded_output) as [arr|e] eqn:Hfmt.
    + destruct (Hno arr); reflexivity.
    + exists e. reflexivity.
  - intros Hlab.
    destruct (_array_format cfg enc encoded_output) as [arr|e] eqn:Hfmt.
    + destruct (Hno arr); reflexivity.
    + f_equal. unfold _array_format in Hfmt.
      destruct (Config.max_length cfg <? 0); [congruence|].
      rewrite Hlab in Hfmt.
      destruct (array_format_rows _ None 0
                  (EncodedOutput.token_ids encoded_output)) as [rows|e'] eqn:Hrows;
        simpl in Hfmt; [discriminate|].
      injection Hfmt as <-. exact (array_format_rows_error _ _ _ _ Hrows).
Qed.

(** X3.  An example with no token or with one token gets a mask row of
    zeros only: it contributes nothing to the language-model loss. *)
Theorem array_format_short_mask (cfg : Config.t) (enc : TextEncoder.t)
    (encoded_output : EncodedOutput.t) (arr : ArrayEncodedOutput.t)
    (i : nat) (toks : list Z) :
  _array_format cfg enc encoded_output = Ok arr ->
  EncodedOutput.token_ids encoded_output !! i = Some toks ->
  (length toks <= 1)%nat ->
  ArrayEncodedOutput.mask arr !! i
  = Some (replicate (Z.to_nat (Config.max_length cfg)) 0%Q).
Proof.
  intros Hfmt Hi HL. unfold _array_format in Hfmt.
  destruct (Config.max_length cfg <? 0); [discriminate|].
  set (M := Z.to_nat (Config.max_length cfg)) in *.
  destruct (array_format_rows M (EncodedOutput.labels encoded_output) 0
              (EncodedOutput.token_ids encoded_output)) as [rows|e] eqn:Hrows;
    simpl in Hfmt; [|discriminate].
  injection Hfmt as <-. simpl.
  destruct (array_format_rows_lookup _ _ _ _ _ _ _ Hrows Hi)
    as ([[x0 m] lab] & Hl & Hrow).
  apply array_format_row_mask in Hrow. subst m.
  rewrite list_lookup_fmap, Hl. simpl. f_equal.
  apply list_eq. intros j. rewrite np_fill_range_lookup.
  assert (Hb : (1 <=? j)%nat && (j <? length toks)%nat = false).
  { destruct (Nat.leb_spec 1 j) as [H1|H1]; [|reflexivity].
    rewrite (proj2 (Nat.ltb_ge j (length toks))) by lia. reflexivity. }
  rewrite Hb. destruct (replicate M 0%Q !! j); reflexivity.
Qed.

(* with labels every row has a label row *)
Lemma array_format_rows_labels M ls token_ids :
  forall i0 rows,
    array_format_rows M (Some ls) i0 token_ids = Ok rows ->
    omap (fun r : list Z * list Q * option (list string) => snd r) rows
    = (fun r => default [] (snd r)) <$> rows.
Proof.
  induction token_ids as [|t rest IH]; intros i0 rows Hrows; simpl in Hrows.
  - injection Hrows as <-. reflexivity.
  - destruct (array_format_row M (Some ls) i0 t) as [[[x0 m] lab]|e] eqn:Hr;
      simpl in Hrows; [|discriminate].
    destruct (array_format_rows M (Some ls) (S i0) rest) as [rs|e] eqn:Hrs;
      simpl in Hrows; [|discriminate].
    injection Hrows as <-.
    assert (exists l, lab = Some l) as [l ->].
    { unfold array_format_row in Hr.
      destruct (np_assign_prefix (replicate M 0) (length t) (np_int32 <$> t));
        simpl in Hr; [|discriminate].
      destruct ls as [|l0 ls'].
      - simpl in Hr. injection Hr as _ _ <-. eauto.
      - destruct ((l0 :: ls') !! i0); simpl in Hr; [|discriminate].
        destruct (np_assign_prefix (replicate M PAD_TOKEN) (length t) l);
          simpl in Hr; [|discriminate].
        injection Hr as _ _ <-. eauto. }
    rewrite fmap_cons, <- (IH _ _ Hrs). reflexivity.
Qed.

(** X4.  Labels.  Without labels the array has none.  With labels (a
    non-empty list), the label row of an example whose label sequence is
    as long as its token sequence, L <= max_length, is that sequence
    followed by the pad token up to max_length. *)
Theorem array_format_labels (cfg : Config.t) (enc : TextEncoder.t)
    (encoded_output : EncodedOutput.t) (arr : ArrayEncodedOutput.t) :
  _array_format cfg enc encoded_output = Ok arr ->
  (EncodedOutput.labels encoded_output = None ->
   ArrayEncodedOutput.labels arr = None)
  /\ forall ls i toks li,
       EncodedOutput.labels encoded_output = Some ls ->
       EncodedOutput.token_ids encoded_output !! i = Some toks ->
       ls !! i = Some li ->
       length li = length toks ->
       (length toks <= Z.to_nat (Config.max_length cfg))%nat ->
       exists rows,
         ArrayEncodedOutput.labels arr = Some rows
         /\ rows !! i
            = Some (li ++ replicate
                            (Z.to_nat (Config.max_length cfg) - length toks)
                            PAD_TOKEN).
Proof.
  intros Hfmt. unfold _array_format in Hfmt.
  destruct (Config.max_length cfg <? 0); [discriminate|].
  set (M := Z.to_nat (Config.max_length cfg)) in *.
  destruct (array_format_rows M (EncodedOutput.labels encoded_output) 0
              (EncodedOutput.token_ids encoded_output)) as [rows|e] eqn:Hrows;
    simpl in Hfmt; [|discriminate].
  injection Hfmt as <-. simpl. split.
  - intros ->. reflexivity.
  - intros ls i toks li Hlab Hi Hli Hlen HL. rewrite Hlab in *.
    eexists. split; [reflexivity|].
    rewrite (array_format_rows_labels _ _ _ _ _ Hrows).
    destruct (array_format_rows_lookup _ _ _ _ _ _ _ Hrows Hi)
      as ([[x0 m] lab] & Hl & Hrow).
    rewrite list_lookup_fmap, Hl. simpl. f_equal.
    unfold array_format_row in Hrow.
    destruct (np_assign_prefix (replicate M 0) (length toks) (np_int32 <$> toks));
      simpl in Hrow; [|discriminate].
    destruct ls as [|l0 ls']; [destruct i; discriminate|].
    rewrite Hli in Hrow. rewrite <- Hlen in Hrow.
    rewrite np_assign_prefix_fits in Hrow by (rewrite length_replicate; lia).
    simpl in Hrow. injection Hrow as _ _ <-. simpl.
    rewrite drop_replicate, Hlen. reflexivity.
Qed.

(** X5.  Whatever max_length is passed to [_text_to_ids] (it only goes
    to the encoder), the arrays that it returns have one row per encoded
    example and every row, of the tokens and of the mask, has
    config.max_length entries. *)
Theorem text_to_ids_shape (self : BaseModel.t E) (Xs : list (list string))
    (Y : option (list string)) (max_length : option Z)
    (arr : ArrayEncodedOutput.t) :
  _text_to_ids self Xs Y max_length = Ok arr ->
  let M := Z.to_nat (Config.max_length (config self)) in
  let encoder_out :=
    TextEncoder.encode_multi_input encoder (_format_for_encoding Xs) Y
      (py_or max_length (Config.max_length (config self))) in
  length (ArrayEncodedOutput.token_ids arr)
  = length (EncodedOutput.token_ids encoder_out)
  /\ length (ArrayEncodedOutput.mask arr)
     = length (EncodedOutput.token_ids encoder_out)
  /\ Forall (fun row => length row = M) (ArrayEncodedOutput.token_ids arr)
  /\ Forall (fun row => length row = M) (ArrayEncodedOutput.mask arr).
Proof.
  intros Hfmt M encoder_out.
  change (_array_format (config self) encoder encoder_out = Ok arr) in Hfmt.
  unfold _array_format in Hfmt.
  destruct (Config.max_length (config self) <? 0); [discriminate|].
  fold M in Hfmt.
  destruct (array_format_rows M (EncodedOutput.labels encoder_out) 0
              (EncodedOutput.token_ids encoder_out)) as [rows|e] eqn:Hrows;
    simpl in Hfmt; [|discriminate].
  injection Hfmt as <-. simpl.
  pose proof (array_format_rows_length _ _ _ _ _ Hrows) as Hlen.
  pose proof (array_format_rows_widths _ _ _ _ _ Hrows) as Hw.
  rewrite !length_map, Hlen.
  split; [reflexivity|]. split; [reflexivity|].
  split; apply Forall_forall; intros row Hrow;
    apply list_elem_of_In, in_map_iff in Hrow as (r & <- & Hr);
    apply list_elem_of_In in Hr;
    destruct (proj1 (Forall_forall _ _) Hw r Hr) as [Hx Hm].
  - rewrite length_zip_with, Hx, length_fmap, np_arange_length. lia.
  - exact Hm.
Qed.

(** ** [_build_model]: when the graph and the weights are touched *)

(* the object after a [_build_model] that returned *)
Lemma build_model_post (self self1 : BaseModel.t E) n td tr :
  _build_model self n td tr = Returns self1 () ->
  config self1 = config self
  /\ sess self1 = true
  /\ is_built self1 = true
  /\ BaseModel.train self1 = Some tr
  /\ BaseModel.target_dim self1 = td
  /\ _load_from_file self1 = None.
Proof.
  unfold _build_model. intros Hb.
  destruct (_load_base_model (config self)) as [w|e]; [|discriminate].
  injection Hb as <-.
  destruct (needs_graph self td tr) eqn:Hneeds.
  - unfold _initialize_session, _load_finetuned_model, _init_from_pretrained,
      _construct_graph.
    destruct self as [cfg le tdim [path|] lpo [|] ib [|] rl trn gs ws];
      simpl; repeat split; reflexivity.
  - unfold needs_graph in Hneeds.
    apply orb_false_elim in Hneeds as [Hneeds _].
    apply orb_false_elim in Hneeds as [_ Htr].
    apply bool_decide_eq_false in Htr.
    assert (Htrain : BaseModel.train self = Some tr).
    { destruct (decide (Some tr = BaseModel.train self)) as [Heq|Hne];
        [symmetry; exact Heq|destruct (Htr Hne)]. }
    unfold _initialize_session, _load_finetuned_model, _init_from_pretrained.
    destruct self as [cfg le tdim [path|] lpo [|] ib [|] rl trn gs ws];
      simpl in *; repeat split; try reflexivity; exact Htrain.
Qed.

(* the pretrained weights load again after a [_build_model] that returned *)
Lemma build_model_loads (self self1 : BaseModel.t E) n td tr :
  _build_model self n td tr = Returns self1 () ->
  exists w, _load_base_model (config self1) = Ok w.
Proof.
  intros Hb. destruct (build_model_post _ _ _ _ _ Hb) as (Hc & _).
  rewrite Hc. unfold _build_model in Hb.
  destruct (_load_base_model (config self)) as [w|e]; [eauto|discriminate].
Qed.

(* on a trained object with the graph of this mode and target dimension
   and nothing to restore, [_build_model] only makes sure of the session *)
Lemma build_model_settled (self : BaseModel.t E) n td tr w :
  _load_base_model (config self) = Ok w ->
  is_trained self = true ->
  BaseModel.train self = Some tr ->
  BaseModel.target_dim self = td ->
  _load_from_file self = None ->
  _build_model self n td tr
  = Returns (set_is_built true (set_sess true self)) ().
Proof.
  intros Hload Ht Htr Htd Hm. unfold _build_model. rewrite Hload.
  unfold needs_graph. rewrite Ht, Htr, Htd.
  rewrite !bool_decide_eq_false_2 by (intros Hne; apply Hne; reflexivity).
  unfold _initialize_session, _load_finetuned_model, _init_from_pretrained.
  destruct self as [cfg le tdim lff lpo [|] ib it rl trn gs ws];
    simpl in *; subst; reflexivity.
Qed.

(* a trained object with nothing to restore keeps its weights through
   [_build_model] *)
Lemma build_model_keeps_weights (self : BaseModel.t E) n td tr :
  is_trained self = true ->
  _load_from_file self = None ->
  let self' := state_after (_build_model self n td tr) in
  weights self' = weights self
  /\ is_trained self' = true
  /\ _load_from_file self' = None.
Proof.
  intros Ht Hm. cbv zeta.
  destruct (_load_base_model (config self)) as [w|e] eqn:Hload.
  - destruct (build_model_returns self n td tr w Hload)
      as (self' & -> & _ & _ & _ & _ & Hm' & Ht' & _ & Hw).
    simpl. rewrite Hm, Ht in Hw. rewrite Ht in Ht'. auto.
  - rewrite (build_model_raises self n td tr e Hload). simpl. auto.
Qed.

(** X6.  [_build_model] settles: when it has returned and the object is
    trained, calling it again in the same mode with the same target
    dimension returns and leaves the object as it is, whatever
    n_updates_total is passed: no graph is constructed and no stored
    weight is assigned.  (The summary writers of a training build are not
    part of the model.) *)
Theorem build_model_twice (self self1 : BaseModel.t E) (n n' : Z)
    (td : option Z) (tr : bool) :
  _build_model self n td tr = Returns self1 () ->
  is_trained self1 = true ->
  _build_model self1 n' td tr = Returns self1 ().
Proof.
  intros Hb Ht.
  destruct (build_model_post _ _ _ _ _ Hb) as (Hc & Hs & Hib & Htr & Htd & Hm).
  destruct (build_model_loads _ _ _ _ _ Hb) as [w Hload].
  rewrite (build_model_settled self1 n' td tr w Hload Ht Htr Htd Hm).
  f_equal. clear -Hs Hib.
  destruct self1; simpl in *; subst; reflexivity.
Qed.

(* what [train_on] does to a trained object whose graph is the one asked for *)
Lemma train_on_settled (self : BaseModel.t E) train_idxs train_Y val_Y td
    batch_size steps w :
  _load_base_model (config self) = Ok w ->
  is_trained self = true ->
  BaseModel.train self = Some true ->
  BaseModel.target_dim self = td ->
  _load_from_file self = None ->
  let self' :=
    state_after (train_on self train_idxs train_Y val_Y td batch_size steps) in
  graphs self' = graphs self /\ weights self' = weights self.
Proof.
  intros Hload Ht Htr Htd Hm. cbv zeta. unfold train_on.
  destruct (_ =? 0); [simpl; auto|].
  match goal with
  | |- context [_build_model self ?n td true] =>
      rewrite (build_model_settled self n td true w Hload Ht Htr Htd Hm)
  end.
  match goal with
  | |- context [training_steps ?c ?s steps] =>
      destruct (training_steps c s steps)
  end; simpl; auto.
Qed.

(** X7.  A second [finetune] without labels on an object that the first
    one trained constructs no graph and assigns no weight, whatever the
    texts and the batch size: the graph in use, and with it the
    n_updates_total that the optimizer was compiled with, are those of the
    first call. *)
Theorem finetune_again_keeps_graph (self self1 : BaseModel.t E)
    (Xs : list (list string)) (batch_size : option Z)
    (steps : list StepCosts) (run : TrainingRun) :
  finetune self Xs None batch_size steps = Returns self1 run ->
  forall (Xs' : list (list string)) (batch_size' : option Z)
         (steps' : list StepCosts),
    let self2 := state_after (finetune self1 Xs' None batch_size' steps') in
    graphs self2 = graphs self1 /\ weights self2 = weights self1.
Proof.
  intros Hfin Xs' batch_size' steps'. cbv zeta.
  unfold finetune in Hfin.
  destruct (_text_to_ids self Xs None None) as [arr|e]; [|discriminate].
  rewrite bool_decide_eq_true_2 in Hfin by reflexivity.
  unfold _training_loop in Hfin.
  destruct (train_test_split _ _) as [train_idxs val_idxs].
  apply train_on_returns in Hfin as (selfb & n & Hb & -> & _).
  destruct (build_model_post _ _ _ _ _ Hb) as (Hc & _ & _ & Htr & Htd & Hm).
  destruct (build_model_loads _ _ _ _ _ Hb) as [w Hload].
  unfold finetune.
  destruct (_text_to_ids (set_is_trained true selfb) Xs' None None) as [arr'|e];
    [|simpl; auto].
  rewrite bool_decide_eq_true_2 by reflexivity.
  unfold _training_loop.
  destruct (train_test_split _ _) as [train_idxs' val_idxs'].
  match goal with
  | |- context [train_on ?s ?a ?b ?c None batch_size' steps'] =>
      destruct (train_on_settled s a b c None batch_size' steps' w)
        as [Hg Hw]
  end; try (simpl; assumption); try reflexivity.
  rewrite Hg, Hw. simpl. auto.
Qed.

(* one inference call on an object that was never trained *)
Lemma infer_prep_untrained (self self' : BaseModel.t E) Xs max_length arr :
  is_trained self = false ->
  _load_from_file self = None ->
  _infer_prep self Xs max_length = Returns self' arr ->
  config self' = config self
  /\ is_trained self' = false
  /\ _load_from_file self' = None
  /\ graphs self'
     = compiled_graph self 0 (BaseModel.target_dim self) false :: graphs self
  /\ weights self' = InitFromPretrained :: weights self.
Proof.
  intros Ht Hm. unfold _infer_prep. intros Hi.
  destruct (_text_to_ids _ _ _ _) as [arr'|e]; [|discriminate].
  destruct (_load_base_model (config self)) as [w|e] eqn:Hload.
  - destruct (build_model_returns self 0 (BaseModel.target_dim self) false w
                Hload)
      as (s & Hb & Hc & _ & _ & _ & Hm' & Ht' & Hg & Hw).
    rewrite Hb in Hi. injection Hi as <- <-.
    unfold needs_graph in Hg. rewrite Ht in Hg. simpl in Hg.
    rewrite Ht, Hm in Ht'. rewrite Hm, Ht in Hw.
    destruct Hg as (Hg & _). auto.
  - rewrite (build_model_raises self 0 _ false e Hload) in Hi. discriminate.
Qed.

(* [_text_to_ids] reads the configuration of the object only *)
Lemma text_to_ids_config (s s' : BaseModel.t E) Xs Y max_length :
  config s = config s' ->
  _text_to_ids s Xs Y max_length = _text_to_ids s' Xs Y max_length.
Proof. intros Hc. unfold _text_to_ids. rewrite Hc. reflexivity. Qed.


(* a trained object with nothing to restore keeps its weights through
   every operation but [save] *)
Lemma operation_keeps_weights (self : BaseModel.t E)
    (fs : gmap string (FileNode E)) (op : Operation) :
  is_trained self = true ->
  _load_from_file self = None ->
  (forall p, op <> OpSave p) ->
  let self' := fst (run_operation (self, fs) op) in
  weights self' = weights self
  /\ is_trained self' = true
  /\ _load_from_file self' = None.
Proof.
  intros Ht Hm Hop. cbv zeta.
  destruct op as [Xs Y batch_size steps|Xs max_length|seed_text max_length|p];
    simpl.
  - unfold finetune.
    destruct (_text_to_ids self Xs None None) as [arr|e]; [|simpl; auto].
    unfold _training_loop.
    destruct (train_test_split _ _) as [train_idxs val_idxs].
    assert (Htrain : forall s a b c td,
               is_trained s = true -> _load_from_file s = None ->
               weights s = weights self ->
               let s' := state_after (train_on s a b c td batch_size steps) in
               weights s' = weights self
               /\ is_trained s' = true /\ _load_from_file s' = None).
    { intros s a b c td Hts Hms Hws. cbv zeta. unfold train_on.
      destruct (_ =? 0); [simpl; auto|].
      match goal with
      | |- context [_build_model s ?n td true] =>
          pose proof (build_model_keeps_weights s n td true Hts Hms) as Hk;
          destruct (_build_model s n td true) as [sb []|sb e]
      end; simpl in Hk; destruct Hk as (Hw & Ht' & Hm'); rewrite Hws in Hw.
      - destruct (training_steps _ _ _); simpl; auto.
      - simpl. auto. }
    destruct (if bool_decide (Y = None) then None else Y) as [Y'|].
    + destruct (np_take Y' train_idxs) as [y_train|e]; [|simpl; auto].
      destruct (fit_transform _target_encoder y_train) as [enc train_Y].
      destruct (np_take Y' val_idxs) as [y_val|e]; [|simpl; auto].
      apply Htrain; simpl; auto.
    + apply Htrain; simpl; auto.
  - unfold _infer_prep.
    destruct (_text_to_ids _ _ _ _) as [arr|e]; [|simpl; auto].
    pose proof (build_model_keeps_weights self 0 (BaseModel.target_dim self)
                  false Ht Hm) as Hk.
    destruct (_build_model self 0 (BaseModel.target_dim self) false);
      exact Hk.
  - rewrite generate_text_state.
    apply (build_model_keeps_weights (set_require_lm true self)); assumption.
  - destruct (Hop p). reflexivity.
Qed.

(* the same through a sequence of operations *)
Lemma operations_keep_weights (ops : list Operation) :
  forall (self : BaseModel.t E) (fs : gmap string (FileNode E)),
    is_trained self = true ->
    _load_from_file self = None ->
    Forall (fun op => forall p, op <> OpSave p) ops ->
    let self' := fst (run_operations (self, fs) ops) in
    weights self' = weights self
    /\ is_trained self' = true
    /\ _load_from_file self' = None.
Proof.
  induction ops as [|op ops IH]; intros self fs Ht Hm Hops; cbv zeta.
  - simpl. auto.
  - apply Forall_cons in Hops as [Hop Hops].
    change (run_operations (self, fs) (op :: ops))
      with (run_operations (run_operation (self, fs) op) ops).
    destruct (operation_keeps_weights self fs op Ht Hm Hop) as (Hw & Ht' & Hm').
    destruct (run_operation (self, fs) op) as [self1 fs1]. simpl in *.
    destruct (IH self1 fs1 Ht' Hm' Hops) as (IHw & IHt & IHm).
    rewrite IHw, Hw. auto.
Qed.

(** X9.  Once an object is trained and has nothing to restore, and its
    configuration does not make the training loop save (save_best_model
    is off or there is no autosave path: a save in the loop that raises
    would leave the load marker set), no sequence of finetune, predict /
    predict_proba / featurize and generate_text calls assigns stored
    weights again: the pretrained weights are not loaded over the trained
    ones and no checkpoint is restored. *)
Theorem trained_weights_kept (ops : list Operation) :
  forall (self : BaseModel.t E) (fs : gmap string (FileNode E)),
    is_trained self = true ->
    _load_from_file self = None ->
    Config.save_best_model (config self) = false
    \/ Config.autosave_path (config self) = None ->
    Forall (fun op => forall p, op <> OpSave p) ops ->
    let self' := fst (run_operations (self, fs) ops) in
    weights self' = weights self
    /\ is_trained self' = true
    /\ _load_from_file self' = None.
Proof.
  intros self fs Ht Hm _ Hops.
  exact (operations_keep_weights ops self fs Ht Hm Hops).
Qed.

(** X10.  Inference changes nothing of what is serialised but the load
    marker: after predict, predict_proba or featurize, whether it returned
    or raised, config, label_encoder and target_dim are those of before,
    and so is require_lm. *)
Theorem inference_keeps_attributes (self : BaseModel.t E)
    (Xs : list (list string)) (max_length : option Z) :
  let self' := state_after (_infer_prep self Xs max_length) in
  config self' = config self
  /\ label_encoder self' = label_encoder self
  /\ BaseModel.target_dim self' = BaseModel.target_dim self
  /\ require_lm self' = require_lm self.
Proof.
  cbv zeta. unfold _infer_prep.
  destruct (_text_to_ids _ _ _ _) as [arr|e]; [|simpl; auto 10].
  destruct (_load_base_model (config self)) as [w|e] eqn:Hload.
  - destruct (build_model_returns self 0 (BaseModel.target_dim self) false w
                Hload)
      as (s & -> & Hc & Hl & Hr & Htd & Hm & _).
    simpl. auto 10.
  - rewrite (build_model_raises self 0 _ false e Hload). simpl. auto 10.
Qed.

(** ** [generate_text]: where the loop stops *)

Lemma py_range_length (a b : Z) : length (py_range a b) = Z.to_nat (b - a).
Proof. unfold py_range. rewrite length_map. apply length_seq. Qed.

Lemma py_range_empty (a b : Z) : b <= a -> py_range a b = [].
Proof.
  intros Hab. unfold py_range.
  replace (Z.to_nat (b - a)) with 0%nat by lia. reflexivity.
Qed.

Lemma py_range_first (a b : Z) :
  a < b -> exists rest, py_range a b = a :: rest.
Proof.
  intros Hab. unfold py_range.
  destruct (Z.to_nat (b - a)) as [|k] eqn:Hk; [lia|].
  simpl. rewrite Z.add_0_r. eauto.
Qed.

(* the tokens that a completed loop has appended: one per iteration and
   per forward pass, none of them the end token before the last one *)
Lemma decode_loop_sampled (self : BaseModel.t E) encoded EOS idxs :
  forall n fed0 string out,
    decoded_tokens (decode_loop self encoded EOS idxs n fed0 string) = Ok out ->
    exists sampled,
      out = string ++ sampled
      /\ iterations (decode_loop self encoded EOS idxs n fed0 string)
         = (n + length sampled)%nat
      /\ length (fed (decode_loop self encoded EOS idxs n fed0 string))
         = (length fed0 + length sampled)%nat
      /\ (length sampled <= length idxs)%nat
      /\ (forall j tok, sampled !! j = Some tok ->
                        (S j < length sampled)%nat -> tok <> EOS)
      /\ ((length sampled < length idxs)%nat -> last sampled = Some EOS).
Proof.
  induction idxs as [|i rest IH]; intros n fed0 string out; simpl.
  - intros [= <-]. exists []. rewrite app_nil_r. simpl.
    split; [reflexivity|]. split; [lia|]. split; [lia|]. split; [lia|].
    split; [|lia]. intros j tok Hj. destruct j; discriminate.
  - destruct (_array_format (config self) encoder encoded) as [arr|e];
      [|discriminate].
    destruct (lm_predict_op self); simpl; [|discriminate].
    destruct (lm_predict n _ _ !! Z.to_nat i) as [tok|]; [|discriminate].
    destruct (tok =? EOS) eqn:Heos.
    + simpl. intros [= <-]. apply Z.eqb_eq in Heos. exists [tok].
      rewrite length_app. simpl.
      split; [reflexivity|]. split; [lia|]. split; [lia|]. split; [lia|].
      split.
      * intros j t _ Hj. lia.
      * intros _. rewrite Heos. reflexivity.
    + intros Hout. apply Z.eqb_neq in Heos.
      destruct (IH _ _ _ _ Hout)
        as (sampled & -> & Hit & Hfed & Hlen & Hno & Hlast).
      exists (tok :: sampled). rewrite Hit, Hfed, length_app, <- app_assoc.
      simpl.
      split; [reflexivity|]. split; [lia|]. split; [lia|]. split; [lia|].
      split.
      * intros [|j] t Hj HS; simpl in Hj.
        -- injection Hj as <-. exact Heos.
        -- apply (Hno j t Hj). lia.
      * intros Hlt. assert (Hl : last sampled = Some EOS) by (apply Hlast; lia).
        destruct sampled as [|t sampled]; [discriminate|]. exact Hl.
Qed.

(** X11.  When [generate_text] returns, the text is that of the start
    token, the seed tokens and the sampled tokens, one token per iteration
    and per forward pass.  The loop runs over
    range(len(encoded.token_ids), L - 1), so at most L - 1 minus the number
    of encoded texts tokens are sampled, whatever the length of the seed;
    no sampled token but the last is the end token, and when fewer tokens
    than that were sampled the last one is the end token. *)
Theorem generate_text_stops_at_eos (self self' : BaseModel.t E)
    (seed_text : string) (max_length : option Z) (text : string) :
  fst (generate_text self seed_text max_length) = Returns self' text ->
  let run := snd (generate_text self seed_text max_length) in
  let EOS := TextEncoder.classify_token encoder in
  let L := py_or max_length (Config.max_length (config self)) in
  let n_texts :=
    length (EncodedOutput.token_ids (TextEncoder._encode encoder [seed_text])) in
  exists seed_ids others sampled,
    EncodedOutput.token_ids (TextEncoder._encode encoder [seed_text])
    = seed_ids :: others
    /\ text = TextEncoder.decode encoder
                (TextEncoder.start_token encoder :: seed_ids ++ sampled)
    /\ iterations run = length sampled
    /\ length (fed run) = length sampled
    /\ Z.of_nat (length sampled) <= Z.max 0 (L - 1 - Z.of_nat n_texts)
    /\ (forall j tok, sampled !! j = Some tok ->
                      (S j < length sampled)%nat -> tok <> EOS)
    /\ (Z.of_nat (length sampled) < L - 1 - Z.of_nat n_texts ->
        last sampled = Some EOS).
Proof.
  intros Hret. cbv zeta. unfold generate_text in *.
  destruct (_load_base_model (config (set_require_lm true self)))
    as [w|e] eqn:Hload.
  - destruct (build_model_returns (set_require_lm true self) 0
                (BaseModel.target_dim (set_require_lm true self)) false w Hload)
      as (s & Hb & Hc & _).
    rewrite Hb in *.
    destruct (EncodedOutput.token_ids (TextEncoder._encode encoder [seed_text]))
      as [|seed_ids others] eqn:Htok; [discriminate|].
    rewrite Hc in *. change (config (set_require_lm true self))
      with (config self) in *.
    match type of Hret with
    | context [decode_loop s ?enc ?eos ?idxs 0 [] ?str] =>
        set (run := decode_loop s enc eos idxs 0 [] str) in *;
        pose proof (decode_loop_sampled s enc eos idxs 0 [] str) as Hs;
        pose proof (py_range_length
                      (Z.of_nat (length (seed_ids :: others)))
                      (py_or max_length (Config.max_length (config self)) - 1))
          as Hlen
    end.
    fold run in Hs.
    destruct (decoded_tokens run) as [out|e] eqn:Hout; [|discriminate].
    simpl in Hret. injection Hret as _ <-.
    destruct (Hs out eq_refl) as (sampled & -> & Hit & Hfed & Hle & Hno & Hlast).
    exists seed_ids, others, sampled. simpl snd.
    split; [reflexivity|]. split; [reflexivity|].
    split; [exact Hit|]. split; [exact Hfed|].
    split; [lia|]. split; [exact Hno|].
    intros Hlt. apply Hlast. lia.
  - rewrite (build_model_raises _ 0 _ false e Hload) in Hret. discriminate.
Qed.

(** X12.  When L - 1 is not above the number of encoded texts (for the
    one seed text: when [max_length or config.max_length] is at most 2),
    the loop of [generate_text] does not run: once the model is built the
    call returns the text of the start token and the seed tokens, without
    a forward pass, also for a seed that is longer than max_length. *)
Theorem generate_text_short (self : BaseModel.t E) (seed_text : string)
    (max_length : option Z) (w : PretrainedWeights) (seed_ids : list Z)
    (others : list (list Z)) :
  _load_base_model (config self) = Ok w ->
  EncodedOutput.token_ids (TextEncoder._encode encoder [seed_text])
  = seed_ids :: others ->
  py_or max_length (Config.max_length (config self)) - 1
  <= Z.of_nat (length (seed_ids :: others)) ->
  exists self',
    generate_text self seed_text max_length
    = (Returns self'
         (TextEncoder.decode encoder (TextEncoder.start_token encoder :: seed_ids)),
       {| iterations := 0; fed := [];
          decoded_tokens := Ok (TextEncoder.start_token encoder :: seed_ids) |}).
Proof.
  intros Hload Htok HL. unfold generate_text.
  destruct (build_model_returns (set_require_lm true self) 0
              (BaseModel.target_dim (set_require_lm true self)) false w Hload)
    as (s & Hb & Hc & _).
  rewrite Hb, Htok, Hc.
  change (config (set_require_lm true self)) with (config self).
  rewrite py_range_empty by exact HL. simpl. eauto.
Qed.

(* [generate_text] on a trained object whose eval graph has no
   language-model head *)
Lemma generate_text_no_head (self : BaseModel.t E) (seed_text : string)
    (max_length : option Z) (w : PretrainedWeights) (seed_ids : list Z)
    (others : list (list Z)) (arr : ArrayEncodedOutput.t) :
  _load_base_model (config self) = Ok w ->
  is_trained self = true ->
  BaseModel.train self = Some false ->
  _load_from_file self = None ->
  lm_predict_op self = false ->
  EncodedOutput.token_ids (TextEncoder._encode encoder [seed_text])
  = seed_ids :: others ->
  _array_format (config self) encoder (TextEncoder._encode encoder [seed_text])
  = Ok arr ->
  Z.of_nat (length (seed_ids :: others))
  < py_or max_length (Config.max_length (config self)) - 1 ->
  generate_text self seed_text max_length
  = (Raises (set_is_built true (set_sess true (set_require_lm true self)))
       TypeError,
     {| iterations := 1; fed := []; decoded_tokens := Raise TypeError |}).
Proof.
  intros Hload Ht Htr Hm Hop Htok Hfmt HL. unfold generate_text.
  rewrite (build_model_settled (set_require_lm true self) 0 _ false w)
    by (try assumption; reflexivity).
  rewrite Htok.
  change (config (set_is_built true (set_sess true (set_require_lm true self))))
    with (config self).
  destruct (py_range_first _ _ HL) as [rest ->].
  cbn [decode_loop].
  change (config (set_is_built true (set_sess true (set_require_lm true self))))
    with (config self).
  rewrite Hfmt.
  change (lm_predict_op
            (set_is_built true (set_sess true (set_require_lm true self))))
    with (lm_predict_op self).
  rewrite Hop. reflexivity.
Qed.

(** X13.  An object that was loaded from disk and has made a prediction
    holds an eval graph without the language-model head
    ([lm_predict_op] is None).  [generate_text] sets require_lm, but
    [_build_model] finds the object trained, in eval mode and with the
    same target dimension, and constructs no graph; so the first forward
    pass of the loop asks the session for None and the call raises
    TypeError. *)
Theorem generate_text_after_load_and_predict (path : string)
    (fs : gmap string (FileNode E)) (loaded m : BaseModel.t E)
    (Xs : list (list string)) (ml : option Z) (arr0 : ArrayEncodedOutput.t)
    (seed_text : string) (max_length : option Z) (seed_ids : list Z)
    (others : list (list Z)) (arr : ArrayEncodedOutput.t) :
  load path fs = Ok loaded ->
  _load_from_file loaded <> None ->
  _infer_prep loaded Xs ml = Returns m arr0 ->
  EncodedOutput.token_ids (TextEncoder._encode encoder [seed_text])
  = seed_ids :: others ->
  _array_format (config m) encoder (TextEncoder._encode encoder [seed_text])
  = Ok arr ->
  Z.of_nat (length (seed_ids :: others))
  < py_or max_length (Config.max_length (config m)) - 1 ->
  exists m',
    fst (generate_text m seed_text max_length) = Raises m' TypeError
    /\ require_lm m' = true
    /\ lm_predict_op m' = false
    /\ graphs m' = graphs m
    /\ graphs m = [compiled_graph loaded 0 (BaseModel.target_dim loaded) false]
    /\ Forall (fun g => g_compile_lm g = false) (graphs m').
Proof.
  intros Hld Hmark Hinf Htok Hfmt HL.
  assert (Hl : is_trained loaded = false /\ require_lm loaded = false
               /\ lm_predict_op loaded = false /\ graphs loaded = []).
  { unfold load in Hld.
    destruct (fs !! _) as [[| |state|]|]; try discriminate.
    injection Hld as <-. simpl. auto. }
  destruct Hl as (Ht & Hr & Hop & Hg).
  unfold _infer_prep in Hinf.
  destruct (_text_to_ids _ _ _ _) as [a|e]; [|discriminate].
  destruct (_build_model loaded 0 (BaseModel.target_dim loaded) false)
    as [s []|s e] eqn:Hb; [|discriminate].
  injection Hinf as -> _.
  destruct (build_model_post _ _ _ _ _ Hb) as (Hc & _ & _ & Htr & _ & Hm).
  destruct (build_model_loads _ _ _ _ _ Hb) as [w Hload].
  assert (Hmm : is_trained m = true /\ lm_predict_op m = false
                /\ graphs m
                   = [compiled_graph loaded 0 (BaseModel.target_dim loaded) false]
                /\ g_compile_lm
                     (compiled_graph loaded 0 (BaseModel.target_dim loaded) false)
                   = false).
  { unfold _build_model in Hb.
    destruct (_load_base_model (config loaded)); [|discriminate].
    injection Hb as <-. clear -Ht Hr Hop Hg Hmark.
    unfold needs_graph, _initialize_session, _load_finetuned_model,
      _init_from_pretrained, _construct_graph, compiled_graph.
    destruct loaded as [cfg le tdim [p|] lpo [|] ib it rl trn gs ws];
      simpl in *; subst; try (destruct (Hmark eq_refl)); simpl; auto. }
  destruct Hmm as (Htm & Hopm & Hgm & Hlm).
  rewrite (generate_text_no_head m seed_text max_length w seed_ids others arr)
    by assumption.
  eexists. split; [reflexivity|]. simpl.
  split; [reflexivity|]. split; [exact Hopm|]. split; [reflexivity|].
  split; [exact Hgm|]. rewrite Hgm. constructor; [exact Hlm|constructor].
Qed.

(** ** The training loop: errors, counts and averages *)

(** X14.  With val_interval = 0 and at least one training step,
    [finetune] (here without labels) raises ZeroDivisionError at the first
    step, [global_step % val_interval]; this is after [_build_model] and
    after is_trained was set, so the object is left built and marked as
    trained although no update was made. *)
Theorem finetune_val_interval_zero (self : BaseModel.t E)
    (Xs : list (list string)) (batch_size : option Z)
    (steps : list StepCosts) (arr : ArrayEncodedOutput.t)
    (w : PretrainedWeights) :
  _text_to_ids self Xs None None = Ok arr ->
  _load_base_model (config self) = Ok w ->
  py_or batch_size (Config.batch_size (config self)) <> 0 ->
  Config.val_interval (config self) = 0 ->
  steps <> [] ->
  exists self',
    finetune self Xs None batch_size steps = Raises self' ZeroDivisionError
    /\ is_trained self' = true
    /\ is_built self' = true
    /\ label_encoder self' = Some _target_encoder
    /\ BaseModel.target_dim self' = None.
Proof.
  intros Htext Hload Hbs Hvi Hsteps. unfold finetune. rewrite Htext.
  rewrite bool_decide_eq_true_2 by reflexivity. unfold _training_loop.
  destruct (train_test_split _ _) as [train_idxs val_idxs].
  unfold train_on. simpl config.
  destruct (Z.eqb_spec
              (py_or batch_size (Config.batch_size (config self))
               * Z.of_nat (Nat.max (length (Config.visible_gpus (config self))) 1))
              0) as [Hz|_]; [exfalso; nia|].
  set (self0 := set_label_encoder (Some _target_encoder) self).
  match goal with
  | |- context [_build_model self0 ?n None true] =>
      destruct (build_model_returns self0 n None true w Hload)
        as (self1 & Hb & Hcfg & Hle & _ & Htd & _);
      destruct (build_model_post _ _ _ _ _ Hb) as (_ & _ & Hib & _)
  end.
  rewrite Hb. simpl config. rewrite Hcfg. simpl config.
  destruct steps as [|costs rest]; [destruct (Hsteps eq_refl)|].
  cbn [training_steps]. unfold training_step. rewrite Hvi. simpl.
  eexists. split; [reflexivity|]. simpl. auto.
Qed.

(** X15.  When the batch size in effect, [batch_size or config.batch_size],
    is 0, [finetune] (here without labels) raises before [_build_model]: at
    the latest at [n_examples // n_batch_train], with ZeroDivisionError.
    No graph was constructed, no weight assigned, and the object is as
    before but for the label encoder, replaced by a new one once the
    inputs are encoded.  A batch_size argument of 0 counts as absent, so
    this happens only when config.batch_size is 0. *)
Theorem finetune_batch_size_zero (self : BaseModel.t E)
    (Xs : list (list string)) (batch_size : option Z)
    (steps : list StepCosts) :
  py_or batch_size (Config.batch_size (config self)) = 0 ->
  (exists self' e,
     finetune self Xs None batch_size steps = Raises self' e
     /\ (self' = self \/ self' = set_label_encoder (Some _target_encoder) self)
     /\ graphs self' = graphs self
     /\ weights self' = weights self
     /\ is_trained self' = is_trained self)
  /\ Config.batch_size (config self) = 0
  /\ (batch_size = None \/ batch_size = Some 0).
Proof.
  intros Hbs. split.
  - unfold finetune.
    destruct (_text_to_ids self Xs None None) as [arr|e].
    + rewrite bool_decide_eq_true_2 by reflexivity. unfold _training_loop.
      destruct (train_test_split _ _) as [train_idxs val_idxs].
      unfold train_on. simpl config. rewrite Hbs. simpl.
      eexists _, _. split; [reflexivity|]. split; [right; reflexivity|].
      split; [reflexivity|]. split; reflexivity.
    + eexists _, _. split; [reflexivity|]. split; [left; reflexivity|].
      split; [reflexivity|]. split; reflexivity.
  - unfold py_or in Hbs. destruct batch_size as [v|]; [|auto].
    destruct (Z.eqb_spec v 0) as [->|Hv]; [auto|contradiction].
Qed.

(* the quotient grows by one exactly at the multiples *)
Lemma div_succ (g v : Z) :
  0 < v ->
  (g + 1) / v = g / v + (if (g + 1) mod v =? 0 then 1 else 0).
Proof.
  intros Hv.
  pose proof (Z.div_mod g v ltac:(lia)) as Hg.
  pose proof (Z.div_mod (g + 1) v ltac:(lia)) as Hg1.
  pose proof (Z.mod_pos_bound g v Hv) as Hr.
  pose proof (Z.mod_pos_bound (g + 1) v Hv) as Hr1.
  destruct (Z.eqb_spec ((g + 1) mod v) 0) as [H0|H0]; nia.
Qed.

Lemma mod_abs_zero (a v : Z) :
  v <> 0 -> (a mod v =? 0) = (a mod Z.abs v =? 0).
Proof.
  intros Hv. apply eq_iff_eq_true. rewrite !Z.eqb_eq.
  rewrite !Z.mod_divide by lia. symmetry. apply Z.divide_abs_l.
Qed.

Lemma checks_from_length (val_interval : Z) (steps : list StepCosts) :
  val_interval <> 0 ->
  forall g,
    Z.of_nat (length (checks_from val_interval g steps))
    = (g + Z.of_nat (length steps)) / Z.abs val_interval
      - g / Z.abs val_interval.
Proof.
  intros Hvi. induction steps as [|costs rest IH]; intros g.
  - simpl. rewrite Z.add_0_r. lia.
  - cbn [checks_from length]. rewrite mod_abs_zero by exact Hvi.
    pose proof (div_succ g (Z.abs val_interval) ltac:(lia)) as Hd.
    replace (g + Z.of_nat (S (length rest)))
      with (g + 1 + Z.of_nat (length rest)) by lia.
    destruct ((g + 1) mod Z.abs val_interval =? 0); cbn [length];
      rewrite ?Nat2Z.inj_succ, IH; lia.
Qed.

Lemma foldl_val_check_n_checks cfg (checks : list (list Q)) :
  forall st,
    n_checks (foldl (val_check cfg) st checks)
    = (n_checks st + length checks)%nat.
Proof.
  induction checks as [|c checks IH]; intros st; simpl; [lia|].
  rewrite IH, val_check_n_checks. lia.
Qed.


(* a value between two bounds stays there when it is averaged with one *)
Lemma rolling_avg_bounds (decay lo hi : Q) (avg : option Q) (cost a : Q) :
  (0 <= decay)%Q -> (decay <= 1)%Q ->
  (lo <= cost)%Q -> (cost <= hi)%Q ->
  match avg with Some a0 => (lo <= a0)%Q /\ (a0 <= hi)%Q | None => True end ->
  rolling_avg decay avg cost = Some a ->
  (lo <= a)%Q /\ (a <= hi)%Q.
Proof.
  intros Hd0 Hd1 Hlo Hhi Havg Hr. destruct avg as [a0|]; simpl in Hr.
  - injection Hr as <-. destruct Havg as [Ha0 Ha1].
    assert (0 <= (a0 - lo) * decay)%Q by (apply Qmult_le_0_compat; lra).
    assert (0 <= (cost - lo) * (1 - decay))%Q by (apply Qmult_le_0_compat; lra).
    assert (0 <= (hi - a0) * decay)%Q by (apply Qmult_le_0_compat; lra).
    assert (0 <= (hi - cost) * (1 - decay))%Q by (apply Qmult_le_0_compat; lra).
    split; lra.
  - injection Hr as <-. auto.
Qed.

Lemma training_steps_avg (cfg : Config.t) (lo hi : Q) (steps : list StepCosts) :
  Config.val_interval cfg <> 0 ->
  (0 <= Config.rolling_avg_decay cfg)%Q ->
  (Config.rolling_avg_decay cfg <= 1)%Q ->
  Forall (fun s => (lo <= train_cost s)%Q /\ (train_cost s <= hi)%Q) steps ->
  forall st,
    match avg_train_loss st with
    | Some a0 => (lo <= a0)%Q /\ (a0 <= hi)%Q
    | None => True
    end ->
    exists st',
      training_steps cfg st steps = Ok st'
      /\ match avg_train_loss st' with
         | Some a => (lo <= a)%Q /\ (a <= hi)%Q
         | None => steps = [] /\ avg_train_loss st = None
         end.
Proof.
  intros Hvi Hd0 Hd1. induction steps as [|costs rest IH]; intros Hall st Hst.
  - exists st. split; [reflexivity|].
    destruct (avg_train_loss st); auto.
  - apply Forall_cons in Hall as [[Hlo Hhi] Hall].
    cbn [training_steps]. unfold training_step.
    destruct (Z.eqb_spec (Config.val_interval cfg) 0) as [|_]; [contradiction|].
    cbn [mbind result_bind].
    match goal with
    | |- context [training_steps cfg ?st1 rest] =>
        destruct (IH Hall st1) as (st' & Hrun & Havg)
    end.
    + cbn [avg_train_loss].
      destruct (rolling_avg (Config.rolling_avg_decay cfg) (avg_train_loss st)
                  (train_cost costs)) as [a|] eqn:Hr; [|exact I].
      exact (rolling_avg_bounds _ _ _ _ _ _ Hd0 Hd1 Hlo Hhi Hst Hr).
    + exists st'. split; [exact Hrun|].
      destruct (avg_train_loss st') as [a|]; [exact Havg|].
      destruct Havg as [_ Hnone]. cbn [avg_train_loss] in Hnone.
      destruct (avg_train_loss st); discriminate.
Qed.


Lemma training_steps_app (cfg : Config.t) (s1 s2 : list StepCosts) :
  forall st,
    training_steps cfg st (s1 ++ s2)
    = (st1 ← training_steps cfg st s1; training_steps cfg st1 s2).
Proof.
  induction s1 as [|c s1 IH]; intros st; [reflexivity|].
  cbn [app training_steps].
  destruct (training_step cfg st c) as [st1|e]; [|reflexivity].
  cbn [mbind result_bind]. apply IH.
Qed.

Lemma fle_refl (x : fval) : x <> NaN -> fle x x = true.
Proof.
  destruct x as [q| |]; intros Hx; [|reflexivity|contradiction].
  simpl. apply Qle_bool_iff, Qle_refl.
Qed.

Lemma foldl_val_check_best cfg (checks : list (list Q)) :
  forall st,
    best_val_loss st <> NaN ->
    best_val_loss (foldl (val_check cfg) st checks) <> NaN
    /\ fle (best_val_loss (foldl (val_check cfg) st checks)) (best_val_loss st)
       = true
    /\ length (val_window (foldl (val_check cfg) st checks))
       = length (val_window st).
Proof.
  induction checks as [|c checks IH]; intros st Hst.
  - simpl. split; [exact Hst|]. split; [apply fle_refl, Hst|reflexivity].
  - cbn [foldl].
    assert (Hstep : best_val_loss (val_check cfg st c) <> NaN
                    /\ fle (best_val_loss (val_check cfg st c)) (best_val_loss st)
                       = true).
    { rewrite val_check_best.
      destruct (fle (np_mean (val_window (val_check cfg st c)))
                  (best_val_loss st)) eqn:Hle.
      - split; [|exact Hle]. intros Hnan. rewrite Hnan in Hle. discriminate.
      - split; [exact Hst|apply fle_refl, Hst]. }
    destruct Hstep as [Hn Hle].
    destruct (IH (val_check cfg st c) Hn) as (IHn & IHle & IHlen).
    split; [exact IHn|]. split; [exact (fle_trans _ _ _ IHle Hle)|].
    rewrite IHlen, val_check_window.
    rewrite length_drop, length_app. simpl. lia.
Qed.


(** X19.  A [finetune] with labels that returns, on an object in a
    consistent state: the inputs were encoded and the labels cover the
    indices of both splits; the label encoder is a new one fitted on the
    labels of the training split only, the validation labels are
    transformed by the fitted encoder, target_dim is the one of the fitted
    encoder, and the graph in use is a training graph with a task head of
    that dimension. *)
Theorem finetune_with_labels (self self' : BaseModel.t E)
    (Xs : list (list string)) (Y : list string) (batch_size : option Z)
    (steps : list StepCosts) (run : TrainingRun) :
  graph_consistent self ->
  finetune self Xs (Some Y) batch_size steps = Returns self' run ->
  exists arr y_train y_val g rest,
    _text_to_ids self Xs None None = Ok arr
    /\ (let idxs := seq 0 (length (ArrayEncodedOutput.token_ids arr)) in
        let split := train_test_split idxs (Config.val_size (config self)) in
        np_take Y (fst split) = Ok y_train
        /\ np_take Y (snd split) = Ok y_val)
    /\ let fitted := fit_transform _target_encoder y_train in
       label_encoder self' = Some (fst fitted)
       /\ train_Y run = snd fitted
       /\ val_Y run = transform (fst fitted) y_val
       /\ run_target_dim run = Some (encoder_target_dim (fst fitted))
       /\ BaseModel.target_dim self' = Some (encoder_target_dim (fst fitted))
       /\ is_trained self' = true
       /\ graphs self' = g :: rest
       /\ g_train g = true
       /\ g_target_dim g = Some (encoder_target_dim (fst fitted))
       /\ g_target_head g = true.
Proof.
  intros Hc Hfit. unfold finetune in Hfit.
  destruct (_text_to_ids self Xs None None) as [arr|e] eqn:Htext;
    [|discriminate].
  rewrite bool_decide_eq_false_2 in Hfit by discriminate.
  unfold _training_loop in Hfit. simpl config in Hfit.
  destruct (train_test_split _ _) as [train_idxs val_idxs] eqn:Hsplit.
  destruct (np_take Y train_idxs) as [y_train|e] eqn:Htrain; [|discriminate].
  destruct (fit_transform _target_encoder y_train) as [enc tY] eqn:Hfitted.
  destruct (np_take Y val_idxs) as [y_val|e] eqn:Hval; [|discriminate].
  apply train_on_returns in Hfit
    as (selfb & n & Hb & -> & _ & HtY & HvY & Hrtd).
  set (self0 := set_label_encoder (Some enc)
                  (set_label_encoder (Some _target_encoder) self)) in *.
  assert (Hc0 : graph_consistent self0) by exact Hc.
  destruct (build_model_current_graph _ _ _ _ _ Hc0 Hb)
    as (Hwb & Htd & g & rest & Hgs & _ & Hgt & Hgtd).
  assert (Hle : label_encoder selfb = Some enc).
  { destruct (_load_base_model (config self0)) as [w|e] eqn:Hload;
      [|rewrite (build_model_raises self0 n _ true e Hload) in Hb;
        discriminate].
    destruct (build_model_returns self0 n (Some (encoder_target_dim enc))
                true w Hload) as (sb & Hb' & _ & Hl & _).
    rewrite Hb in Hb'. injection Hb' as <-. exact Hl. }
  assert (Hg : well_built g) by (rewrite Hgs in Hwb; apply (Forall_inv Hwb)).
  destruct Hg as (Hhead & _).
  exists arr, y_train, y_val, g, rest. split; [reflexivity|].
  cbv zeta. rewrite Hsplit, Hfitted. simpl fst. simpl snd.
  split; [split; assumption|].
  split; [exact Hle|]. split; [exact HtY|]. split; [exact HvY|].
  split; [exact Hrtd|]. split; [exact Htd|]. split; [reflexivity|].
  split; [exact Hgs|]. split; [exact Hgt|]. split; [exact Hgtd|].
  rewrite Hhead, Hgtd. apply bool_decide_eq_true_2. discriminate.
Qed.

(* sums and means of rationals that are equal as numbers *)
Lemma sum_Fin_foldr (l : list Q) :
  foldr fadd (Fin 0) (Fin <$> l) = Fin (foldr Qplus 0%Q l).
Proof.
  induction l as [|x l IH]; [reflexivity|].
  rewrite fmap_cons. cbn [foldr]. rewrite IH. reflexivity.
Qed.

Lemma foldr_Qplus_Qeq (l1 l2 : list Q) :
  Forall2 Qeq l1 l2 -> (foldr Qplus 0 l1 == foldr Qplus 0 l2)%Q.
Proof.
  induction 1 as [|x y l1 l2 Hxy _ IH]; simpl; [reflexivity|].
  rewrite Hxy, IH. reflexivity.
Qed.

Lemma np_mean_Qeq (l1 l2 : list Q) :
  l1 <> [] -> Forall2 Qeq l1 l2 ->
  fle (np_mean (Fin <$> l1)) (np_mean (Fin <$> l2)) = true.
Proof.
  intros Hne Hall.
  pose proof (Forall2_length _ _ _ Hall) as Hlen.
  pose proof (foldr_Qplus_Qeq _ _ Hall) as Hsum.
  destruct l1 as [|x1 l1]; [contradiction|].
  destruct l2 as [|x2 l2]; [discriminate|].
  unfold np_mean. rewrite !fmap_cons.
  rewrite <- !fmap_cons, !sum_Fin_foldr, !length_fmap, <- Hlen.
  simpl fdiv_count. simpl fle.
  apply Qle_bool_iff. rewrite Hsum. apply Qle_refl.
Qed.

Lemma Forall_Qeq_Forall2 (v : Q) (l1 l2 : list Q) :
  Forall (fun x => (x == v)%Q) l1 -> Forall (fun x => (x == v)%Q) l2 ->
  length l1 = length l2 -> Forall2 Qeq l1 l2.
Proof.
  intros H1. revert l2. induction H1 as [|x l1 Hx _ IH]; intros l2 H2 Hlen.
  - destruct l2; [constructor|discriminate].
  - destruct l2 as [|y l2]; [discriminate|].
    apply Forall_cons in H2 as [Hy H2].
    constructor; [rewrite Hx, Hy; reflexivity|].
    apply IH; [exact H2|]. simpl in Hlen. lia.
Qed.


(** ** [save] and [load]: round trip, frame and errors *)

Lemma string_length_app (a b : string) :
  String.length (a +:+ b) = (String.length a + String.length b)%nat.
Proof. induction a as [|c a IH]; simpl; [reflexivity|]. rewrite IH. reflexivity. Qed.

(* a file inside a directory is not the directory *)
Lemma path_join_ne (a b : string) : path_join a b <> a.
Proof.
  unfold path_join. intros Heq. apply (f_equal String.length) in Heq.
  rewrite !string_length_app in Heq. simpl in Heq. lia.
Qed.

(* the files after a [save] that wrote: the checkpoint and the pickle in
   the directory, which is there *)
Lemma save_returns (self self' : BaseModel.t E) (path : string)
    (fs fs' : gmap string (FileNode E)) :
  save self (Some path) fs = (Returns self' (), fs') ->
  self' = set_load_from_file None self
  /\ graphs self <> []
  /\ exists fs0,
       fs0 !! abspath path = Some Directory
       /\ fs' = <[path_join (abspath path) (SAVE_PREFIX +:+ ".pkl") :=
                   PickleFile
                     (__getstate__
                        (set_load_from_file (Some (abspath path)) self))]>
                  (<[path_join (abspath path) SAVE_PREFIX := CheckpointFiles]>
                     fs0).
Proof.
  unfold save. intros Hsave.
  destruct self as [cfg le tdim lf lpo ss ib it rl trn gs ws]; simpl in *.
  destruct gs as [|g gs]; [discriminate|].
  split; [|split; [discriminate|]].
  - destruct (fs !! abspath path) as [[]|];
      [| | | |destruct (mkdir_parents _ _)]; try discriminate;
      injection Hsave as <- _; reflexivity.
  - destruct (fs !! abspath path) as [[]|] eqn:Hdir; try discriminate.
    + injection Hsave as _ <-. exists fs. split; [exact Hdir|reflexivity].
    + unfold mkdir_parents in Hsave.
      destruct (existsb _ _); [discriminate|].
      injection Hsave as _ <-. eexists.
      split; [apply lookup_insert_eq|reflexivity].
Qed.

(** X21.  Round trip.  After a [save] to a path that returned, [load] of
    that path returns an object with the config, the label encoder and
    the target dimension of the saved one; all that [_initialize] sets is
    as in a new object: not built, not trained, no session, require_lm
    off, and no graph. *)
Theorem save_load_round_trip (self self' : BaseModel.t E) (path : string)
    (fs fs' : gmap string (FileNode E)) :
  save self (Some path) fs = (Returns self' (), fs') ->
  exists loaded,
    load (abspath path) fs' = Ok loaded
    /\ config loaded = config self
    /\ label_encoder loaded = label_encoder self
    /\ BaseModel.target_dim loaded = BaseModel.target_dim self
    /\ is_built loaded = false
    /\ is_trained loaded = false
    /\ sess loaded = false
    /\ require_lm loaded = false
    /\ lm_predict_op loaded = false
    /\ BaseModel.train loaded = None
    /\ graphs loaded = [].
Proof.
  intros Hsave.
  destruct (save_returns _ _ _ _ _ Hsave) as (_ & _ & fs0 & _ & ->).
  unfold load. rewrite lookup_insert_eq. eexists. split; [reflexivity|].
  simpl. repeat split; reflexivity.
Qed.

(** X23.  [save] to a path raises ValueError whenever something that is
    not a directory exists at the absolute path (for an object without
    variables the saver raises it before the path is looked at).  No file
    is written, and the load marker, set before, is not reset: the object
    is left with [_load_from_file] at the absolute path. *)
Theorem save_fails_on_a_file (self : BaseModel.t E) (path : string)
    (fs : gmap string (FileNode E)) (node : FileNode E) :
  fs !! abspath path = Some node ->
  node <> Directory ->
  save self (Some path) fs
  = (Raises (set_load_from_file (Some (abspath path)) self) ValueError, fs)
  /\ _load_from_file (state_after (fst (save self (Some path) fs)))
     = Some (abspath path).
Proof.
  intros Hnode Hdir.
  rewrite (save_on_a_file self path fs node Hnode Hdir).
  split; [reflexivity|]. destruct self; reflexivity.
Qed.

(** X24.  [save] is idempotent: saving again to the same path, right
    after a [save] that returned, returns and leaves the object and every
    file as the first call left them. *)
Theorem save_twice (self self' : BaseModel.t E) (path : string)
    (fs fs' : gmap string (FileNode E)) :
  save self (Some path) fs = (Returns self' (), fs') ->
  save self' (Some path) fs' = (Returns self' (), fs').
Proof.
  intros Hsave.
  destruct (save_returns _ _ _ _ _ Hsave) as (-> & Hg & fs0 & Hdir0 & Hfs).
  set (p := abspath path) in *.
  assert (Hdir : fs' !! p = Some Directory).
  { rewrite Hfs, !lookup_insert_ne by (apply path_join_ne).
    exact Hdir0. }
  unfold save. fold p. rewrite Hdir.
  destruct (graphs (set_load_from_file (Some p) (set_load_from_file None self)))
    as [|g gs] eqn:Hgs; [destruct self; simpl in *; congruence|].
  assert (Hst : set_load_from_file (Some p) (set_load_from_file None self)
                = set_load_from_file (Some p) self) by reflexivity.
  rewrite Hst. f_equal.
  rewrite (insert_id fs' (path_join p SAVE_PREFIX) CheckpointFiles).
  - apply insert_id. rewrite Hfs. apply lookup_insert_eq.
  - rewrite Hfs, lookup_insert_ne.
    + apply lookup_insert_eq.
    + unfold path_join. intros Heq.
      apply (f_equal String.length) in Heq.
      rewrite !string_length_app in Heq. simpl in Heq. lia.
Qed.

(** ** The validation checks: the best value, the saves and the files *)

(* a [save] to a path that returned has left the checkpoint there *)
Lemma save_checkpoint (self self' : BaseModel.t E) (path : string)
    (fs fs' : gmap string (FileNode E)) :
  save self (Some path) fs = (Returns self' (), fs') ->
  checkpoint_at path self fs' /\ self' = set_load_from_file None self.
Proof.
  intros Hsave.
  destruct (save_returns _ _ _ _ _ Hsave) as (-> & _ & fs0 & Hdir & ->).
  split; [|reflexivity]. unfold checkpoint_at.
  split; [|split].
  - rewrite !lookup_insert_ne by apply path_join_ne. exact Hdir.
  - rewrite lookup_insert_ne; [apply lookup_insert_eq|].
    unfold path_join. intros Heq. apply (f_equal String.length) in Heq.
    rewrite !string_length_app in Heq. simpl in Heq. lia.
  - rewrite lookup_insert_eq. destruct self; reflexivity.
Qed.

Lemma checkpoint_at_marker (path : string) (self : BaseModel.t E) m
    (fs : gmap string (FileNode E)) :
  checkpoint_at path (set_load_from_file m self) fs -> checkpoint_at path self fs.
Proof. destruct self. exact (fun Hc => Hc). Qed.

Section ValidationLoopProperties.

Context {F : Type} {PF : PyFloat F}.

Lemma f_le_refl (x : F) : f_is_nan x = false -> f_le x x = true.
Proof. intros Hx. destruct (f_le_total x x Hx Hx); assumption. Qed.

(* the locals of a run that returned are those of the checks, the saves
   apart *)
Lemma validation_loop_locals (cfg : Config.t) (vs : list F) :
  forall (self : BaseModel.t E) fs st self' st' fs',
    validation_loop cfg self fs st vs = (Returns self' st', fs') ->
    st' = foldl (check_locals (Config.save_best_model cfg)) st vs.
Proof.
  induction vs as [|v vs IH]; intros self fs st self' st' fs' Hrun;
    cbn [validation_loop] in Hrun.
  - injection Hrun as _ <- _. reflexivity.
  - cbn [foldl]. unfold check_locals at 2.
    destruct (f_le _ _) eqn:Hacc.
    + destruct (Config.save_best_model cfg) eqn:Hsb.
      * destruct (save self (Config.autosave_path cfg) fs) as [[s []|s e] fs1];
          [|discriminate].
        exact (IH _ _ _ _ _ _ Hrun).
      * exact (IH _ _ _ _ _ _ Hrun).
    + exact (IH _ _ _ _ _ _ Hrun).
Qed.

(* where the loop does not save, or has no path to save to, the run
   returns and touches neither the object nor the files *)
Lemma validation_loop_no_save (cfg : Config.t) (vs : list F) :
  Config.save_best_model cfg = false \/ Config.autosave_path cfg = None ->
  forall (self : BaseModel.t E) fs st,
    validation_loop cfg self fs st vs
    = (Returns self (foldl (check_locals (Config.save_best_model cfg)) st vs),
       fs).
Proof.
  intros Hcfg. induction vs as [|v vs IH]; intros self fs st;
    cbn [validation_loop foldl]; [reflexivity|].
  unfold check_locals at 2.
  destruct (f_le _ _) eqn:Hacc; [|apply IH].
  destruct (Config.save_best_model cfg) eqn:Hsb; [|apply IH].
  destruct Hcfg as [Hcfg|Hcfg]; [discriminate|].
  rewrite Hcfg. cbn [save]. apply IH.
Qed.

(* with a path: either no save was made, or the checkpoint is there *)
Lemma validation_loop_saved (cfg : Config.t) (p : string) (vs : list F) :
  Config.autosave_path cfg = Some p ->
  forall (self : BaseModel.t E) fs st self' st' fs',
    validation_loop cfg self fs st vs = (Returns self' st', fs') ->
    (cs_save_calls st' = cs_save_calls st /\ self' = self /\ fs' = fs)
    \/ (checkpoint_at p self fs' /\ self' = set_load_from_file None self).
Proof.
  intros Hp. induction vs as [|v vs IH]; intros self fs st self' st' fs' Hrun;
    cbn [validation_loop] in Hrun.
  - injection Hrun as <- <- <-. left. auto.
  - destruct (f_le _ _) eqn:Hacc.
    + destruct (Config.save_best_model cfg) eqn:Hsb.
      * rewrite Hp in Hrun.
        destruct (save self (Some p) fs) as [[s []|s e] fs1] eqn:Hsave;
          [|discriminate].
        apply save_checkpoint in Hsave as [Hck ->]. right.
        destruct (IH _ _ _ _ _ _ Hrun) as [(_ & -> & ->)|[Hck' ->]].
        -- split; [exact Hck|reflexivity].
        -- split; [exact (checkpoint_at_marker _ _ _ _ Hck')|].
           destruct self; reflexivity.
      * destruct (IH _ _ _ _ _ _ Hrun) as [(Hs & -> & ->)|Hck];
          [left; auto|right; exact Hck].
    + destruct (IH _ _ _ _ _ _ Hrun) as [(Hs & -> & ->)|Hck];
        [left; auto|right; exact Hck].
Qed.

(* a save of the loop that raises ends the run with its error *)
Lemma validation_loop_save_raises (cfg : Config.t) (self s : BaseModel.t E)
    fs fs1 st (v : F) (rest : list F) (e : exn) :
  f_le (f_mean (drop 1 (cs_val_window st ++ [v]))) (cs_best_val_loss st) = true ->
  Config.save_best_model cfg = true ->
  save self (Config.autosave_path cfg) fs = (Raises s e, fs1) ->
  validation_loop cfg self fs st (v :: rest) = (Raises s e, fs1).
Proof.
  intros Hacc Hsb Hsave. cbn [validation_loop].
  rewrite Hacc, Hsb, Hsave. reflexivity.
Qed.

(** *** The window *)

Lemma window_at_snoc (W : nat) (vs : list F) (v : F) (k : nat) :
  (k <= length vs)%nat -> window_at W (vs ++ [v]) k = window_at W vs k.
Proof.
  intros Hk. unfold window_at. rewrite take_app_le by exact Hk. reflexivity.
Qed.

Lemma mean_at_snoc (W : nat) (vs : list F) (v : F) (k : nat) :
  (k <= length vs)%nat -> mean_at W (vs ++ [v]) k = mean_at W vs k.
Proof. intros Hk. unfold mean_at. rewrite window_at_snoc by exact Hk. reflexivity. Qed.

Lemma window_at_next (W : nat) (vs : list F) (v : F) :
  window_at W (vs ++ [v]) (S (length vs))
  = drop 1 (window_at W vs (length vs) ++ [v]).
Proof.
  unfold window_at.
  rewrite (take_ge (vs ++ [v])) by (rewrite length_app; simpl; lia).
  rewrite (take_ge vs) by lia.
  rewrite <- drop_app_le by (rewrite length_app, length_replicate; lia).
  rewrite drop_drop, <- app_assoc. f_equal. lia.
Qed.

Lemma window_at_full (W : nat) (vs : list F) (k : nat) :
  (W <= k <= length vs)%nat ->
  window_at W vs k = take W (drop (k - W) vs).
Proof.
  intros Hk. unfold window_at.
  rewrite drop_app_ge by (rewrite length_replicate; lia).
  rewrite length_replicate, take_drop_commute.
  replace (k - W + W)%nat with k by lia. reflexivity.
Qed.

Lemma window_at_inf (W : nat) (vs : list F) (k : nat) :
  (k < W)%nat -> f_inf ∈ window_at W vs k.
Proof.
  intros Hk. unfold window_at. apply list_elem_of_lookup. exists 0%nat.
  rewrite lookup_drop, Nat.add_0_r, lookup_app_l
    by (rewrite length_replicate; exact Hk).
  apply lookup_replicate_2. exact Hk.
Qed.

(* as long as fewer than W checks were made, a mean that is not nan is
   infinite *)
Lemma mean_at_inf (W : nat) (vs : list F) (k : nat) :
  (k < W)%nat -> f_is_nan (mean_at W vs k) = false -> mean_at W vs k = f_inf.
Proof.
  intros Hk Hnan. apply f_mean_inf; [apply window_at_inf; exact Hk|exact Hnan].
Qed.

Lemma not_above_earlier_snoc (W : nat) (vs : list F) (v : F) (k : nat) :
  (k <= length vs)%nat ->
  not_above_earlier W (vs ++ [v]) k <-> not_above_earlier W vs k.
Proof.
  intros Hk. unfold not_above_earlier.
  split; intros Hna j Hj; specialize (Hna j Hj).
  - rewrite !mean_at_snoc in Hna by lia. exact Hna.
  - rewrite !mean_at_snoc by lia. exact Hna.
Qed.

(* the window and the counter after the checks *)
Lemma check_locals_window (cfg : Config.t) (vs : list F) :
  let W := Z.to_nat (Config.val_window_size cfg) in
  let st := foldl (check_locals (Config.save_best_model cfg))
              (checks_start cfg) vs in
  cs_val_window st = window_at W vs (length vs)
  /\ cs_n_checks st = length vs.
Proof.
  cbv zeta. induction vs as [|v vs [IHw IHn]] using rev_ind.
  - simpl. unfold window_at. simpl. rewrite app_nil_r. auto.
  - rewrite foldl_snoc, length_app, Nat.add_1_r, window_at_next, <- IHw.
    set (st := foldl _ _ vs) in *.
    unfold check_locals. cbv zeta.
    destruct (f_le _ _); cbn [cs_val_window cs_n_checks]; rewrite IHn; auto.
Qed.

(* the best value and the saves after the checks *)
Lemma check_locals_order (cfg : Config.t) (vs : list F) :
  let W := Z.to_nat (Config.val_window_size cfg) in
  let st := foldl (check_locals (Config.save_best_model cfg))
              (checks_start cfg) vs in
  (1 <= W)%nat ->
  (forall k, (1 <= k <= length vs)%nat -> f_is_nan (mean_at W vs k) = false) ->
  f_is_nan (cs_best_val_loss st) = false
  /\ (vs = [] -> cs_best_val_loss st = f_inf)
  /\ (vs <> [] ->
      exists j, (1 <= j <= length vs)%nat
                /\ cs_best_val_loss st = mean_at W vs j
                /\ ((W <= length vs)%nat -> (W <= j)%nat))
  /\ (forall i, (1 <= i <= length vs)%nat ->
                f_le (cs_best_val_loss st) (mean_at W vs i) = true)
  /\ (forall k, k ∈ cs_save_calls st
                <-> Config.save_best_model cfg = true
                    /\ (1 <= k <= length vs)%nat
                    /\ not_above_earlier W vs k).
Proof.
  cbv zeta. intros HW.
  set (W := Z.to_nat (Config.val_window_size cfg)) in *.
  induction vs as [|v vs IH] using rev_ind; intros Hnan.
  - simpl. split; [apply f_inf_not_nan|]. split; [reflexivity|].
    split; [congruence|]. split; [intros i Hi; lia|].
    intros k. split; [intros Hk; apply elem_of_nil in Hk; destruct Hk|].
    intros (_ & Hk & _). lia.
  - rewrite foldl_snoc.
    assert (Hnan' : forall k, (1 <= k <= length vs)%nat ->
                              f_is_nan (mean_at W vs k) = false).
    { intros k Hk. rewrite <- (mean_at_snoc W vs v k) by lia.
      apply Hnan. rewrite length_app. simpl. lia. }
    destruct (IH Hnan') as (Hbn & Hb0 & Hbj & Hlow & Hsaves). clear IH.
    destruct (check_locals_window cfg vs) as [Hwin Hn]. fold W in Hwin.
    set (st := foldl (check_locals (Config.save_best_model cfg))
                 (checks_start cfg) vs) in *.
    assert (Hlen : length (vs ++ [v]) = S (length vs))
      by (rewrite length_app; simpl; lia).
    rewrite Hlen in *.
    set (n := length vs) in *.
    set (m := mean_at W (vs ++ [v]) (S n)).
    assert (Hm : f_mean (drop 1 (cs_val_window st ++ [v])) = m).
    { unfold m, mean_at, n. rewrite window_at_next, Hwin. reflexivity. }
    assert (Hmn : f_is_nan m = false) by (apply Hnan; lia).
    assert (Hpre : forall k, (k <= n)%nat ->
                             mean_at W (vs ++ [v]) k = mean_at W vs k)
      by (intros k Hk; apply mean_at_snoc; exact Hk).
    unfold check_locals. cbv zeta. rewrite Hm, Hn.
    destruct (f_le m (cs_best_val_loss st)) eqn:Hacc; cbn [cs_best_val_loss cs_save_calls].
    + assert (Hlow' : forall i, (1 <= i <= S n)%nat ->
                                f_le m (mean_at W (vs ++ [v]) i) = true).
      { intros i Hi. destruct (decide (i = S n)) as [->|Hne].
        - apply f_le_refl. exact Hmn.
        - rewrite Hpre by lia.
          eapply f_le_trans; [exact Hacc|apply Hlow; lia]. }
      assert (Hnae : not_above_earlier W (vs ++ [v]) (S n))
        by (intros j Hj; apply Hlow'; lia).
      split; [exact Hmn|]. split; [intros Hnil; destruct vs; discriminate|].
      split; [intros _; exists (S n); split; [lia|]; split; [reflexivity|lia]|].
      split; [exact Hlow'|].
      intros k. destruct (Config.save_best_model cfg) eqn:Hsb.
      * rewrite elem_of_app, list_elem_of_singleton, Hsaves. split.
        -- intros [(_ & Hk & Hna)| ->].
           ++ split; [reflexivity|]. split; [lia|].
              apply not_above_earlier_snoc; [lia|exact Hna].
           ++ split; [reflexivity|]. split; [lia|exact Hnae].
        -- intros (_ & Hk & Hna).
           destruct (decide (k = S n)) as [->|Hne]; [right; reflexivity|].
           left. split; [reflexivity|]. split; [lia|].
           apply (not_above_earlier_snoc W vs v k); [lia|exact Hna].
      * rewrite Hsaves. split; intros (Hf & _); discriminate.
    + assert (Hne : vs <> []).
      { intros ->. rewrite (Hb0 eq_refl), (f_le_inf m Hmn) in Hacc.
        discriminate. }
      destruct (Hbj Hne) as (j & Hj & Hbest & HWj).
      split; [exact Hbn|]. split; [intros Hnil; destruct vs; discriminate|].
      split; [|split].
      * intros _. exists j. split; [lia|]. split; [rewrite Hpre by lia; exact Hbest|].
        intros HWn. destruct (decide (W <= n)%nat) as [Hle|Hgt]; [exact (HWj Hle)|].
        exfalso. rewrite Hbest, (mean_at_inf W vs j) in Hacc
          by (try apply Hnan'; lia).
        rewrite (f_le_inf m Hmn) in Hacc. discriminate.
      * intros i Hi. destruct (decide (i = S n)) as [->|Hni].
        -- destruct (f_le_total m (cs_best_val_loss st) Hmn Hbn) as [Hc|Hc];
             [rewrite Hc in Hacc; discriminate|exact Hc].
        -- rewrite Hpre by lia. apply Hlow. lia.
      * intros k. rewrite Hsaves. split.
        -- intros (Hsb & Hk & Hna). split; [exact Hsb|]. split; [lia|].
           apply not_above_earlier_snoc; [lia|exact Hna].
        -- intros (Hsb & Hk & Hna). split; [exact Hsb|].
           destruct (decide (k = S n)) as [->|Hnk].
           ++ exfalso. assert (Hjn : (1 <= j < S n)%nat) by lia.
              specialize (Hna j Hjn).
              rewrite (Hpre j), <- Hbest in Hna by lia. fold m in Hna.
              rewrite Hna in Hacc. discriminate.
           ++ split; [lia|].
              apply (not_above_earlier_snoc W vs v k); [lia|exact Hna].
Qed.

(* with n >= W the best value is the least of the means of the W-length
   windows of the totals *)
Lemma check_locals_least (cfg : Config.t) (vs : list F) :
  let W := Z.to_nat (Config.val_window_size cfg) in
  let st := foldl (check_locals (Config.save_best_model cfg))
              (checks_start cfg) vs in
  (1 <= W)%nat ->
  (W <= length vs)%nat ->
  (forall k, (1 <= k <= length vs)%nat -> f_is_nan (mean_at W vs k) = false) ->
  least_in (cs_best_val_loss st) (contiguous_means W vs).
Proof.
  cbv zeta. intros HW Hn Hnan.
  destruct (check_locals_order cfg vs HW Hnan) as (_ & _ & Hbj & Hlow & _).
  set (W := Z.to_nat (Config.val_window_size cfg)) in *.
  destruct Hbj as (j & Hj & Hbest & HWj);
    [intros ->; simpl in Hn; lia|].
  specialize (HWj Hn). split.
  - rewrite Hbest. unfold mean_at, contiguous_means, contiguous_windows.
    rewrite window_at_full by lia.
    apply list_elem_of_fmap. exists (take W (drop (j - W) vs)).
    split; [reflexivity|].
    apply list_elem_of_fmap. exists (j - W)%nat. split; [reflexivity|].
    apply elem_of_seq. lia.
  - intros y Hy. unfold contiguous_means, contiguous_windows in Hy.
    apply list_elem_of_fmap in Hy as (w & -> & Hw).
    apply list_elem_of_fmap in Hw as (i & -> & Hi).
    apply elem_of_seq in Hi.
    specialize (Hlow (i + W)%nat ltac:(lia)).
    unfold mean_at in Hlow. rewrite window_at_full in Hlow by lia.
    replace (i + W - W)%nat with i in Hlow by lia. exact Hlow.
Qed.

(** C1.  A run of the validation checks with a window size W >= 1 and
    per-check totals v1..vn, n >= W (in particular n > W), in which no
    mean that the loop computes is nan.  The run returns where the loop
    does not save or has no path to save to.  When it returns (no save
    raised): the best value that it holds at the end is the least of the
    means, as [np.mean] computes them, of the W-length contiguous windows
    of v1..vn; [self.save(autosave_path)] was called at check k exactly
    when save_best_model is set and the window mean at check k is less
    than or equal to the window mean at every earlier check; without an
    autosave path the calls have written nothing, and with one, once a
    call was made, the checkpoint and the pickle of the object are in its
    directory. *)
Theorem rolling_window_best (cfg : Config.t) (self : BaseModel.t E)
    (fs : gmap string (FileNode E)) (vs : list F) :
  let W := Z.to_nat (Config.val_window_size cfg) in
  (1 <= W)%nat ->
  (W <= length vs)%nat ->
  (forall k, (1 <= k <= length vs)%nat -> f_is_nan (mean_at W vs k) = false) ->
  (Config.save_best_model cfg = false \/ Config.autosave_path cfg = None ->
   exists st,
     validation_loop cfg self fs (checks_start cfg) vs = (Returns self st, fs))
  /\ forall self' st fs',
       validation_loop cfg self fs (checks_start cfg) vs
       = (Returns self' st, fs') ->
       least_in (cs_best_val_loss st) (contiguous_means W vs)
       /\ (forall k, k ∈ cs_save_calls st
                     <-> Config.save_best_model cfg = true
                         /\ (1 <= k <= length vs)%nat
                         /\ not_above_earlier W vs k)
       /\ (Config.autosave_path cfg = None -> self' = self /\ fs' = fs)
       /\ (forall p, Config.autosave_path cfg = Some p ->
                     cs_save_calls st <> [] ->
                     checkpoint_at p self fs'
                     /\ self' = set_load_from_file None self).
Proof.
  cbv zeta. intros HW Hn Hnan. split.
  - intros Hcfg. eexists. apply validation_loop_no_save. exact Hcfg.
  - intros self' st fs' Hrun.
    pose proof (validation_loop_locals cfg vs _ _ _ _ _ _ Hrun) as Hst.
    split; [rewrite Hst; apply check_locals_least; assumption|].
    split; [rewrite Hst; apply check_locals_order; assumption|].
    split.
    + intros Hnone.
      rewrite (validation_loop_no_save cfg vs (or_intror Hnone)) in Hrun.
      injection Hrun as <- _ <-. auto.
    + intros p Hp Hsaves.
      destruct (validation_loop_saved cfg p vs Hp _ _ _ _ _ _ Hrun)
        as [(Hs & _ & _)|Hck]; [|exact Hck].
      destruct (Hsaves Hs).
Qed.

(** C8.  The window starts as val_window_size copies of +infinity and the
    best value as +infinity.  With val_window_size >= 1 and no mean that
    is nan, after k >= 1 validation checks of a run that returned: the
    window mean is infinite when k <= val_window_size - 1; and when
    k = 1, the mean has passed the test mean <= best (inf <= inf when the
    window is longer than one), the best value is that mean and, with
    save_best_model, [self.save(autosave_path)] has been called, at that
    first check: it has written nothing when there is no autosave path,
    and the checkpoint and the pickle of the object otherwise.  The run
    returns where the loop does not save or has no path to save to. *)
Theorem first_checks_use_infinite_window (cfg : Config.t)
    (self : BaseModel.t E) (fs : gmap string (FileNode E)) (vs : list F) :
  let W := Z.to_nat (Config.val_window_size cfg) in
  let k := length vs in
  (1 <= W)%nat ->
  (forall i, (1 <= i <= k)%nat -> f_is_nan (mean_at W vs i) = false) ->
  cs_val_window (checks_start cfg) = replicate W f_inf
  /\ cs_best_val_loss (checks_start cfg) = f_inf
  /\ (Config.save_best_model cfg = false \/ Config.autosave_path cfg = None ->
      exists st,
        validation_loop cfg self fs (checks_start cfg) vs
        = (Returns self st, fs))
  /\ forall self' st fs',
       validation_loop cfg self fs (checks_start cfg) vs
       = (Returns self' st, fs') ->
       ((1 <= k <= W - 1)%nat -> f_mean (cs_val_window st) = f_inf)
       /\ (k = 1%nat ->
           f_le (f_mean (cs_val_window st))
             (cs_best_val_loss (checks_start cfg)) = true
           /\ cs_best_val_loss st = f_mean (cs_val_window st)
           /\ ((2 <= W)%nat -> cs_best_val_loss st = f_inf)
           /\ (Config.save_best_model cfg = true ->
               cs_save_calls st = [1%nat]
               /\ (Config.autosave_path cfg = None ->
                   self' = self /\ fs' = fs)
               /\ (forall p, Config.autosave_path cfg = Some p ->
                             checkpoint_at p self fs'
                             /\ self' = set_load_from_file None self))).
Proof.
  cbv zeta. intros HW Hnan.
  split; [reflexivity|]. split; [reflexivity|]. split.
  { intros Hcfg. eexists. apply validation_loop_no_save. exact Hcfg. }
  intros self' st fs' Hrun.
  pose proof (validation_loop_locals cfg vs _ _ _ _ _ _ Hrun) as Hst.
  destruct (check_locals_window cfg vs) as [Hwin _].
  rewrite <- Hst in Hwin.
  set (W := Z.to_nat (Config.val_window_size cfg)) in *.
  assert (Hmean : f_mean (cs_val_window st) = mean_at W vs (length vs))
    by (rewrite Hwin; reflexivity).
  split.
  - intros Hk. rewrite Hmean. apply mean_at_inf; [lia|]. apply Hnan. lia.
  - intros Hk.
    destruct vs as [|v [|? ?]]; try discriminate. clear Hk.
    assert (Hm : f_is_nan (mean_at W [v] 1) = false)
      by (apply Hnan; simpl; lia).
    assert (Hacc : f_le (f_mean (drop 1 (cs_val_window (checks_start cfg) ++ [v])))
                     (cs_best_val_loss (checks_start cfg)) = true).
    { apply f_le_inf. exact Hm. }
    assert (Hlocals : st = {| cs_best_val_loss := mean_at W [v] 1;
                              cs_val_window := window_at W [v] 1;
                              cs_n_checks := 1;
                              cs_save_calls :=
                                if Config.save_best_model cfg then [1%nat]
                                else [] |}).
    { rewrite Hst. cbn [foldl]. unfold check_locals. cbv zeta.
      rewrite Hacc. reflexivity. }
    rewrite Hmean. cbn [length].
    split; [apply f_le_inf; exact Hm|].
    split; [rewrite Hlocals; reflexivity|].
    split; [intros HW2; rewrite Hlocals; apply mean_at_inf; [lia|exact Hm]|].
    intros Hsb. split; [rewrite Hlocals, Hsb; reflexivity|]. split.
    + intros Hnone.
      rewrite (validation_loop_no_save cfg [v] (or_intror Hnone)) in Hrun.
      injection Hrun as <- _ <-. auto.
    + intros p Hp.
      destruct (validation_loop_saved cfg p [v] Hp _ _ _ _ _ _ Hrun)
        as [(Hs & _ & _)|Hck]; [|exact Hck].
      rewrite Hlocals, Hsb in Hs. discriminate.
Qed.

End ValidationLoopProperties.

(** ** [predict_proba]: the dictionaries of the classes *)

Lemma py_dict_snoc {V} (items : list (string * V)) (k : string) (v : V) :
  py_dict (items ++ [(k, v)]) = <[k := v]> (py_dict items).
Proof. unfold py_dict. rewrite foldl_snoc. reflexivity. Qed.

Lemma py_dict_lookup_elem {V} (items : list (string * V)) (k : string) (v : V) :
  py_dict items !! k = Some v -> (k, v) ∈ items.
Proof.
  induction items as [|[k' v'] items IH] using rev_ind; intros Hk.
  - unfold py_dict in Hk. simpl in Hk. rewrite lookup_empty in Hk. discriminate.
  - rewrite py_dict_snoc in Hk. apply elem_of_app.
    destruct (decide (k' = k)) as [->|Hne].
    + rewrite lookup_insert_eq in Hk. injection Hk as ->.
      right. apply list_elem_of_singleton. reflexivity.
    + rewrite lookup_insert_ne in Hk by exact Hne. left. exact (IH Hk).
Qed.

Lemma py_dict_lookup_NoDup {V} (items : list (string * V)) (k : string) (v : V) :
  NoDup (fst <$> items) -> (k, v) ∈ items -> py_dict items !! k = Some v.
Proof.
  induction items as [|[k' v'] items IH] using rev_ind; intros Hnd Hin.
  - apply elem_of_nil in Hin. destruct Hin.
  - rewrite py_dict_snoc. rewrite fmap_app in Hnd.
    apply NoDup_app in Hnd as (Hnd & Hnot & _).
    apply elem_of_app in Hin as [Hin|Hin].
    + assert (k <> k').
      { intros ->. apply (Hnot k').
        * apply list_elem_of_fmap. exists (k', v). auto.
        * simpl. apply list_elem_of_singleton. reflexivity. }
      rewrite lookup_insert_ne by congruence. exact (IH Hnd Hin).
    + apply list_elem_of_singleton in Hin. injection Hin as -> ->.
      apply lookup_insert_eq.
Qed.

Lemma zip_fst_sublist {A B} (l : list A) (k : list B) :
  (zip l k).*1 `sublist_of` l.
Proof.
  revert k. induction l as [|x l IH]; intros k; [constructor|].
  destruct k as [|y k]; simpl.
  - apply sublist_nil_l.
  - apply sublist_skip, IH.
Qed.

(** X25.  [predict_proba] returns one dictionary per row of
    probabilities, in the order of the rows.  A dictionary has an entry
    for a class only if the row has a probability at the position of
    that class; when the classes are distinct, the class at position j is
    mapped to the probability at position j. *)
Theorem predict_proba_by_class (classes : list string)
    (raw_probas : list (list Q)) :
  length (predict_proba_format classes raw_probas) = length raw_probas
  /\ forall i probas,
       raw_probas !! i = Some probas ->
       exists d,
         predict_proba_format classes raw_probas !! i = Some d
         /\ (forall c p, d !! c = Some p ->
               exists j, classes !! j = Some c /\ probas !! j = Some p)
         /\ (NoDup classes ->
             forall j c p, classes !! j = Some c -> probas !! j = Some p ->
                           d !! c = Some p).
Proof.
  unfold predict_proba_format. split; [apply length_fmap|].
  intros i probas Hi. eexists. split.
  { rewrite list_lookup_fmap, Hi. reflexivity. }
  split.
  - intros c p Hd. apply py_dict_lookup_elem in Hd.
    apply elem_of_lookup_zip_with in Hd as (j & c' & p' & Heq & Hc & Hp).
    injection Heq as -> ->. eauto.
  - intros Hnd j c p Hc Hp. apply py_dict_lookup_NoDup.
    + exact (sublist_NoDup _ _ Hnd (zip_fst_sublist classes probas)).
    + apply elem_of_lookup_zip_with. eauto 10.
Qed.

(** ** [finetune_grid_search] *)

Lemma py_max_by_elem {A} (key : A -> Q) (l : list A) (x : A) :
  py_max_by key l = Ok x -> x ∈ l.
Proof.
  destruct l as [|x0 rest]; [discriminate|]. simpl. intros [= <-].
  assert (Hgen : forall best seen,
             best ∈ seen ->
             foldl (fun best y => if Qlt_bool (key best) (key y) then y else best)
               best rest ∈ seen ++ rest).
  { induction rest as [|y rest IH]; intros best seen Hb; simpl.
    - rewrite app_nil_r. exact Hb.
    - replace (seen ++ y :: rest) with ((seen ++ [y]) ++ rest)
        by (rewrite <- app_assoc; reflexivity).
      apply IH. destruct (Qlt_bool (key best) (key y)).
      + apply elem_of_app. right. apply list_elem_of_singleton. reflexivity.
      + apply elem_of_app. left. exact Hb. }
  apply (Hgen x0 [x0]). apply list_elem_of_singleton. reflexivity.
Qed.

Lemma itertools_product_elem {A} (iterables : list (list A)) :
  forall p, p ∈ itertools_product iterables ->
            Forall2 (fun x it => x ∈ it) p iterables.
Proof.
  induction iterables as [|it rest IH]; intros p Hp; simpl in Hp.
  - apply list_elem_of_singleton in Hp as ->. constructor.
  - apply list_elem_of_bind in Hp as (x & Hp & Hx).
    apply list_elem_of_fmap in Hp as (p' & -> & Hp').
    constructor; [exact Hx|exact (IH _ Hp')].
Qed.

Lemma itertools_product_length {A} (iterables : list (list A)) :
  length (itertools_product iterables)
  = foldr (fun it n => (length it * n)%nat) 1%nat iterables.
Proof.
  induction iterables as [|it rest IH]; [reflexivity|].
  cbn [itertools_product foldr]. rewrite <- IH.
  generalize (itertools_product rest). intros ps.
  induction it as [|x it IHit]; [reflexivity|].
  rewrite bind_cons, length_app, length_fmap, IHit. reflexivity.
Qed.

Lemma ranged_items_elem {V} (config : GridConfig V) (k : string) (vs : list V) :
  (k, vs) ∈ ranged_items config <-> (k, Ranged vs) ∈ config.
Proof.
  unfold ranged_items. rewrite list_elem_of_omap. split.
  - intros ([k' [v|vs']] & Hin & Heq); simpl in Heq; [discriminate|].
    injection Heq as -> ->. exact Hin.
  - intros Hin. exists (k, Ranged vs). split; [exact Hin|reflexivity].
Qed.

Lemma ranged_items_keys {V} (config : GridConfig V) :
  (ranged_items config).*1 `sublist_of` config.*1.
Proof.
  induction config as [|[k [v|vs]] config IH]; simpl.
  - constructor.
  - apply sublist_cons, IH.
  - apply sublist_skip, IH.
Qed.

(* the grid is empty exactly when some ranged item has no value *)
Lemma grid_configs_empty {V} (config : GridConfig V) :
  grid_configs config = [] <-> exists k, (k, Ranged []) ∈ config.
Proof.
  unfold grid_configs.
  match goal with
  | |- ?f <$> ?l = [] <-> _ =>
      assert (Hmap : f <$> l = [] <-> l = [])
        by (split; [apply fmap_nil_inv|intros ->; reflexivity])
  end.
  rewrite Hmap. clear Hmap.
  assert (Hprod : forall its : list (list V),
             itertools_product its = [] <-> [] ∈ its).
  { induction its as [|it rest IH]; simpl.
    - split; [discriminate|]. intros Hin. apply elem_of_nil in Hin. destruct Hin.
    - rewrite elem_of_cons, <- IH. split.
      + intros Hb. destruct it as [|x it]; [auto|]. right.
        rewrite bind_cons in Hb. apply app_eq_nil in Hb as [Hb _].
        apply fmap_nil_inv in Hb. exact Hb.
      + intros [<-| ->]; [reflexivity|].
        induction it as [|x it IHit]; [reflexivity|].
        rewrite bind_cons, fmap_nil. exact IHit. }
  rewrite Hprod, list_elem_of_fmap. split.
  - intros ([k vs] & Heq & Hin). simpl in Heq. subst vs.
    exists k. apply ranged_items_elem. exact Hin.
  - intros (k & Hin). exists (k, []). split; [reflexivity|].
    apply ranged_items_elem. exact Hin.
Qed.

(** X26.  [finetune_grid_search] pairs every score with [config], the
    configuration that was passed in, not with the configuration of the
    grid item that was trained.  So with return_all every entry of the
    result holds the configuration passed in, one entry per grid item;
    and without it the call returns the configuration passed in, ranged
    items and all, whatever the scores are.  When a ranged item has no
    value, the grid is empty and [max] raises ValueError. *)
Theorem grid_search_returns_input_config {V} (config : GridConfig V)
    (score : GridConfig V -> Q) :
  (exists results,
      finetune_grid_search config score true = Ok (inl results)
      /\ length results = length (grid_configs config)
      /\ Forall (fun r => fst r = config) results)
  /\ ((exists k, (k, Ranged []) ∈ config) ->
      finetune_grid_search config score false = Raise ValueError)
  /\ (~ (exists k, (k, Ranged []) ∈ config) ->
      finetune_grid_search config score false = Ok (inr config)).
Proof.
  unfold finetune_grid_search. split; [|split].
  - eexists. split; [reflexivity|]. split; [apply length_fmap|].
    apply Forall_fmap, Forall_forall. intros c _. reflexivity.
  - intros Hempty. apply grid_configs_empty in Hempty. rewrite Hempty.
    reflexivity.
  - intros Hne.
    destruct (py_max_by (fun x : GridConfig V * Q => snd x)
                ((fun config_ => (config, score config_)) <$> grid_configs config))
      as [best|e] eqn:Hmax.
    + apply py_max_by_elem, list_elem_of_fmap in Hmax as (c & -> & _).
      reflexivity.
    + destruct (grid_configs config) as [|c cs] eqn:Hgrid; [|discriminate].
      destruct Hne. apply grid_configs_empty. exact Hgrid.
Qed.

Lemma dict_get_set {V} (d : list (string * V)) (k k' : string) (v : V) :
  dict_get (dict_set d k v) k'
  = if decide (k = k') then Some v else dict_get d k'.
Proof.
  induction d as [|[k0 v0] d IH]; simpl.
  - destruct (decide (k = k')); reflexivity.
  - destruct (decide (k0 = k)) as [->|Hne]; simpl.
    + destruct (decide (k = k')); reflexivity.
    + destruct (decide (k0 = k')) as [->|Hne'].
      * destruct (decide (k = k')); [congruence|reflexivity].
      * exact IH.
Qed.

Lemma dict_get_update_notin {V} (items : list (string * V)) (k : string) :
  forall d, k ∉ items.*1 -> dict_get (dict_update d items) k = dict_get d k.
Proof.
  unfold dict_update.
  induction items as [|[k0 v0] items IH]; intros d Hk; [reflexivity|].
  simpl in *. apply not_elem_of_cons in Hk as [Hne Hk].
  rewrite (IH _ Hk), dict_get_set.
  destruct (decide (k0 = k)); [congruence|reflexivity].
Qed.

Lemma dict_get_update_in {V} (items : list (string * V)) (k : string) (v : V) :
  forall d, NoDup items.*1 -> (k, v) ∈ items ->
            dict_get (dict_update d items) k = Some v.
Proof.
  induction items as [|[k0 v0] items IH]; intros d Hnd Hin.
  - apply elem_of_nil in Hin. destruct Hin.
  - simpl in Hnd. apply NoDup_cons in Hnd as [Hk0 Hnd].
    apply elem_of_cons in Hin as [Heq|Hin].
    + injection Heq as -> ->.
      change (dict_update d ((k0, v0) :: items))
        with (dict_update (dict_set d k0 v0) items).
      rewrite (dict_get_update_notin items k0 _ Hk0), dict_get_set.
      rewrite decide_True by reflexivity. reflexivity.
    + change (dict_update d ((k0, v0) :: items))
        with (dict_update (dict_set d k0 v0) items).
      exact (IH _ Hnd Hin).
Qed.

Lemma dict_get_elem {V} (d : list (string * V)) (k : string) (v : V) :
  NoDup d.*1 -> (k, v) ∈ d -> dict_get d k = Some v.
Proof.
  induction d as [|[k0 v0] d IH]; intros Hnd Hin.
  - apply elem_of_nil in Hin. destruct Hin.
  - simpl in *. apply NoDup_cons in Hnd as [Hk0 Hnd].
    apply elem_of_cons in Hin as [Heq|Hin].
    + injection Heq as -> ->. rewrite decide_True by reflexivity. reflexivity.
    + destruct (decide (k0 = k)) as [->|Hne]; [|exact (IH Hnd Hin)].
      destruct Hk0. apply list_elem_of_fmap. exists (k, v). auto.
Qed.

(** X27.  The grid of [finetune_grid_search] is the product of the ranged
    items: the number of configurations that are trained is the product of
    the numbers of values of the ranged items, and each of them assigns to
    every ranged key one of the values of its range and leaves every
    other item as it is in the configuration passed in. *)
Theorem grid_search_grid {V} (config : GridConfig V) :
  length (grid_configs config)
  = foldr (fun vs n => (length vs * n)%nat) 1%nat (ranged_items config).*2
  /\ (NoDup config.*1 ->
      forall config_, config_ ∈ grid_configs config ->
        (forall k vs, (k, Ranged vs) ∈ config ->
           exists v, v ∈ vs /\ dict_get config_ k = Some (Plain v))
        /\ (forall k v, (k, Plain v) ∈ config ->
              dict_get config_ k = Some (Plain v))).
Proof.
  split.
  - unfold grid_configs. rewrite length_fmap. apply itertools_product_length.
  - intros Hnd config_ Hin. unfold grid_configs in Hin.
    apply list_elem_of_fmap in Hin as (p & -> & Hp).
    apply itertools_product_elem in Hp.
    assert (Hkeys : NoDup (ranged_items config).*1)
      by exact (sublist_NoDup _ _ Hnd (ranged_items_keys config)).
    assert (Hzip : NoDup (zip (ranged_items config).*1 (Plain <$> p)).*1)
      by exact (sublist_NoDup _ _ Hkeys (zip_fst_sublist _ _)).
    split.
    + intros k vs Hk. apply ranged_items_elem in Hk.
      apply list_elem_of_lookup in Hk as [i Hi].
      assert (Hvs : (ranged_items config).*2 !! i = Some vs)
        by (rewrite list_lookup_fmap, Hi; reflexivity).
      destruct (Forall2_lookup_r _ _ _ _ _ Hp Hvs) as (v & Hv & Hvin).
      exists v. split; [exact Hvin|].
      apply dict_get_update_in; [exact Hzip|].
      apply elem_of_lookup_zip_with. exists i, k, (Plain v).
      split; [reflexivity|]. split.
      * rewrite list_lookup_fmap, Hi. reflexivity.
      * rewrite list_lookup_fmap, Hv. reflexivity.
    + intros k v Hk.
      rewrite dict_get_update_notin; [exact (dict_get_elem _ _ _ Hnd Hk)|].
      intros Hin. apply (fun H => elem_of_sublist _ _ _ H (zip_fst_sublist _ _)) in Hin.
      apply list_elem_of_fmap in Hin as ([k' vs] & Heq & Hin).
      simpl in Heq. subst k'. apply ranged_items_elem in Hin.
      assert (Heq : Plain v = Ranged vs); [|discriminate].
      clear -Hnd Hk Hin.
      induction config as [|[k0 v0] config IH].
      * apply elem_of_nil in Hk. destruct Hk.
      * simpl in Hnd. apply NoDup_cons in Hnd as [Hk0 Hnd].
        apply elem_of_cons in Hk as [Hk|Hk], Hin as [Hin|Hin].
        -- congruence.
        -- injection Hk as -> ->. destruct Hk0.
           apply list_elem_of_fmap. exists (k0, Ranged vs). auto.
        -- injection Hin as -> ->. destruct Hk0.
           apply list_elem_of_fmap. exists (k0, Plain v). auto.
        -- exact (IH Hnd Hk Hin).
Qed.

(** ** Further invariants and errors *)

Lemma build_model_no_lm (self : BaseModel.t E) n td tr :
  require_lm self = false ->
  let self' := state_after (_build_model self n td tr) in
  require_lm self' = false
  /\ exists new, graphs self' = new ++ graphs self
                 /\ Forall lm_head_as_trained new.
Proof.
  intros Hr. cbv zeta.
  destruct (build_model_frame self n td tr) as (_ & Hr' & new & Hg & Hnew).
  split; [rewrite Hr'; exact Hr|].
  exists new. split; [exact Hg|].
  eapply Forall_impl; [exact Hnew|]. intros g ->.
  unfold lm_head_as_trained, compiled_graph. simpl. rewrite Hr.
  apply orb_false_r.
Qed.

Lemma operation_no_lm (self : BaseModel.t E) (fs : gmap string (FileNode E))
    (op : Operation) :
  require_lm self = false ->
  (forall seed_text max_length, op <> OpGenerateText seed_text max_length) ->
  let self' := fst (run_operation (self, fs) op) in
  require_lm self' = false
  /\ exists new, graphs self' = new ++ graphs self
                 /\ Forall lm_head_as_trained new.
Proof.
  intros Hr Hop. cbv zeta.
  assert (Hsame : forall s : BaseModel.t E,
             require_lm s = false -> graphs s = graphs self ->
             require_lm s = false
             /\ exists new, graphs s = new ++ graphs self
                            /\ Forall lm_head_as_trained new).
  { intros s Hs Hg. split; [exact Hs|]. exists []. split; [exact Hg|constructor]. }
  destruct op as [Xs Y batch_size steps|Xs max_length|seed_text max_length|p];
    simpl.
  - unfold finetune.
    destruct (_text_to_ids self Xs None None) as [arr|e];
      [|apply Hsame; [exact Hr|reflexivity]].
    unfold _training_loop.
    destruct (train_test_split _ _) as [train_idxs val_idxs].
    assert (Htrain : forall s a b c td,
               require_lm s = false -> graphs s = graphs self ->
               let s' := state_after (train_on s a b c td batch_size steps) in
               require_lm s' = false
               /\ exists new, graphs s' = new ++ graphs self
                              /\ Forall lm_head_as_trained new).
    { intros s a b c td Hs Hg. cbv zeta. unfold train_on.
      destruct (_ =? 0); [apply Hsame; assumption|].
      match goal with
      | |- context [_build_model s ?n td true] =>
          pose proof (build_model_no_lm s n td true Hs) as Hk;
          destruct (_build_model s n td true) as [sb []|sb e]
      end; simpl in Hk; rewrite Hg in Hk.
      - destruct (training_steps _ _ _); exact Hk.
      - exact Hk. }
    destruct (if bool_decide (Y = None) then None else Y) as [Y'|].
    + destruct (np_take Y' train_idxs) as [y_train|e];
        [|apply Hsame; [exact Hr|reflexivity]].
      destruct (fit_transform _target_encoder y_train) as [enc train_Y].
      destruct (np_take Y' val_idxs) as [y_val|e];
        [|apply Hsame; [exact Hr|reflexivity]].
      apply Htrain; [exact Hr|reflexivity].
    + apply Htrain; [exact Hr|reflexivity].
  - unfold _infer_prep.
    destruct (_text_to_ids _ _ _ _) as [arr|e];
      [|apply Hsame; [exact Hr|reflexivity]].
    pose proof (build_model_no_lm self 0 (BaseModel.target_dim self) false Hr)
      as Hk.
    destruct (_build_model self 0 (BaseModel.target_dim self) false);
      exact Hk.
  - destruct (Hop seed_text max_length). reflexivity.
  - destruct (save_object self p fs) as [m Hm].
    destruct (save self p fs) as [o fs1]. simpl in *. rewrite Hm.
    apply Hsame; destruct self; [exact Hr|reflexivity].
Qed.

(** X28.  As long as [generate_text] is not called, require_lm stays
    off and the language-model head is compiled only where the training
    loss uses it: in every graph that a sequence of finetune, predict /
    predict_proba / featurize and save calls constructs, the head is
    there exactly when the graph is a training graph and the
    language-model loss coefficient is positive.  In particular no graph
    for inference has it. *)
Theorem lm_head_only_for_training (ops : list Operation) :
  forall (self : BaseModel.t E) (fs : gmap string (FileNode E)),
    require_lm self = false ->
    Forall (fun op => forall seed_text max_length,
                        op <> OpGenerateText seed_text max_length) ops ->
    let self' := fst (run_operations (self, fs) ops) in
    require_lm self' = false
    /\ exists new,
         graphs self' = new ++ graphs self
         /\ Forall (fun g => g_compile_lm g
                             = g_train g && Qlt_bool 0 (g_lm_loss_coef g)) new
         /\ Forall (fun g => g_train g = false -> g_compile_lm g = false) new.
Proof.
  induction ops as [|op ops IH]; intros self fs Hr Hops; cbv zeta.
  - simpl. split; [exact Hr|]. exists []. repeat split; constructor.
  - apply Forall_cons in Hops as [Hop Hops].
    change (run_operations (self, fs) (op :: ops))
      with (run_operations (run_operation (self, fs) op) ops).
    destruct (operation_no_lm self fs op Hr Hop) as (Hr1 & new1 & Hg1 & Hn1).
    destruct (run_operation (self, fs) op) as [self1 fs1]. simpl in *.
    destruct (IH self1 fs1 Hr1 Hops) as (Hr2 & new2 & Hg2 & Hn2 & _).
    split; [exact Hr2|]. exists (new2 ++ new1).
    split; [rewrite Hg2, Hg1, app_assoc; reflexivity|].
    assert (Hall : Forall lm_head_as_trained (new2 ++ new1))
      by (apply Forall_app; split; assumption).
    split; [exact Hall|].
    eapply Forall_impl; [exact Hall|]. intros g Hg Htr.
    unfold lm_head_as_trained in Hg. rewrite Hg, Htr. reflexivity.
Qed.

Lemma np_take_error {A} (Y : list A) (idxs : list nat) (e : exn) :
  np_take Y idxs = Raise e -> e = IndexError.
Proof.
  unfold np_take. induction idxs as [|i idxs IH]; simpl; [discriminate|].
  destruct (Y !! i); simpl; [|congruence].
  destruct (mapM _ idxs); simpl; [discriminate|]. intros [= <-]. auto.
Qed.

Lemma np_take_out_of_range {A} (Y : list A) (idxs : list nat) (i : nat) :
  i ∈ idxs -> (length Y <= i)%nat -> np_take Y idxs = Raise IndexError.
Proof.
  intros Hi Hlen.
  destruct (np_take Y idxs) as [ys|e] eqn:Htake.
  - exfalso. unfold np_take in Htake. revert ys Htake.
    induction Hi as [i idxs|i j idxs Hi IH]; intros ys Htake; simpl in Htake.
    + rewrite (lookup_ge_None_2 Y i Hlen) in Htake. discriminate.
    + destruct (Y !! j); simpl in Htake; [|discriminate].
      destruct (mapM _ idxs) as [ys'|]; simpl in Htake; [|discriminate].
      exact (IH Hlen _ eq_refl).
  - f_equal. exact (np_take_error _ _ _ Htake).
Qed.

(** X30.  Labels that do not cover the training split: when some index
    of the training split has no label (Y is shorter than the inputs),
    [finetune] raises IndexError at [Y[train_idxs]]; the label encoder has
    already been replaced by a new, unfitted one, and nothing else has
    changed. *)
Theorem finetune_labels_too_short (self : BaseModel.t E)
    (Xs : list (list string)) (Y : list string) (batch_size : option Z)
    (steps : list StepCosts) (arr : ArrayEncodedOutput.t) (i : nat) :
  _text_to_ids self Xs None None = Ok arr ->
  i ∈ fst (train_test_split
             (seq 0 (length (ArrayEncodedOutput.token_ids arr)))
             (Config.val_size (config self))) ->
  (length Y <= i)%nat ->
  finetune self Xs (Some Y) batch_size steps
  = Raises (set_label_encoder (Some _target_encoder) self) IndexError.
Proof.
  intros Htext Hi Hlen. unfold finetune. rewrite Htext.
  rewrite bool_decide_eq_false_2 by discriminate. unfold _training_loop.
  simpl config.
  destruct (train_test_split _ _) as [train_idxs val_idxs]. simpl in Hi.
  rewrite (np_take_out_of_range Y train_idxs i Hi Hlen). reflexivity.
Qed.

End Finetune.

(** * Closed examples

    The theorems above at the small instance of the collaborators. *)

Definition demo_model (max_length : Z) : BaseModel.t (list string) :=
  __init__ (demo_config max_length).

Lemma string_app_assoc (x y z : string) : (x +:+ y) +:+ z = x +:+ (y +:+ z).
Proof.
  induction x as [|c x IH]; [reflexivity|].
  change (String c ((x +:+ y) +:+ z) = String c (x +:+ (y +:+ z))).
  f_equal. exact IH.
Qed.

Lemma demo_decode_app (a b : list Z) :
  demo_decode (a ++ b) = demo_decode a +:+ demo_decode b.
Proof.
  induction a as [|tok a IH]; [reflexivity|].
  rewrite <- app_comm_cons. cbn [demo_decode].
  rewrite IH. symmetry. apply string_app_assoc.
Qed.

Lemma graph_consistent_init {E} (cfg : Config.t) :
  graph_consistent (__init__ (E := E) cfg).
Proof. split; [constructor|discriminate]. Qed.

Lemma array_format_mask_witness :
  exists arr,
    _array_format (demo_config 6) demo_encoder (demo_encode ["hi"; "hello!"])
    = Ok arr
    /\ EncodedOutput.token_ids (demo_encode ["hi"; "hello!"]) !! 0%nat
       = Some [104; 105]
    /\ (1 <= length [104; 105] <= Z.to_nat (Config.max_length (demo_config 6)))%nat
    /\ exists row : list Q,
         ArrayEncodedOutput.mask arr !! 0%nat = Some row
         /\ length row = Z.to_nat (Config.max_length (demo_config 6))
         /\ row !! 0%nat = Some 0%Q
         /\ (forall j, (1 <= j < length [104; 105])%nat -> row !! j = Some 1%Q)
         /\ (forall j,
               (length [104; 105] <= j
                < Z.to_nat (Config.max_length (demo_config 6)))%nat ->
               row !! j = Some 0%Q).
Proof.
  eexists. split; [vm_compute; reflexivity|]. split; [reflexivity|].
  split; [simpl; lia|].
  apply (array_format_mask (demo_config 6) demo_encoder
           (demo_encode ["hi"; "hello!"]) _ 0%nat [104; 105]);
    [vm_compute; reflexivity|reflexivity|simpl; lia].
Defined.

Lemma load_base_model_first_parameter_witness :
  (Config.interpolate_pos_embed (demo_config 6) = true
   \/ Config.max_length (demo_config 6) <= 512)
  /\ exists w reg_mask,
       _load_base_model demo_encoder demo_stored_params demo_randn
         demo_interpolate (demo_config 6) = Ok w
       /\ reg_masks w = [MaskArray reg_mask; MaskScalar 1]
       /\ length (nd_rows reg_mask) = 11%nat
       /\ nd_rows reg_mask !! 1%nat = Some [1%Q]
       /\ nd_rows reg_mask !! 2%nat = Some [0%Q]
       /\ nd_rows reg_mask !! 5%nat = Some [1%Q].
Proof.
  split; [right; simpl; lia|].
  destruct (load_base_model_first_parameter demo_encoder demo_stored_params
              demo_randn demo_interpolate (demo_config 6)
              {| nd_rows := replicate 512 [(1 # 2)%Q]; nd_cols := 1 |}
              {| nd_rows := [[1%Q]; [2%Q]]; nd_cols := 1 |}
              [ {| nd_rows := [[7%Q]]; nd_cols := 1 |} ])
    as (w & first & reg_mask & Hload & _ & _ & Hmasks & _);
    [reflexivity|right; simpl; lia|reflexivity|reflexivity|].
  exists w, reg_mask. split; [exact Hload|].
  vm_compute in Hload. injection Hload as <-.
  injection Hmasks as <-.
  repeat split; reflexivity.
Defined.

Lemma no_interpolation_length_check_witness :
  (Config.interpolate_pos_embed (BaseModel.config (demo_model 600)) = false
   /\ 512 < Config.max_length (BaseModel.config (demo_model 600))
   /\ _build_model demo_encoder demo_stored_params demo_randn demo_interpolate
        (demo_model 600) 0 None true
      = Raises (demo_model 600) ValueError)
  /\ (Config.interpolate_pos_embed (BaseModel.config (demo_model 6)) = false
      /\ Config.max_length (BaseModel.config (demo_model 6)) <= 512
      /\ exists w,
           _load_base_model demo_encoder demo_stored_params demo_randn
             demo_interpolate (demo_config 6) = Ok w
           /\ (fun a => length (nd_rows a)) <$> init_params w
              = [11%nat; 1%nat]).
Proof.
  split.
  - split; [reflexivity|]. split; [simpl; lia|].
    destruct (no_interpolation_length_check demo_encoder demo_stored_params
                demo_randn demo_interpolate demo_split demo_lm_predict
                demo_abspath (demo_model 600) 0 None true eq_refl)
      as [Hraises _].
    destruct (Hraises ltac:(simpl; lia)) as (_ & Hbuild & _). exact Hbuild.
  - split; [reflexivity|]. split; [simpl; lia|].
    destruct (no_interpolation_length_check demo_encoder demo_stored_params
                demo_randn demo_interpolate demo_split demo_lm_predict
                demo_abspath (demo_model 6) 0 None true eq_refl)
      as [_ Hfits].
    destruct (Hfits ltac:(simpl; lia)
                {| nd_rows := replicate 512 [(1 # 2)%Q]; nd_cols := 1 |}
                {| nd_rows := [[1%Q]; [2%Q]]; nd_cols := 1 |}
                [ {| nd_rows := [[7%Q]]; nd_cols := 1 |} ]
                eq_refl eq_refl eq_refl)
      as (w & first & Hload & Hparams & Hrows & _).
    exists w. split; [exact Hload|]. rewrite Hparams.
    rewrite fmap_cons, Hrows. reflexivity.
Defined.

Lemma generate_text_bounded_witness :
  fst (generate_text demo_encoder demo_stored_params demo_randn
         demo_interpolate demo_lm_predict (demo_model 6) "" None)
  = Returns
      (state_after
         (fst (generate_text demo_encoder demo_stored_params demo_randn
                 demo_interpolate demo_lm_predict (demo_model 6) "" None)))
      "_start_abcd"
  /\ Z.of_nat
       (iterations
          (snd (generate_text demo_encoder demo_stored_params demo_randn
                  demo_interpolate demo_lm_predict (demo_model 6) "" None)))
     <= 6
  /\ exists t, "_start_abcd" = TextEncoder.decode demo_encoder [256] +:+ t.
Proof.
  destruct (generate_text_bounded demo_encoder demo_stored_params demo_randn
              demo_interpolate demo_lm_predict (demo_model 6) "" None)
    as (_ & Hiter & _ & Hret).
  split; [vm_compute; reflexivity|].
  split; [apply Hiter; simpl; lia|].
  destruct (Hret _ "_start_abcd" ltac:(vm_compute; reflexivity))
    as (seed_ids & others & sampled & Hseed & _ & Hprefix).
  vm_compute in Hseed. injection Hseed as <- <-. apply Hprefix.
  intros a b; eexists; apply demo_decode_app.
Defined.


(* a model whose graph has been built, as [save] needs *)
Definition demo_built_model : BaseModel.t (list string) :=
  state_after
    (_infer_prep demo_encoder demo_stored_params demo_randn demo_interpolate
       (demo_model 6) [["ab"]] None).

Lemma save_records_path_witness :
  exists self' fs',
    save demo_abspath demo_built_model (Some "m") ∅ = (Returns self' (), fs')
    /\ BaseModel._load_from_file self' = None
    /\ (exists state,
          fs' !! "/work/m/model.pkl" = Some (PickleFile state)
          /\ s_load_from_file state = Some "/work/m")
    /\ exists loaded : BaseModel.t (list string),
         load "/work/m" fs' = Ok loaded
         /\ BaseModel._load_from_file loaded = Some "/work/m".
Proof.
  assert (Hsave : exists self' fs',
             save demo_abspath demo_built_model (Some "m") ∅
             = (Returns self' (), fs'))
    by (eexists _, _; vm_compute; reflexivity).
  destruct Hsave as (self' & fs' & Hsave). exists self', fs'.
  split; [exact Hsave|].
  destruct (save_records_path demo_encoder demo_stored_params demo_randn
              demo_interpolate demo_abspath demo_built_model self' "m" ∅ fs'
              Hsave)
    as (Hmark & _ & _ & _ & _ & Hpkl & loaded & Hload & Hpath & _).
  split; [exact Hmark|]. split.
  - eexists. split; [exact Hpkl|reflexivity].
  - exists loaded. split; [exact Hload|exact Hpath].
Defined.

(** ** The validation checks at the small instance

    The exact floats are one instance of the floats of the loop; a second
    one rounds every mean down to a whole number, as a float format with
    few digits does. *)

Lemma sum_not_NaN_inv (l : list fval) :
  foldr fadd (Fin 0) l <> NaN -> Forall (fun x => x <> NaN) l.
Proof.
  induction l as [|x l IH]; intros Hsum; [constructor|].
  simpl in Hsum. constructor.
  - intros ->. apply Hsum. reflexivity.
  - apply IH. intros Hl. rewrite Hl in Hsum. apply Hsum.
    destruct x; reflexivity.
Qed.

Lemma np_mean_inf (l : list fval) :
  PInf ∈ l -> fis_nan (np_mean l) = false -> np_mean l = PInf.
Proof.
  intros Hin Hnan. destruct l as [|x l]; [discriminate|].
  apply np_mean_PInf; [|exact Hin]. apply sum_not_NaN_inv.
  intros Hs. unfold np_mean in Hnan. rewrite Hs in Hnan. discriminate.
Qed.

Lemma fle_nan_l (x y : fval) : fis_nan x = true -> fle x y = false.
Proof. destruct x; simpl; congruence. Qed.

Lemma fle_nan_r (x y : fval) : fis_nan y = true -> fle x y = false.
Proof. destruct x, y; simpl; congruence. Qed.

Lemma fle_either (x y : fval) :
  fis_nan x = false -> fis_nan y = false ->
  fle x y = true \/ fle y x = true.
Proof.
  intros Hx Hy. destruct (fle x y) eqn:Hle; [left; reflexivity|right].
  apply fle_total; [destruct x|destruct y|exact Hle]; simpl in *; congruence.
Qed.

Lemma fle_inf (x : fval) : fis_nan x = false -> fle x PInf = true.
Proof. destruct x; simpl; congruence. Qed.

#[global] Instance fval_float : PyFloat fval :=
  {| f_inf := PInf;
     f_is_nan := fis_nan;
     f_le := fle;
     f_mean := np_mean;
     f_le_nan_l := fle_nan_l;
     f_le_nan_r := fle_nan_r;
     f_le_trans := fle_trans;
     f_le_total := fle_either;
     f_inf_not_nan := eq_refl;
     f_le_inf := fle_inf;
     f_mean_inf := np_mean_inf;
     f_mean_nil := eq_refl |}.

(* val_window_size, save_best_model and autosave_path as given, the rest
   as in the small configuration *)
Definition demo_config_saving (val_window_size : Z) (save_best_model : bool)
    (autosave_path : option string) : Config.t :=
  {| Config.max_length := 6;
     Config.batch_size := 2;
     Config.visible_gpus := [];
     Config.val_size := (1 # 2)%Q;
     Config.val_interval := 2;
     Config.val_window_size := val_window_size;
     Config.rolling_avg_decay := (9 # 10)%Q;
     Config.save_best_model := save_best_model;
     Config.autosave_path := autosave_path;
     Config.lm_loss_coef := (1 # 2)%Q;
     Config.interpolate_pos_embed := false;
     Config.n_embed := 1;
     Config.weight_stddev := (1 # 50)%Q;
     Config.n_epochs := 1 |}.

(* the validation part of [val_check] is the check of [validation_loop]
   at the exact floats, the save apart *)
Lemma val_check_locals (cfg : Config.t) (st : LoopState) (costs : list Q) :
  let locals (st : LoopState) :=
    {| cs_best_val_loss := best_val_loss st;
       cs_val_window := val_window st;
       cs_n_checks := n_checks st;
       cs_save_calls := save_calls st |} in
  locals (val_check cfg st costs)
  = check_locals (Config.save_best_model cfg) (locals st)
      (Fin (sum_val_loss costs)).
Proof.
  cbv zeta. unfold val_check, check_locals. cbn [cs_best_val_loss cs_val_window
    cs_n_checks cs_save_calls f_le f_mean fval_float].
  destruct (fle _ _); reflexivity.
Qed.

(* a float format with few digits: every mean is rounded down to a whole
   number *)
Definition coarse_mean (l : list fval) : fval :=
  match np_mean l with
  | Fin q => Fin (inject_Z (Qnum q / Z.pos (Qden q)))
  | x => x
  end.

Lemma coarse_mean_inf (l : list fval) :
  PInf ∈ l -> fis_nan (coarse_mean l) = false -> coarse_mean l = PInf.
Proof.
  intros Hin Hnan. unfold coarse_mean in *.
  destruct (np_mean l) as [q| |] eqn:Hm; [|reflexivity|discriminate].
  rewrite (np_mean_inf l Hin) in Hm; [discriminate|].
  rewrite Hm. reflexivity.
Qed.

Definition coarse_float : PyFloat fval :=
  {| f_inf := PInf;
     f_is_nan := fis_nan;
     f_le := fle;
     f_mean := coarse_mean;
     f_le_nan_l := fle_nan_l;
     f_le_nan_r := fle_nan_r;
     f_le_trans := fle_trans;
     f_le_total := fle_either;
     f_inf_not_nan := eq_refl;
     f_le_inf := fle_inf;
     f_mean_inf := coarse_mean_inf;
     f_mean_nil := eq_refl |}.

(* With the totals 1, 4 and 3/2 and a window of two, the exact means at
   the second and third check are 5/2 and 11/4: the third check is not
   accepted.  Rounded down, both means are 2: the third check is accepted
   and [self.save] is called a third time. *)
Example rounded_means_tie :
  (exists st,
     validation_loop demo_abspath (demo_config_saving 2 true None)
       demo_built_model ∅ (checks_start (demo_config_saving 2 true None))
       [Fin 1; Fin 4; Fin (3 # 2)]
     = (Returns demo_built_model st, ∅)
     /\ cs_save_calls st = [1%nat; 2%nat])
  /\ exists st,
       validation_loop (PF := coarse_float) demo_abspath
         (demo_config_saving 2 true None) demo_built_model ∅
         (checks_start (PF := coarse_float) (demo_config_saving 2 true None))
         [Fin 1; Fin 4; Fin (3 # 2)]
       = (Returns demo_built_model st, ∅)
       /\ cs_save_calls st = [1%nat; 2%nat; 3%nat].
Proof.
  split; eexists; (split; [vm_compute; reflexivity|reflexivity]).
Qed.

(* and so the checks of a run over the global steps are those of
   [validation_loop] on the totals of the checks *)
Lemma validation_checks_locals (cfg : Config.t) (checks : list (list Q)) :
  let st := validation_checks cfg checks in
  {| cs_best_val_loss := best_val_loss st;
     cs_val_window := val_window st;
     cs_n_checks := n_checks st;
     cs_save_calls := save_calls st |}
  = foldl (check_locals (Config.save_best_model cfg)) (checks_start cfg)
      ((fun costs => Fin (sum_val_loss costs)) <$> checks).
Proof.
  cbv zeta. unfold validation_checks.
  change (checks_start cfg)
    with {| cs_best_val_loss := best_val_loss (loop_start cfg);
            cs_val_window := val_window (loop_start cfg);
            cs_n_checks := n_checks (loop_start cfg);
            cs_save_calls := save_calls (loop_start cfg) |}.
  generalize (loop_start cfg).
  induction checks as [|costs checks IH]; intros st; [reflexivity|].
  rewrite fmap_cons. cbn [foldl]. rewrite IH.
  f_equal. apply (val_check_locals cfg st costs).
Qed.

Lemma rolling_window_best_witness :
  exists self' st fs',
    validation_loop demo_abspath (demo_config_saving 2 true (Some "best"))
      demo_built_model ∅ (checks_start (demo_config_saving 2 true (Some "best")))
      [Fin 3; Fin 2; Fin 2]
    = (Returns self' st, fs')
    /\ least_in (cs_best_val_loss st)
         (contiguous_means 2 [Fin 3; Fin 2; Fin 2])
    /\ (forall k, k ∈ cs_save_calls st
                  <-> (1 <= k <= 3)%nat
                      /\ not_above_earlier 2 [Fin 3; Fin 2; Fin 2] k)
    /\ checkpoint_at demo_abspath "best" demo_built_model fs'.
Proof.
  assert (Hrun : exists self' st fs',
             validation_loop demo_abspath
               (demo_config_saving 2 true (Some "best")) demo_built_model ∅
               (checks_start (demo_config_saving 2 true (Some "best")))
               [Fin 3; Fin 2; Fin 2]
             = (Returns self' st, fs')
             /\ cs_save_calls st <> [])
    by (eexists _, _, _; split; [vm_compute; reflexivity|discriminate]).
  destruct Hrun as (self' & st & fs' & Hrun & Hsaves).
  exists self', st, fs'. split; [exact Hrun|].
  destruct (rolling_window_best demo_abspath
              (demo_config_saving 2 true (Some "best")) demo_built_model ∅
              [Fin 3; Fin 2; Fin 2])
    as (_ & Hbest);
    [simpl; lia|simpl; lia
    |intros [|[|[|[|k]]]] Hk; simpl in Hk; try lia; reflexivity|].
  destruct (Hbest self' st fs' Hrun) as (Hleast & Hcalls & _ & Hfiles).
  split; [exact Hleast|]. split.
  - intros k. rewrite (Hcalls k). split.
    + intros (_ & Hk & Hna). split; assumption.
    + intros (Hk & Hna). split; [reflexivity|]. split; assumption.
  - apply (Hfiles "best" eq_refl Hsaves).
Defined.

Lemma first_checks_use_infinite_window_witness :
  exists self' st fs',
    validation_loop demo_abspath (demo_config_saving 2 true (Some "best"))
      demo_built_model ∅ (checks_start (demo_config_saving 2 true (Some "best")))
      [Fin 3]
    = (Returns self' st, fs')
    /\ np_mean (cs_val_window st) = PInf
    /\ cs_best_val_loss st = PInf
    /\ cs_save_calls st = [1%nat]
    /\ checkpoint_at demo_abspath "best" demo_built_model fs'.
Proof.
  assert (Hrun : exists self' st fs',
             validation_loop demo_abspath
               (demo_config_saving 2 true (Some "best")) demo_built_model ∅
               (checks_start (demo_config_saving 2 true (Some "best")))
               [Fin 3]
             = (Returns self' st, fs'))
    by (eexists _, _, _; vm_compute; reflexivity).
  destruct Hrun as (self' & st & fs' & Hrun).
  exists self', st, fs'. split; [exact Hrun|].
  destruct (first_checks_use_infinite_window demo_abspath
              (demo_config_saving 2 true (Some "best")) demo_built_model ∅
              [Fin 3])
    as (_ & _ & _ & Hfirst);
    [simpl; lia|intros [|[|i]] Hi; simpl in Hi; try lia; reflexivity|].
  destruct (Hfirst self' st fs' Hrun) as (Hearly & Hone).
  destruct (Hone eq_refl) as (_ & _ & Hbest & Hsave).
  destruct (Hsave eq_refl) as (Hcalls & _ & Hfiles).
  split; [apply Hearly; simpl; lia|].
  split; [apply Hbest; simpl; lia|].
  split; [exact Hcalls|]. apply (Hfiles "best" eq_refl).
Defined.

(** C1 (runs for which the claim fails).  With a window of size 0 the
    mean is nan at every check: the best value stays +infinity, which is
    the mean of no window, and although the first check has no earlier
    check to compare with, [self.save] is not called.  With a first total
    that is nan and a window of size 1, [self.save] is called at the second
    check, whose mean is not less than or equal to the first, nan.
    Without save_best_model no check calls [self.save].  Without an
    autosave path the calls write nothing.  With an autosave path at which
    there is a file, the first call raises ValueError and the run ends. *)
Lemma rolling_window_claim_fails :
  (exists st,
     validation_loop demo_abspath (demo_config_saving 0 true None)
       demo_built_model ∅ (checks_start (demo_config_saving 0 true None))
       [Fin 1; Fin 2]
     = (Returns demo_built_model st, ∅)
     /\ cs_best_val_loss st = PInf
     /\ ~ least_in (cs_best_val_loss st) (contiguous_means 0 [Fin 1; Fin 2])
     /\ not_above_earlier 0 [Fin 1; Fin 2] 1
     /\ cs_save_calls st = [])
  /\ (exists st,
        validation_loop demo_abspath (demo_config_saving 1 true None)
          demo_built_model ∅ (checks_start (demo_config_saving 1 true None))
          [NaN; Fin 1]
        = (Returns demo_built_model st, ∅)
        /\ cs_save_calls st = [2%nat]
        /\ ~ not_above_earlier 1 [NaN; Fin 1] 2)
  /\ (exists st,
        validation_loop demo_abspath (demo_config_saving 1 false (Some "best"))
          demo_built_model ∅
          (checks_start (demo_config_saving 1 false (Some "best")))
          [Fin 2; Fin 1]
        = (Returns demo_built_model st, ∅)
        /\ not_above_earlier 1 [Fin 2; Fin 1] 2
        /\ cs_save_calls st = [])
  /\ (exists st,
        validation_loop demo_abspath (demo_config_saving 1 true None)
          demo_built_model ∅ (checks_start (demo_config_saving 1 true None))
          [Fin 2; Fin 1]
        = (Returns demo_built_model st, ∅)
        /\ cs_save_calls st = [1%nat; 2%nat])
  /\ exists self',
       validation_loop demo_abspath (demo_config_saving 1 true (Some "best"))
         demo_built_model {["/work/best" := OtherFile]}
         (checks_start (demo_config_saving 1 true (Some "best")))
         [Fin 2; Fin 1]
       = (Raises self' ValueError, {["/work/best" := OtherFile]}).
Proof.
  split; [|split; [|split; [|split]]].
  - eexists. split; [vm_compute; reflexivity|]. split; [reflexivity|].
    split; [|split; [|reflexivity]].
    + intros [Hin _]. vm_compute in Hin.
      repeat (apply elem_of_cons in Hin as [Hin|Hin]; [discriminate|]).
      apply elem_of_nil in Hin. exact Hin.
    + intros j Hj. lia.
  - eexists. split; [vm_compute; reflexivity|]. split; [reflexivity|].
    intros Hna. specialize (Hna 1%nat ltac:(lia)). discriminate Hna.
  - eexists. split; [vm_compute; reflexivity|]. split; [|reflexivity].
    intros j Hj. assert (j = 1%nat) as -> by lia. reflexivity.
  - eexists. split; [vm_compute; reflexivity|reflexivity].
  - eexists. vm_compute. reflexivity.
Qed.

(** C8 (first checks for which the claim fails).  With a window of size 0
    the mean at the first check is nan: the check is not accepted and
    nothing is saved.  With a window of size 2 and a first total that is
    nan, the mean at the first check is nan, not +infinity, and the check
    is not accepted.  With save_best_model and no autosave path the first
    check calls [self.save], which writes nothing.  With an autosave path
    at which there is a file, the call raises ValueError and the run
    ends. *)
Lemma first_check_claim_fails :
  (exists st,
     validation_loop demo_abspath (demo_config_saving 0 true (Some "best"))
       demo_built_model ∅
       (checks_start (demo_config_saving 0 true (Some "best"))) [Fin 1]
     = (Returns demo_built_model st, ∅)
     /\ np_mean (cs_val_window st) = NaN
     /\ cs_save_calls st = [])
  /\ (exists st,
        validation_loop demo_abspath (demo_config_saving 2 true (Some "best"))
          demo_built_model ∅
          (checks_start (demo_config_saving 2 true (Some "best"))) [NaN]
        = (Returns demo_built_model st, ∅)
        /\ cs_val_window st = [PInf; NaN]
        /\ np_mean (cs_val_window st) = NaN
        /\ fle (np_mean (cs_val_window st)) PInf = false
        /\ cs_save_calls st = [])
  /\ (exists st,
        validation_loop demo_abspath (demo_config_saving 2 true None)
          demo_built_model ∅ (checks_start (demo_config_saving 2 true None))
          [Fin 1]
        = (Returns demo_built_model st, ∅)
        /\ cs_save_calls st = [1%nat])
  /\ exists self',
       validation_loop demo_abspath (demo_config_saving 2 true (Some "best"))
         demo_built_model {["/work/best" := OtherFile]}
         (checks_start (demo_config_saving 2 true (Some "best"))) [Fin 1]
       = (Raises self' ValueError, {["/work/best" := OtherFile]}).
Proof.
  split; [|split; [|split]].
  - eexists. split; [vm_compute; reflexivity|]. split; reflexivity.
  - eexists. split; [vm_compute; reflexivity|]. repeat split; reflexivity.
  - eexists. split; [vm_compute; reflexivity|reflexivity].
  - eexists. vm_compute. reflexivity.
Qed.

(* [save] makes the directories that miss above its path; a file above
   the path is an error, with the load marker left at the path *)
Example save_makes_parents :
  exists self' fs',
    save demo_abspath demo_built_model (Some "a/b") ∅ = (Returns self' (), fs')
    /\ fs' !! "/work/a" = Some Directory
    /\ fs' !! "/work/a/b" = Some Directory
    /\ fs' !! "/work/a/b/model" = Some CheckpointFiles.
Proof.
  eexists _, _. split; [vm_compute; reflexivity|].
  split; [|split]; vm_compute; reflexivity.
Qed.

Example save_under_a_file :
  save demo_abspath demo_built_model (Some "a/b") {["/work/a" := OtherFile]}
  = (Raises (set_load_from_file (Some "/work/a/b") demo_built_model)
       NotADirectoryError,
     {["/work/a" := OtherFile]}).
Proof. vm_compute. reflexivity. Qed.

(** C4 (the code at a seed of two tokens).  With the seed "hi" and a
    session that samples the tokens 97, 98, 99, 100, the loop of
    [generate_text] runs four times and the running sequence grows to
    start, 104, 105, 97, 98, 99, 100; yet all four forward passes are fed
    the same array, the one of the seed alone: 104, 105 and padding, with
    neither the start token nor any sampled token in it. *)
Theorem generate_text_feeds_seed_each_time :
  decoded_tokens
    (snd (generate_text demo_encoder demo_stored_params demo_randn
            demo_interpolate demo_lm_predict (demo_model 6) "hi" None))
  = Ok [256; 104; 105; 97; 98; 99; 100]
  /\ ArrayEncodedOutput.token_ids
     <$> fed (snd (generate_text demo_encoder demo_stored_params demo_randn
                     demo_interpolate demo_lm_predict (demo_model 6) "hi" None))
     = replicate 4
         [[(104, 256); (105, 257); (0, 258); (0, 259); (0, 260); (0, 261)]].
Proof. split; vm_compute; reflexivity. Qed.

(* the small configuration with embeddings of two columns, where the
   stored tables have one *)
Definition demo_config_wide (max_length : Z) : Config.t :=
  {| Config.max_length := max_length;
     Config.batch_size := 2;
     Config.visible_gpus := [];
     Config.val_size := (1 # 2)%Q;
     Config.val_interval := 2;
     Config.val_window_size := 2;
     Config.rolling_avg_decay := (9 # 10)%Q;
     Config.save_best_model := true;
     Config.autosave_path := None;
     Config.lm_loss_coef := (1 # 2)%Q;
     Config.interpolate_pos_embed := false;
     Config.n_embed := 2;
     Config.weight_stddev := (1 # 50)%Q;
     Config.n_epochs := 1 |}.

(** C2 (configurations for which the claim fails).  Without interpolation
    and with max_length = 600, [_load_base_model] raises ValueError and
    returns no parameter and no mask.  With max_length = 6 and n_embed = 2,
    where the stored tables have one column, the concatenation raises
    ValueError.  With max_length = -1 it returns, and the positional block
    is the slice [:-1] of the 512 stored rows, 511 rows after the two
    token rows and the three special-token rows, not a table truncated to
    max_length. *)
Lemma load_base_model_not_every_configuration :
  (Config.interpolate_pos_embed (demo_config 600) = false
   /\ Config.max_length (demo_config 600) = 600
   /\ _load_base_model demo_encoder demo_stored_params demo_randn
        demo_interpolate (demo_config 600) = Raise ValueError
   /\ ~ (exists w,
           _load_base_model demo_encoder demo_stored_params demo_randn
             demo_interpolate (demo_config 600) = Ok w))
  /\ (Config.max_length (demo_config_wide 6) = 6
      /\ _load_base_model demo_encoder demo_stored_params demo_randn
           demo_interpolate (demo_config_wide 6) = Raise ValueError)
  /\ exists w first rest,
       _load_base_model demo_encoder demo_stored_params demo_randn
         demo_interpolate (demo_config (-1)) = Ok w
       /\ init_params w = first :: rest
       /\ length (nd_rows first) = (2 + 3 + 511)%nat.
Proof.
  split; [|split].
  - split; [reflexivity|]. split; [reflexivity|]. split; [reflexivity|].
    intros [w Hw]. discriminate Hw.
  - split; reflexivity.
  - eexists _, _, _. split; [vm_compute; reflexivity|].
    split; [reflexivity|]. vm_compute. reflexivity.
Qed.

(** C3 (configurations with max_length <= 512 for which the second half
    fails).  Without interpolation: with max_length = 6 and n_embed = 2,
    where the stored tables have one column, [_load_base_model] raises
    ValueError; with max_length = -1 it returns and the positional block
    has 511 rows, the slice [:-1] of the stored table. *)
Lemma no_interpolation_short_table_fails :
  (Config.interpolate_pos_embed (demo_config_wide 6) = false
   /\ Config.max_length (demo_config_wide 6) <= 512
   /\ _load_base_model demo_encoder demo_stored_params demo_randn
        demo_interpolate (demo_config_wide 6) = Raise ValueError)
  /\ (Config.interpolate_pos_embed (demo_config (-1)) = false
      /\ Config.max_length (demo_config (-1)) <= 512
      /\ exists w first rest,
           _load_base_model demo_encoder demo_stored_params demo_randn
             demo_interpolate (demo_config (-1)) = Ok w
           /\ init_params w = first :: rest
           /\ drop 5 (nd_rows first) = replicate 511 [(1 # 2)%Q]).
Proof.
  split.
  - split; [reflexivity|]. split; [simpl; lia|reflexivity].
  - split; [reflexivity|]. split; [simpl; lia|].
    eexists _, _, _. split; [vm_compute; reflexivity|].
    split; [reflexivity|]. vm_compute. reflexivity.
Qed.

(** C5 (a call that runs more than max_length iterations).  With
    max_length = 0 the bound of the loop falls back to config.max_length,
    here 6: the loop runs four times with the seed "hi", and not at most
    max_length = 0 times.  With a decoder that writes the start token as
    _start_, the string returned begins with that text and not with the
    text of the seed tokens. *)
Lemma generate_text_not_bounded_by_max_length :
  iterations
    (snd (generate_text demo_encoder demo_stored_params demo_randn
            demo_interpolate demo_lm_predict (demo_model 6) "hi" (Some 0)))
  = 4%nat
  /\ fst (generate_text demo_encoder demo_stored_params demo_randn
            demo_interpolate demo_lm_predict (demo_model 6) "hi" (Some 0))
     = Returns
         (state_after
            (fst (generate_text demo_encoder demo_stored_params demo_randn
                    demo_interpolate demo_lm_predict (demo_model 6) "hi"
                    (Some 0))))
         "_start_hiabcd"
  /\ TextEncoder.decode demo_encoder
       (default []
          (EncodedOutput.token_ids
             (TextEncoder._encode demo_encoder ["hi"]) !! 0%nat))
     = "hi".
Proof.
  split; [vm_compute; reflexivity|].
  split; vm_compute; reflexivity.
Qed.


(** ** The further properties at the small instance *)

(* the small model after a [finetune] without labels *)
Definition demo_trained_model : BaseModel.t (list string) :=
  state_after
    (finetune demo_encoder demo_stored_params demo_randn demo_interpolate
       demo_split (demo_model 6) [["ab"; "cd"; "ef"]] None None demo_steps).

(* the files after the built model was saved to "m" *)
Definition demo_saved_files : gmap string (FileNode (list string)) :=
  snd (save demo_abspath demo_built_model (Some "m") ∅).

Lemma array_format_tokens_witness :
  exists arr row,
    _array_format (demo_config 6) demo_encoder (demo_encode ["hi"; "hello!"])
    = Ok arr
    /\ ArrayEncodedOutput.token_ids arr !! 0%nat = Some row
    /\ length row = 6%nat
    /\ row !! 1%nat = Some (105, 257)
    /\ row !! 4%nat = Some (0, 260).
Proof.
  assert (Hfmt : exists arr,
             _array_format (demo_config 6) demo_encoder
               (demo_encode ["hi"; "hello!"]) = Ok arr)
    by (eexists; vm_compute; reflexivity).
  destruct Hfmt as [arr Hfmt].
  destruct (array_format_tokens (demo_config 6) demo_encoder
              (demo_encode ["hi"; "hello!"]) arr 0 [104; 105] Hfmt eq_refl
              ltac:(simpl; lia)
              ltac:(repeat constructor; vm_compute; discriminate)
              ltac:(vm_compute; discriminate)
              ltac:(vm_compute; discriminate))
    as (row & Hrow & Hlen & Htok & Hpad).
  exists arr, row. split; [exact Hfmt|]. split; [exact Hrow|].
  split; [exact Hlen|]. split.
  - exact (Htok 1%nat 105 eq_refl).
  - apply (Hpad 4%nat). simpl. lia.
Defined.

Lemma array_format_too_long_witness :
  _array_format (demo_config 2) demo_encoder (demo_encode ["hello"])
  = Raise ValueError.
Proof.
  apply (array_format_too_long (demo_config 2) demo_encoder
           (demo_encode ["hello"]) 0 [104; 101; 108; 108; 111] eq_refl
           ltac:(simpl; lia) ltac:(simpl; lia)).
  reflexivity.
Defined.

Lemma array_format_short_mask_witness :
  exists arr,
    _array_format (demo_config 6) demo_encoder (demo_encode ["a"; "hello!"])
    = Ok arr
    /\ ArrayEncodedOutput.mask arr !! 0%nat = Some (replicate 6 0%Q).
Proof.
  assert (Hfmt : exists arr,
             _array_format (demo_config 6) demo_encoder
               (demo_encode ["a"; "hello!"]) = Ok arr)
    by (eexists; vm_compute; reflexivity).
  destruct Hfmt as [arr Hfmt]. exists arr. split; [exact Hfmt|].
  exact (array_format_short_mask (demo_config 6) demo_encoder
           (demo_encode ["a"; "hello!"]) arr 0 [97] Hfmt eq_refl
           ltac:(simpl; lia)).
Defined.

Lemma array_format_labels_witness :
  exists arr rows,
    _array_format (demo_config 3) demo_encoder demo_labelled = Ok arr
    /\ ArrayEncodedOutput.labels arr = Some rows
    /\ rows !! 0%nat = Some ["a"; "b"; PAD_TOKEN]
    /\ rows !! 1%nat = Some ["c"; PAD_TOKEN; PAD_TOKEN].
Proof.
  assert (Hfmt : exists arr,
             _array_format (demo_config 3) demo_encoder demo_labelled = Ok arr)
    by (eexists; vm_compute; reflexivity).
  destruct Hfmt as [arr Hfmt].
  destruct (array_format_labels (demo_config 3) demo_encoder demo_labelled arr
              Hfmt) as [_ Hlab].
  destruct (Hlab [["a"; "b"]; ["c"]] 0%nat [1; 2] ["a"; "b"] eq_refl eq_refl
              eq_refl eq_refl ltac:(simpl; lia)) as (rows & Hrows & Hr0).
  destruct (Hlab [["a"; "b"]; ["c"]] 1%nat [3] ["c"] eq_refl eq_refl
              eq_refl eq_refl ltac:(simpl; lia)) as (rows' & Hrows' & Hr1).
  exists arr, rows. split; [exact Hfmt|]. split; [exact Hrows|].
  split; [exact Hr0|].
  rewrite Hrows in Hrows'. injection Hrows' as <-. exact Hr1.
Defined.

Lemma text_to_ids_shape_witness :
  exists arr,
    _text_to_ids demo_encoder (demo_model 6) [["ab"; "cd"]] None (Some 4)
    = Ok arr
    /\ length (ArrayEncodedOutput.token_ids arr) = 2%nat
    /\ Forall (fun row => length row = 6%nat) (ArrayEncodedOutput.token_ids arr)
    /\ Forall (fun row => length row = 6%nat) (ArrayEncodedOutput.mask arr).
Proof.
  assert (Hfmt : exists arr,
             _text_to_ids demo_encoder (demo_model 6) [["ab"; "cd"]] None
               (Some 4) = Ok arr)
    by (eexists; vm_compute; reflexivity).
  destruct Hfmt as [arr Hfmt].
  destruct (text_to_ids_shape demo_encoder (demo_model 6) [["ab"; "cd"]] None
              (Some 4) arr Hfmt) as (Hn & _ & Hx & Hm).
  exists arr. split; [exact Hfmt|]. split; [exact Hn|].
  split; [exact Hx|exact Hm].
Defined.

Lemma build_model_twice_witness :
  exists self1,
    _build_model demo_encoder demo_stored_params demo_randn demo_interpolate
      demo_trained_model 5 None true = Returns self1 ()
    /\ is_trained self1 = true
    /\ _build_model demo_encoder demo_stored_params demo_randn demo_interpolate
         self1 9 None true = Returns self1 ().
Proof.
  assert (Hb : exists self1,
             _build_model demo_encoder demo_stored_params demo_randn
               demo_interpolate demo_trained_model 5 None true
             = Returns self1 () /\ is_trained self1 = true)
    by (eexists; split; vm_compute; reflexivity).
  destruct Hb as (self1 & Hb & Ht). exists self1.
  split; [exact Hb|]. split; [exact Ht|].
  exact (build_model_twice demo_encoder demo_stored_params demo_randn
           demo_interpolate demo_trained_model self1 5 9 None true Hb Ht).
Defined.

Lemma finetune_again_keeps_graph_witness :
  exists self1 run,
    finetune demo_encoder demo_stored_params demo_randn demo_interpolate
      demo_split (demo_model 6) [["ab"; "cd"; "ef"]] None None demo_steps
    = Returns self1 run
    /\ graphs
         (state_after
            (finetune demo_encoder demo_stored_params demo_randn
               demo_interpolate demo_split self1 [["xy"; "z"]] None (Some 1)
               (take 2 demo_steps)))
       = graphs self1.
Proof.
  assert (Hfin : exists self1 run,
             finetune demo_encoder demo_stored_params demo_randn
               demo_interpolate demo_split (demo_model 6) [["ab"; "cd"; "ef"]]
               None None demo_steps = Returns self1 run)
    by (eexists _, _; vm_compute; reflexivity).
  destruct Hfin as (self1 & run & Hfin). exists self1, run.
  split; [exact Hfin|].
  apply (finetune_again_keeps_graph demo_encoder demo_stored_params demo_randn
           demo_interpolate demo_split (demo_model 6) self1
           [["ab"; "cd"; "ef"]] None demo_steps run Hfin).
Defined.


Lemma trained_weights_kept_witness :
  is_trained demo_trained_model = true
  /\ weights
       (fst (run_operations demo_encoder demo_stored_params demo_randn
               demo_interpolate demo_split demo_lm_predict demo_abspath
               (demo_trained_model, ∅)
               [OpInfer [["ab"]] None; OpGenerateText "hi" None;
                OpFinetune [["ab"; "cd"]] None None demo_steps]))
     = weights demo_trained_model.
Proof.
  split; [reflexivity|].
  apply (trained_weights_kept demo_encoder demo_stored_params demo_randn
           demo_interpolate demo_split demo_lm_predict demo_abspath
           [OpInfer [["ab"]] None; OpGenerateText "hi" None;
            OpFinetune [["ab"; "cd"]] None None demo_steps]
           demo_trained_model ∅ eq_refl eq_refl ltac:(right; reflexivity)).
  repeat constructor; intros p; discriminate.
Defined.

Lemma generate_text_stops_at_eos_witness :
  exists self' sampled,
    fst (generate_text demo_encoder demo_stored_params demo_randn
           demo_interpolate demo_lm_predict (demo_model 6) "hi" None)
    = Returns self' "_start_hiabcd"
    /\ "_start_hiabcd"
       = TextEncoder.decode demo_encoder (256 :: [104; 105] ++ sampled)
    /\ Z.of_nat (length sampled) <= 4.
Proof.
  assert (Hret : exists self',
             fst (generate_text demo_encoder demo_stored_params demo_randn
                    demo_interpolate demo_lm_predict (demo_model 6) "hi" None)
             = Returns self' "_start_hiabcd")
    by (eexists; vm_compute; reflexivity).
  destruct Hret as [self' Hret].
  destruct (generate_text_stops_at_eos demo_encoder demo_stored_params
              demo_randn demo_interpolate demo_lm_predict (demo_model 6) self'
              "hi" None "_start_hiabcd" Hret)
    as (seed_ids & others & sampled & Hseed & Htext & _ & _ & Hle & _).
  vm_compute in Hseed. injection Hseed as <- <-.
  exists self', sampled. split; [exact Hret|]. split; [exact Htext|].
  exact Hle.
Defined.

Lemma generate_text_short_witness :
  exists self',
    generate_text demo_encoder demo_stored_params demo_randn demo_interpolate
      demo_lm_predict (demo_model 6) "hello, world" (Some 2)
    = (Returns self' "_start_hello, world",
       {| iterations := 0; fed := [];
          decoded_tokens := Ok (256 :: demo_tokens "hello, world") |}).
Proof.
  assert (Hload : exists w,
             _load_base_model demo_encoder demo_stored_params demo_randn
               demo_interpolate (BaseModel.config (demo_model 6)) = Ok w)
    by (eexists; vm_compute; reflexivity).
  destruct Hload as [w Hload].
  exact (generate_text_short demo_encoder demo_stored_params demo_randn
           demo_interpolate demo_lm_predict (demo_model 6) "hello, world"
           (Some 2) w (demo_tokens "hello, world") [] Hload eq_refl
           ltac:(simpl; lia)).
Defined.

Lemma generate_text_after_load_and_predict_witness :
  exists loaded m arr0 m',
    load "/work/m" demo_saved_files = Ok loaded
    /\ _infer_prep demo_encoder demo_stored_params demo_randn demo_interpolate
         loaded [["ab"]] None = Returns m arr0
    /\ fst (generate_text demo_encoder demo_stored_params demo_randn
              demo_interpolate demo_lm_predict m "hi" None)
       = Raises m' TypeError
    /\ require_lm m' = true.
Proof.
  assert (Hld : exists loaded,
             load "/work/m" demo_saved_files = Ok loaded
             /\ BaseModel._load_from_file loaded <> None)
    by (eexists; split; [vm_compute; reflexivity|discriminate]).
  destruct Hld as (loaded & Hld & Hmark).
  assert (Hinf : exists m arr0,
             _infer_prep demo_encoder demo_stored_params demo_randn
               demo_interpolate loaded [["ab"]] None = Returns m arr0
             /\ BaseModel.config m = demo_config 6).
  { vm_compute in Hld. injection Hld as <-.
    eexists _, _. split; vm_compute; reflexivity. }
  destruct Hinf as (m & arr0 & Hinf & Hcfg).
  assert (Hfmt : exists arr,
             _array_format (BaseModel.config m) demo_encoder
               (TextEncoder._encode demo_encoder ["hi"]) = Ok arr)
    by (rewrite Hcfg; eexists; vm_compute; reflexivity).
  destruct Hfmt as [arr Hfmt].
  destruct (generate_text_after_load_and_predict demo_encoder
              demo_stored_params demo_randn demo_interpolate demo_lm_predict
              "/work/m" demo_saved_files loaded m [["ab"]] None arr0 "hi" None
              [104; 105] [] arr Hld Hmark Hinf eq_refl Hfmt
              ltac:(rewrite Hcfg; simpl; lia))
    as (m' & Hraise & Hlm & _).
  exists loaded, m, arr0, m'. auto.
Defined.

Lemma finetune_val_interval_zero_witness :
  exists self',
    finetune demo_encoder demo_stored_params demo_randn demo_interpolate
      demo_split (__init__ (demo_config_with 0 2)) [["ab"; "cd"; "ef"]] None
      None demo_steps
    = Raises self' ZeroDivisionError
    /\ is_trained self' = true.
Proof.
  assert (Harr : exists arr,
             _text_to_ids demo_encoder
               (__init__ (E := list string) (demo_config_with 0 2))
               [["ab"; "cd"; "ef"]] None None = Ok arr)
    by (eexists; vm_compute; reflexivity).
  destruct Harr as [arr Harr].
  assert (Hload : exists w,
             _load_base_model demo_encoder demo_stored_params demo_randn
               demo_interpolate (demo_config_with 0 2) = Ok w)
    by (eexists; vm_compute; reflexivity).
  destruct Hload as [w Hload].
  destruct (finetune_val_interval_zero demo_encoder demo_stored_params
              demo_randn demo_interpolate demo_split
              (__init__ (demo_config_with 0 2)) [["ab"; "cd"; "ef"]] None
              demo_steps arr w Harr Hload ltac:(simpl; lia) eq_refl
              ltac:(discriminate))
    as (self' & Hraise & Ht & _).
  exists self'. auto.
Defined.

Lemma finetune_batch_size_zero_witness :
  exists self' e,
    finetune demo_encoder demo_stored_params demo_randn demo_interpolate
      demo_split (__init__ (demo_config_with 2 0)) [["ab"; "cd"; "ef"]] None
      (Some 0) demo_steps
    = Raises self' e
    /\ graphs self' = [].
Proof.
  destruct (finetune_batch_size_zero demo_encoder demo_stored_params
              demo_randn demo_interpolate demo_split
              (__init__ (demo_config_with 2 0)) [["ab"; "cd"; "ef"]] (Some 0)
              demo_steps eq_refl)
    as ((self' & e & Hraise & _ & Hgs & _) & _).
  exists self', e. split; [exact Hraise|exact Hgs].
Defined.




Lemma finetune_with_labels_witness :
  exists self' run g rest,
    finetune demo_encoder demo_stored_params demo_randn demo_interpolate
      demo_split (demo_model 6) [["ab"; "cd"; "ef"]] (Some ["p"; "q"; "r"])
      None demo_steps
    = Returns self' run
    /\ label_encoder self' = Some ["p"; "q"]
    /\ BaseModel.target_dim self' = Some 2
    /\ graphs self' = g :: rest
    /\ g_target_head g = true.
Proof.
  assert (Hfit : exists self' run,
             finetune demo_encoder demo_stored_params demo_randn
               demo_interpolate demo_split (demo_model 6)
               [["ab"; "cd"; "ef"]] (Some ["p"; "q"; "r"]) None demo_steps
             = Returns self' run)
    by (eexists _, _; vm_compute; reflexivity).
  destruct Hfit as (self' & run & Hfit).
  destruct (finetune_with_labels demo_encoder demo_stored_params demo_randn
              demo_interpolate demo_split (demo_model 6) self'
              [["ab"; "cd"; "ef"]] ["p"; "q"; "r"] None demo_steps run
              (graph_consistent_init _) Hfit)
    as (arr & y_train & y_val & g & rest & _ & _ & _ & _ & _ & _ & _ & _
        & Hgs & _ & _ & Hhead).
  exists self', run, g, rest. split; [exact Hfit|].
  vm_compute in Hfit. injection Hfit as <- <-.
  split; [reflexivity|]. split; [reflexivity|].
  split; [exact Hgs|exact Hhead].
Defined.


Lemma save_load_round_trip_witness :
  exists loaded : BaseModel.t (list string),
    load "/work/m" demo_saved_files = Ok loaded
    /\ BaseModel.config loaded = demo_config 6
    /\ is_trained loaded = false
    /\ graphs loaded = [].
Proof.
  assert (Hsave : exists self',
             save demo_abspath demo_built_model (Some "m") ∅
             = (Returns self' (), demo_saved_files))
    by (eexists; vm_compute; reflexivity).
  destruct Hsave as [self' Hsave].
  destruct (save_load_round_trip demo_abspath demo_built_model self' "m" ∅
              demo_saved_files Hsave)
    as (loaded & Hld & Hc & _ & _ & _ & Ht & _ & _ & _ & _ & Hg).
  exists loaded. auto.
Defined.

Lemma save_twice_witness :
  exists self',
    save demo_abspath demo_built_model (Some "m") ∅
    = (Returns self' (), demo_saved_files)
    /\ save demo_abspath self' (Some "m") demo_saved_files
       = (Returns self' (), demo_saved_files).
Proof.
  assert (Hsave : exists self',
             save demo_abspath demo_built_model (Some "m") ∅
             = (Returns self' (), demo_saved_files))
    by (eexists; vm_compute; reflexivity).
  destruct Hsave as [self' Hsave]. exists self'. split; [exact Hsave|].
  exact (save_twice demo_abspath demo_built_model self' "m" ∅
           demo_saved_files Hsave).
Defined.

Lemma lm_head_only_for_training_witness :
  Forall (fun g => g_train g = false -> g_compile_lm g = false)
    (graphs
       (fst (run_operations demo_encoder demo_stored_params demo_randn
               demo_interpolate demo_split demo_lm_predict demo_abspath
               (demo_model 6, ∅)
               [OpFinetune [["ab"; "cd"; "ef"]] None None demo_steps;
                OpInfer [["ab"]] None; OpSave (Some "m")]))).
Proof.
  destruct (lm_head_only_for_training demo_encoder demo_stored_params
              demo_randn demo_interpolate demo_split demo_lm_predict
              demo_abspath
              [OpFinetune [["ab"; "cd"; "ef"]] None None demo_steps;
               OpInfer [["ab"]] None; OpSave (Some "m")]
              (demo_model 6) ∅ eq_refl
              ltac:(repeat constructor; intros ? ?; discriminate))
    as (_ & new & Hg & _ & Hnew).
  rewrite Hg. change (graphs (demo_model 6)) with (@nil Graph).
  rewrite app_nil_r. exact Hnew.
Defined.

Lemma finetune_labels_too_short_witness :
  exists self',
    finetune demo_encoder demo_stored_params demo_randn demo_interpolate
      demo_split (demo_model 6) [["ab"; "cd"; "ef"]] (Some ["p"]) None
      demo_steps
    = Raises self' IndexError
    /\ graphs self' = [].
Proof.
  assert (Harr : exists arr,
             _text_to_ids demo_encoder (demo_model 6) [["ab"; "cd"; "ef"]]
               None None = Ok arr
             /\ length (ArrayEncodedOutput.token_ids arr) = 3%nat)
    by (eexists; split; vm_compute; reflexivity).
  destruct Harr as (arr & Harr & Hn).
  eexists. split.
  - apply (finetune_labels_too_short demo_encoder demo_stored_params
             demo_randn demo_interpolate demo_split (demo_model 6)
             [["ab"; "cd"; "ef"]] ["p"] None demo_steps arr 1%nat Harr).
    + rewrite Hn. vm_compute. apply list_elem_of_further, list_elem_of_here.
    + simpl. lia.
  - reflexivity.
Defined.

(* a configuration with two ranged items and a plain one *)
Definition demo_grid_config : GridConfig Z :=
  [("lr", Ranged [1; 2]); ("n_epochs", Plain 3); ("l2_reg", Ranged [5; 6; 7])].

(* the score of a grid item: the value at "l2_reg" minus the one at "lr" *)
Definition demo_score (config_ : GridConfig Z) : Q :=
  match dict_get config_ "l2_reg", dict_get config_ "lr" with
  | Some (Plain a), Some (Plain b) => inject_Z (a - b)
  | _, _ => 0%Q
  end.

Lemma predict_proba_by_class_witness :
  exists d,
    predict_proba_format ["neg"; "pos"] [[(1 # 4)%Q; (3 # 4)%Q]] !! 0%nat
    = Some d
    /\ d !! "pos" = Some (3 # 4)%Q
    /\ d !! "neg" = Some (1 # 4)%Q.
Proof.
  destruct (predict_proba_by_class ["neg"; "pos"] [[(1 # 4)%Q; (3 # 4)%Q]])
    as [_ Hrows].
  destruct (Hrows 0%nat [(1 # 4)%Q; (3 # 4)%Q] eq_refl) as (d & Hd & _ & Hcls).
  assert (Hnd : NoDup ["neg"; "pos"]).
  { repeat constructor.
    - intros Hin. apply list_elem_of_singleton in Hin. discriminate.
    - intros Hin. apply elem_of_nil in Hin. exact Hin. }
  exists d. split; [exact Hd|]. split.
  - exact (Hcls Hnd 1%nat "pos" (3 # 4)%Q eq_refl eq_refl).
  - exact (Hcls Hnd 0%nat "neg" (1 # 4)%Q eq_refl eq_refl).
Defined.

Lemma grid_search_returns_input_config_witness :
  grid_configs demo_grid_config !! 5%nat
  = Some [("lr", Plain 2); ("n_epochs", Plain 3); ("l2_reg", Plain 7)]
  /\ finetune_grid_search demo_grid_config demo_score false
     = Ok (inr demo_grid_config).
Proof.
  split; [reflexivity|].
  apply (grid_search_returns_input_config demo_grid_config demo_score).
  intros [k Hk]. unfold demo_grid_config in Hk.
  repeat (apply elem_of_cons in Hk as [Hk|Hk]; [discriminate|]).
  apply elem_of_nil in Hk. exact Hk.
Defined.

Lemma grid_search_grid_witness :
  length (grid_configs demo_grid_config) = 6%nat
  /\ forall config_,
       config_ ∈ grid_configs demo_grid_config ->
       dict_get config_ "n_epochs" = Some (Plain 3)
       /\ exists v, v ∈ [5; 6; 7] /\ dict_get config_ "l2_reg" = Some (Plain v).
Proof.
  destruct (grid_search_grid demo_grid_config) as [Hlen Hgrid].
  split; [exact Hlen|]. intros config_ Hin.
  assert (Hnd : NoDup (fst <$> demo_grid_config)).
  { apply (bool_decide_unpack _). vm_compute. exact I. }
  destruct (Hgrid Hnd config_ Hin) as [Hranged Hplain]. split.
  - apply Hplain. apply list_elem_of_further, list_elem_of_here.
  - apply Hranged. do 2 apply list_elem_of_further. apply list_elem_of_here.
Defined.

Lemma save_fails_on_a_file_witness :
  save demo_abspath demo_built_model (Some "m") {["/work/m" := OtherFile]}
  = (Raises (set_load_from_file (Some "/work/m") demo_built_model) ValueError,
     {["/work/m" := OtherFile]})
  /\ BaseModel._load_from_file
       (state_after
          (fst (save demo_abspath demo_built_model (Some "m")
                  {["/work/m" := OtherFile]})))
     = Some "/work/m".
Proof.
  apply (save_fails_on_a_file demo_abspath demo_built_model "m"
           {["/work/m" := OtherFile]} OtherFile);
    [reflexivity|discriminate].
Defined.
